(** * zamer-avito-system: the store, the worker loop, the janitor and the
    proxy-string helpers, embedded from the Python sources.

  - [Store]   : worker/src/db.py      (SQL statements and their retry loops)
  - [Worker]  : worker/src/main.py    (the slot loop of [worker_loop])
  - [Cleanup] : cleanup/cleanup.py    (configuration and [main])
  - [Proxies] : worker/src/utils.py and cli/upload_proxies.py

  Tables are lists of rows in storage order.  [NOW()] is a parameter [now].
  A Python call either returns a value or raises; a database call that can
  fail is driven by a script that says, attempt by attempt, whether the
  connection or the statement raises. *)

From Stdlib Require Import ZArith List String Ascii Bool Lia Permutation.
Import ListNotations.
Local Open Scope string_scope.
Local Open Scope Z_scope.

(* ------------------------------------------------------------------ *)
(** * Python results *)

Module Py.

(** The exception classes the embedded code raises or catches.  Every one
    of them is a subclass of [Exception]. *)
Inductive exn : Type :=
| DbError (msg : string)        (* asyncpg / connection errors *)
| ValueError (about : string)
| KeyError (key : string)
| RuntimeError (msg : string)
| AttributeError (name : string).

(** The outcome of a call: a returned value or a raised exception. *)
Inductive res (A : Type) : Type :=
| Return (a : A)
| Raise (e : exn).
Arguments Return {A} a.
Arguments Raise {A} e.

Definition raises {A} (r : res A) : bool :=
  match r with Raise _ => true | Return _ => false end.

End Py.
Import Py.

(* ------------------------------------------------------------------ *)
(** * The store: worker/src/db.py *)

Module Store.

Inductive task_status := Pending | Processing | Completed | Failed.
Inductive proxy_status := Available | Locked | Blocked.
Inductive worker_status := Active | Stopped.
Inductive result_status := Success | Unavailable | Error.

Definition task_status_eqb (a b : task_status) : bool :=
  match a, b with
  | Pending, Pending | Processing, Processing
  | Completed, Completed | Failed, Failed => true
  | _, _ => false
  end.

Definition proxy_status_eqb (a b : proxy_status) : bool :=
  match a, b with
  | Available, Available | Locked, Locked | Blocked, Blocked => true
  | _, _ => false
  end.

(** A row of [tasks]; the columns are those the statements name. *)
Record Task := mkTask {
  t_id : Z;
  t_item_id : Z;
  t_status : task_status;
  t_attempts : Z;
  t_max_attempts : Z;
  t_worker_id : option string;
  t_created_at : Z;
  t_last_attempt_at : option Z;
  t_completed_at : option Z
}.

(** A row of [proxies]. *)
Record Proxy := mkProxy {
  p_id : Z;
  p_proxy : string;
  p_status : proxy_status;
  p_locked_by : option string;
  p_locked_at : option Z;
  p_last_used_at : option Z;
  p_uses_count : Z;
  p_blocks_count : Z
}.

(** A row of [workers]. *)
Record WorkerRow := mkWorker {
  w_worker_id : string;
  w_status : worker_status;
  w_last_heartbeat : Z;
  w_tasks_processed : Z;
  w_tasks_failed : Z;
  w_started_at : Z
}.

(** The content columns of [results], in the order of the INSERT. *)
Record Content := mkContent {
  c_title : option string;
  c_description : option string;
  c_characteristics : string;            (* json.dumps(...) *)
  c_price : option Z;                    (* hundredths *)
  c_published_at : option string;
  c_seller_name : option string;
  c_seller_profile_url : option string;
  c_location_address : option string;
  c_location_metro : option string;
  c_location_region : option string;
  c_views_total : option Z
}.

(** A row of [results]. *)
Record ResultRow := mkResultRow {
  r_item_id : Z;
  r_content : Content;
  r_status : result_status;
  r_failure_reason : option string;
  r_worker_id : string;
  r_attempts : Z;
  r_updated_at : Z
}.

Record DB := mkDB {
  tasks : list Task;
  proxies : list Proxy;
  workers : list WorkerRow;
  results : list ResultRow
}.

Definition set_tasks (d : DB) (ts : list Task) : DB :=
  mkDB ts (proxies d) (workers d) (results d).
Definition set_proxies (d : DB) (ps : list Proxy) : DB :=
  mkDB (tasks d) ps (workers d) (results d).
Definition set_workers (d : DB) (ws : list WorkerRow) : DB :=
  mkDB (tasks d) (proxies d) ws (results d).
Definition set_results (d : DB) (rs : list ResultRow) : DB :=
  mkDB (tasks d) (proxies d) (workers d) rs.

(** [UPDATE t SET ... WHERE cond]: every row that satisfies the condition
    is rewritten, every other row is kept.  The list keeps a rewritten
    row at its place.  PostgreSQL stores it as a new row version, so in a
    real table the scan order after an UPDATE can differ from the order
    before it: the place of a row in the list stands for no more than one
    possible scan order.  The theorems on the row a sub-select picks are
    stated for every list of rows, hence for every scan order. *)
Definition sql_update {R : Type} (cond : R -> bool) (set : R -> R)
    (rows : list R) : list R :=
  map (fun r => if cond r then set r else r) rows.

Definition find_task (id : Z) (d : DB) : option Task :=
  find (fun t => t_id t =? id) (tasks d).
Definition find_proxy (s : string) (d : DB) : option Proxy :=
  find (fun p => String.eqb (p_proxy p) s) (proxies d).
Definition find_worker (w : string) (d : DB) : option WorkerRow :=
  find (fun r => String.eqb (w_worker_id r) w) (workers d).
Definition find_result (item : Z) (d : DB) : option ResultRow :=
  find (fun r => r_item_id r =? item) (results d).

(** ** The retry loop shared by every function of db.py

    [[
    for attempt in range(config.DB_RETRY_ATTEMPTS):
        try:
            conn = await get_connection()
            try:
                <statement>; return <value>
            finally:
                await pool.release(conn)
        except Exception as e:
            if attempt < config.DB_RETRY_ATTEMPTS - 1:
                await asyncio.sleep(config.RETRY_DELAY)
            else:
                raise e        # or: return False
    ]]

    A script gives, for each attempt in turn, [Some e] when the attempt
    raises [e] before the statement takes effect ([get_connection], which
    has the same loop around [pool.acquire], gave up with [e], or the
    server refused the statement), and [None] when the database is
    reachable.  A script that is too short means no further fault.  Each
    statement is one autocommit transaction: it takes effect as a whole or
    not at all.

    [pool.release(conn)] of the [finally] clause can raise as well, after
    the statement has committed; a script has no entry for that.  The
    loop with both kinds of fault is [late_retry], at the end of this
    module, and [retry] is that loop on faults of the first kind. *)
Definition script := list (option exn).

(** One attempt's statement: it raises, or returns a value and the new
    database. *)
Definition stmt (A : Type) := DB -> exn + (A * DB).

Section Retry.
Context {A : Type}.
Variable N : Z.                       (* config.DB_RETRY_ATTEMPTS *)
Variable on_exhausted : exn -> res A. (* the [else] branch of the handler *)
Variable fallthrough : A.             (* the loop ends without a return *)
Variable body : stmt A.

(** What the handler does with the exception of attempt [attempt]:
    [None] is "sleep and go round again". *)
Definition handler (attempt : Z) (e : exn) : option (res A) :=
  if attempt <? N - 1 then None else Some (on_exhausted e).

(** The loop from iteration [attempt] on, with [fuel] iterations left. *)
Fixpoint retry_from (fuel : nat) (attempt : Z) (sc : script) (d : DB)
    : res A * DB :=
  match fuel with
  | O => (Return fallthrough, d)
  | S fuel' =>
      let outcome :=
        match sc with
        | Some e :: _ => inl e
        | _ => body d
        end in
      match outcome with
      | inr (a, d') => (Return a, d')
      | inl e =>
          match handler attempt e with
          | None => retry_from fuel' (attempt + 1) (tl sc) d
          | Some r => (r, d)
          end
      end
  end.

(** [for attempt in range(N)]: [Z.to_nat N] iterations from 0. *)
Definition retry (sc : script) (d : DB) : res A * DB :=
  retry_from (Z.to_nat N) 0 sc d.
End Retry.


(** The part of worker/src/config.py the embedded code reads. *)
Record Config := mkConfig {
  DB_RETRY_ATTEMPTS : Z;
  RETRY_DELAY : Z;
  HEARTBEAT_INTERVAL : Z;
  WORKERS_COUNT : Z
}.

(** The values used when the environment sets none. *)
Definition default_config : Config := mkConfig 5 10 30 15.

(** ** acquire_task *)

(** The dictionary [acquire_task] returns. *)
Record TaskLease := mkLease {
  task_id : Z;
  item_id : Z;
  attempts : Z
}.

(** [ORDER BY key ASC LIMIT 1] over rows in scan order.  SQL leaves the
    order of rows with equal keys open; a scan returns them in storage
    order, so the row kept is the first one, in list order, whose key is
    minimal. *)
Fixpoint first_min {R : Type} (key : R -> Z) (rows : list R) : option R :=
  match rows with
  | [] => None
  | r :: rest =>
      match first_min key rest with
      | None => Some r
      | Some m => if key r <=? key m then Some r else Some m
      end
  end.

(** [WHERE status='pending' ... FOR UPDATE SKIP LOCKED]: [locked] lists the
    ids of the rows another transaction holds a row lock on. *)
Definition task_candidate (locked : list Z) (t : Task) : bool :=
  task_status_eqb (t_status t) Pending
  && negb (existsb (Z.eqb (t_id t)) locked).

(** The sub-select of [acquire_task]. *)
Definition select_pending (locked : list Z) (d : DB) : option Z :=
  option_map t_id
    (first_min t_created_at (filter (task_candidate locked) (tasks d))).

(** The SET clause of [acquire_task]. *)
Definition lease_task (worker : string) (now : Z) (t : Task) : Task :=
  mkTask (t_id t) (t_item_id t) Processing (t_attempts t + 1)
         (t_max_attempts t) (Some worker) (t_created_at t) (Some now)
         (t_completed_at t).

(** The statement of [acquire_task] with its RETURNING clause read by
    [fetchrow]. *)
Definition acquire_task_stmt (locked : list Z) (worker : string) (now : Z)
    : stmt (option TaskLease) :=
  fun d =>
    match select_pending locked d with
    | None => inr (None, d)
    | Some id =>
        let ts := sql_update (fun t => t_id t =? id)
                             (lease_task worker now) (tasks d) in
        let row :=
          match filter (fun t => t_id t =? id) ts with
          | [] => None
          | r :: _ => Some (mkLease (t_id r) (t_item_id r) (t_attempts r))
          end in
        inr (row, set_tasks d ts)
    end.

Definition acquire_task (cfg : Config) (locked : list Z) (worker : string)
    (now : Z) (sc : script) (d : DB) : res (option TaskLease) * DB :=
  retry (DB_RETRY_ATTEMPTS cfg) (fun e => Raise e) None
        (acquire_task_stmt locked worker now) sc d.

(** ** acquire_proxy *)

Record ProxyLease := mkProxyLease {
  proxy_id : Z;
  proxy : string
}.

Definition proxy_candidate (locked : list Z) (p : Proxy) : bool :=
  proxy_status_eqb (p_status p) Available
  && negb (existsb (Z.eqb (p_id p)) locked).

Definition select_available (locked : list Z) (d : DB) : option string :=
  option_map p_proxy
    (first_min p_uses_count (filter (proxy_candidate locked) (proxies d))).

Definition lease_proxy (worker : string) (now : Z) (p : Proxy) : Proxy :=
  mkProxy (p_id p) (p_proxy p) Locked (Some worker) (Some now)
          (p_last_used_at p) (p_uses_count p + 1) (p_blocks_count p).

Definition acquire_proxy_stmt (locked : list Z) (worker : string) (now : Z)
    : stmt (option ProxyLease) :=
  fun d =>
    match select_available locked d with
    | None => inr (None, d)
    | Some s =>
        let ps := sql_update (fun p => String.eqb (p_proxy p) s)
                             (lease_proxy worker now) (proxies d) in
        let row :=
          match filter (fun p => String.eqb (p_proxy p) s) ps with
          | [] => None
          | r :: _ => Some (mkProxyLease (p_id r) (p_proxy r))
          end in
        inr (row, set_proxies d ps)
    end.

Definition acquire_proxy (cfg : Config) (locked : list Z) (worker : string)
    (now : Z) (sc : script) (d : DB) : res (option ProxyLease) * DB :=
  retry (DB_RETRY_ATTEMPTS cfg) (fun e => Raise e) None
        (acquire_proxy_stmt locked worker now) sc d.

(** ** The functions that return a bool

    They return [True] after the statement, [False] from the handler of the
    last attempt, and fall off the loop ([None]) when it has no iteration. *)
Definition retry_bool (cfg : Config) (body : stmt (option bool))
    (sc : script) (d : DB) : res (option bool) * DB :=
  retry (DB_RETRY_ATTEMPTS cfg) (fun _ => Return (Some false)) None body sc d.

(** An UPDATE followed by [return True]. *)
Definition exec (f : DB -> DB) : stmt (option bool) :=
  fun d => inr (Some true, f d).

(** The SET clause of [release_proxy]. *)
Definition free_proxy (now : Z) (p : Proxy) : Proxy :=
  mkProxy (p_id p) (p_proxy p) Available None None (Some now)
          (p_uses_count p) (p_blocks_count p).

(** [UPDATE proxies SET status='available', locked_by=NULL, locked_at=NULL,
    last_used_at=NOW() WHERE proxy=$1]. *)
Definition release_proxy_stmt (now : Z) (proxy_string : string) : DB -> DB :=
  fun d => set_proxies d
    (sql_update (fun p => String.eqb (p_proxy p) proxy_string)
                (free_proxy now) (proxies d)).

Definition release_proxy (cfg : Config) (now : Z) (proxy_string : string)
    : script -> DB -> res (option bool) * DB :=
  retry_bool cfg (exec (release_proxy_stmt now proxy_string)).

(** The SET clause of [mark_proxy_blocked]. *)
Definition block_proxy (p : Proxy) : Proxy :=
  mkProxy (p_id p) (p_proxy p) Blocked (p_locked_by p) (p_locked_at p)
          (p_last_used_at p) (p_uses_count p) (p_blocks_count p + 1).

(** [UPDATE proxies SET status='blocked', blocks_count=blocks_count+1
    WHERE proxy=$1]. *)
Definition mark_proxy_blocked_stmt (proxy_string : string) : DB -> DB :=
  fun d => set_proxies d
    (sql_update (fun p => String.eqb (p_proxy p) proxy_string)
                block_proxy (proxies d)).

Definition mark_proxy_blocked (cfg : Config) (proxy_string : string)
    : script -> DB -> res (option bool) * DB :=
  retry_bool cfg (exec (mark_proxy_blocked_stmt proxy_string)).

(** The SET clause of [mark_task_completed]. *)
Definition complete_task (now : Z) (t : Task) : Task :=
  mkTask (t_id t) (t_item_id t) Completed (t_attempts t) (t_max_attempts t)
         (t_worker_id t) (t_created_at t) (t_last_attempt_at t) (Some now).

(** [UPDATE tasks SET status='completed', completed_at=NOW() WHERE id=$1]. *)
Definition mark_task_completed_stmt (now : Z) (id : Z) : DB -> DB :=
  fun d => set_tasks d
    (sql_update (fun t => t_id t =? id) (complete_task now) (tasks d)).

Definition mark_task_completed (cfg : Config) (now : Z) (id : Z)
    : script -> DB -> res (option bool) * DB :=
  retry_bool cfg (exec (mark_task_completed_stmt now id)).

(** The SET clause of [increment_task_attempts]: the CASE reads the row's
    own [attempts] and [max_attempts]. *)
Definition give_back_task (t : Task) : Task :=
  mkTask (t_id t) (t_item_id t)
         (if t_attempts t >=? t_max_attempts t then Failed else Pending)
         (t_attempts t) (t_max_attempts t) None (t_created_at t) None
         (t_completed_at t).

(** [UPDATE tasks SET status = CASE WHEN attempts >= max_attempts THEN
    'failed' ELSE 'pending' END, worker_id = NULL, last_attempt_at = NULL
    WHERE id=$1]. *)
Definition increment_task_attempts_stmt (id : Z) : DB -> DB :=
  fun d => set_tasks d
    (sql_update (fun t => t_id t =? id) give_back_task (tasks d)).

Definition increment_task_attempts (cfg : Config) (id : Z)
    : script -> DB -> res (option bool) * DB :=
  retry_bool cfg (exec (increment_task_attempts_stmt id)).

(** ** increment_worker_stats *)

Definition bump_processed (w : WorkerRow) : WorkerRow :=
  mkWorker (w_worker_id w) (w_status w) (w_last_heartbeat w)
           (w_tasks_processed w + 1) (w_tasks_failed w) (w_started_at w).

Definition bump_failed (w : WorkerRow) : WorkerRow :=
  mkWorker (w_worker_id w) (w_status w) (w_last_heartbeat w)
           (w_tasks_processed w) (w_tasks_failed w + 1) (w_started_at w).

Definition increment_worker_stats_stmt (worker : string) (success : bool)
    : DB -> DB :=
  fun d => set_workers d
    (sql_update (fun w => String.eqb (w_worker_id w) worker)
                (if success then bump_processed else bump_failed)
                (workers d)).

Definition increment_worker_stats (cfg : Config) (worker : string)
    (success : bool) : script -> DB -> res (option bool) * DB :=
  retry_bool cfg (exec (increment_worker_stats_stmt worker success)).

(** ** update_heartbeat *)

(** Modelled from the spec: sql/init.sql, which holds the column defaults of
    [workers], is not among the sources.  A row inserted with its
    [worker_id] only is created active, with both counters at zero and both
    timestamps at the time of the insert. *)
Definition new_worker (worker : string) (now : Z) : WorkerRow :=
  mkWorker worker Active now 0 0 now.

(** The DO UPDATE clause of [update_heartbeat]. *)
Definition beat (now : Z) (w : WorkerRow) : WorkerRow :=
  mkWorker (w_worker_id w) Active now (w_tasks_processed w)
           (w_tasks_failed w) (w_started_at w).

(** [INSERT INTO workers (worker_id) VALUES ($1) ON CONFLICT (worker_id)
    DO UPDATE SET last_heartbeat=NOW(), status='active']. *)
Definition update_heartbeat_stmt (worker : string) (now : Z) : DB -> DB :=
  fun d =>
    match find_worker worker d with
    | Some _ =>
        set_workers d
          (sql_update (fun w => String.eqb (w_worker_id w) worker)
                      (beat now) (workers d))
    | None => set_workers d (workers d ++ [new_worker worker now])
    end.

Definition update_heartbeat (cfg : Config) (worker : string) (now : Z)
    : script -> DB -> res (option bool) * DB :=
  retry_bool cfg (exec (update_heartbeat_stmt worker now)).

(** ** save_result_to_db *)

(** The dictionary [process_item] hands to the loop.  A field read with
    [result[...]] is an option: [None] means the key is absent and the read
    raises [KeyError]; the error dictionaries of processor.py have neither
    ['worker_id'] nor ['attempts']. *)
Record ResultDict := mkResultDict {
  rd_item_id : Z;
  rd_status : result_status;
  rd_content : Content;
  rd_failure_reason : option string;
  rd_worker_id : option string;
  rd_attempts : option Z;
  rd_rotate_proxy : bool
}.

(** The row the INSERT and the DO UPDATE clause both write.  Modelled from
    the spec: the column default of [results.updated_at] is in sql/init.sql,
    which is not among the sources; an inserted row gets the time of the
    insert, as a row updated on conflict does. *)
Definition result_row (r : ResultDict) (worker : string) (att : Z) (now : Z)
    : ResultRow :=
  mkResultRow (rd_item_id r) (rd_content r) (rd_status r)
              (rd_failure_reason r) worker att now.

(** [INSERT INTO results (...) VALUES (...) ON CONFLICT (item_id) DO UPDATE
    SET ...].  The arguments are evaluated first, left to right:
    [result['worker_id']] then [result['attempts']]. *)
Definition save_result_stmt (r : ResultDict) (now : Z) : stmt (option bool) :=
  fun d =>
    match rd_worker_id r with
    | None => inl (KeyError "worker_id")
    | Some worker =>
        match rd_attempts r with
        | None => inl (KeyError "attempts")
        | Some att =>
            let row := result_row r worker att now in
            match find_result (rd_item_id r) d with
            | Some _ =>
                inr (Some true,
                     set_results d
                       (sql_update (fun x => r_item_id x =? rd_item_id r)
                                   (fun _ => row) (results d)))
            | None => inr (Some true, set_results d (results d ++ [row]))
            end
        end
    end.

Definition save_result_to_db (cfg : Config) (r : ResultDict) (now : Z)
    : script -> DB -> res (option bool) * DB :=
  retry_bool cfg (save_result_stmt r now).

(** ** Attempts that fail after their statement

    [[
            try:
                <statement>; return <value>
            finally:
                await pool.release(conn)
    ]]

    The [finally] clause is inside the retried [try].  When
    [pool.release] raises, the statement of that attempt has committed,
    its [return] is abandoned, and the handler gets the exception of
    [pool.release]; the next attempt runs the statement again, on the
    database the lost attempt left.  When the statement raised and
    [pool.release] raises too, the handler gets the exception of
    [pool.release] and the database is as before the attempt. *)
Inductive fault : Type :=
| Refused (e : exn)   (* [get_connection] or the statement raises [e] *)
| Lost (e : exn).     (* [pool.release] raises [e] after the statement *)

(** The exception the handler of the attempt gets. *)
Definition raised (f : fault) : exn :=
  match f with Refused e | Lost e => e end.

Definition faults := list (option fault).

Section Attempts.
Context {A : Type}.
Variable N : Z.
Variable on_exhausted : exn -> res A.
Variable fallthrough : A.
Variable body : stmt A.

(** What one attempt leaves: the value returned or the exception handed
    to the handler, and the database. *)
Definition attempt_outcome (f : option fault) (d : DB) : (exn + A) * DB :=
  match f with
  | Some (Refused e) => (inl e, d)
  | Some (Lost e) =>
      match body d with
      | inr (_, d') => (inl e, d')
      | inl _ => (inl e, d)
      end
  | None =>
      match body d with
      | inr (a, d') => (inr a, d')
      | inl e => (inl e, d)
      end
  end.

Fixpoint late_retry_from (fuel : nat) (attempt : Z) (fs : faults) (d : DB)
    : res A * DB :=
  match fuel with
  | O => (Return fallthrough, d)
  | S fuel' =>
      match attempt_outcome (hd None fs) d with
      | (inr a, d') => (Return a, d')
      | (inl e, d') =>
          match handler N on_exhausted attempt e with
          | None => late_retry_from fuel' (attempt + 1) (tl fs) d'
          | Some r => (r, d')
          end
      end
  end.

Definition late_retry (fs : faults) (d : DB) : res A * DB :=
  late_retry_from (Z.to_nat N) 0 fs d.
End Attempts.

(** The faults of a script: each strikes before the statement. *)
Definition refused (sc : script) : faults := map (option_map Refused) sc.

(** The nine functions of db.py on faults of both kinds. *)
Module Late.

Definition acquire_task (cfg : Config) (locked : list Z) (worker : string)
    (now : Z) : faults -> DB -> res (option TaskLease) * DB :=
  late_retry (DB_RETRY_ATTEMPTS cfg) (fun e => Raise e) None
             (acquire_task_stmt locked worker now).

Definition acquire_proxy (cfg : Config) (locked : list Z) (worker : string)
    (now : Z) : faults -> DB -> res (option ProxyLease) * DB :=
  late_retry (DB_RETRY_ATTEMPTS cfg) (fun e => Raise e) None
             (acquire_proxy_stmt locked worker now).

Definition late_retry_bool (cfg : Config) (body : stmt (option bool))
    : faults -> DB -> res (option bool) * DB :=
  late_retry (DB_RETRY_ATTEMPTS cfg) (fun _ => Return (Some false)) None
             body.

Definition release_proxy (cfg : Config) (now : Z) (proxy_string : string) :=
  late_retry_bool cfg (exec (release_proxy_stmt now proxy_string)).

Definition mark_proxy_blocked (cfg : Config) (proxy_string : string) :=
  late_retry_bool cfg (exec (mark_proxy_blocked_stmt proxy_string)).

Definition mark_task_completed (cfg : Config) (now : Z) (id : Z) :=
  late_retry_bool cfg (exec (mark_task_completed_stmt now id)).

Definition increment_task_attempts (cfg : Config) (id : Z) :=
  late_retry_bool cfg (exec (increment_task_attempts_stmt id)).

Definition increment_worker_stats (cfg : Config) (worker : string)
    (success : bool) :=
  late_retry_bool cfg (exec (increment_worker_stats_stmt worker success)).

Definition update_heartbeat (cfg : Config) (worker : string) (now : Z) :=
  late_retry_bool cfg (exec (update_heartbeat_stmt worker now)).

Definition save_result_to_db (cfg : Config) (r : ResultDict) (now : Z) :=
  late_retry_bool cfg (save_result_stmt r now).

End Late.

End Store.

(* ------------------------------------------------------------------ *)
(** * Proxy strings: worker/src/utils.py and cli/upload_proxies.py

    A Python [str] is modelled by a [string] whose characters are the code
    points below 256. *)

Module Proxies.

Definition code (c : ascii) : Z := Z.of_N (N_of_ascii c).

Definition in_codes (c : ascii) (l : list Z) : bool :=
  existsb (Z.eqb (code c)) l.

(** [str.isspace] below 256: what [str.strip()] removes. *)
Definition is_space (c : ascii) : bool :=
  in_codes c [9; 10; 11; 12; 13; 28; 29; 30; 31; 32; 133; 160].

(** The white space [int()] skips around a literal: tab to carriage return,
    the space, and the two non-ASCII spaces. *)
Definition is_int_space (c : ascii) : bool :=
  in_codes c [9; 10; 11; 12; 13; 32; 133; 160].

Definition is_digit (c : ascii) : bool :=
  (48 <=? code c) && (code c <=? 57).

Definition digit_value (c : ascii) : Z := code c - 48.

(** [s.split(sep)] for a separator of one character. *)
Fixpoint split (sep : ascii) (s : string) : list string :=
  match s with
  | EmptyString => [EmptyString]
  | String c rest =>
      if Ascii.eqb c sep then EmptyString :: split sep rest
      else
        match split sep rest with
        | part :: parts => String c part :: parts
        | [] => [String c EmptyString]
        end
  end.

Fixpoint lstrip (s : string) : string :=
  match s with
  | String c rest => if is_space c then lstrip rest else s
  | EmptyString => EmptyString
  end.

Fixpoint rstrip (s : string) : string :=
  match s with
  | String c rest =>
      match rstrip rest with
      | EmptyString => if is_space c then EmptyString else String c EmptyString
      | kept => String c kept
      end
  | EmptyString => EmptyString
  end.

(** [s.strip()]. *)
Definition strip (s : string) : string := rstrip (lstrip s).

(** Truth value of a [str]. *)
Definition truthy (s : string) : bool :=
  match s with EmptyString => false | _ => true end.

(** [sys.get_int_max_str_digits()], at its default. *)
Definition int_max_str_digits : nat := 4300.

Fixpoint skip_int_space (s : string) : string :=
  match s with
  | String c rest => if is_int_space c then skip_int_space rest else s
  | EmptyString => EmptyString
  end.

(** The digits of a decimal literal, single underscores allowed between
    two digits.  [pending] says a digit must come next (at the start and
    after an underscore).  Returns the value, the number of digits and the
    rest of the string. *)
Fixpoint scan_digits (s : string) (acc : Z) (count : nat) (pending : bool)
    : option (Z * nat * string) :=
  match s with
  | String c rest =>
      if is_digit c
      then scan_digits rest (acc * 10 + digit_value c) (S count) false
      else if Ascii.eqb c "_"
      then (if pending then None else scan_digits rest acc count true)
      else (if pending then None else Some (acc, count, s))
  | EmptyString => if pending then None else Some (acc, count, EmptyString)
  end.

(** [int(s)] for a [str]: [None] is [ValueError]. *)
Definition py_int (s : string) : option Z :=
  let body := skip_int_space s in
  let '(sign, body) :=
    match body with
    | String "+" rest => (1, rest)
    | String "-" rest => (-1, rest)
    | _ => (1, body)
    end in
  match scan_digits body 0 0%nat true with
  | Some (v, count, rest) =>
      match skip_int_space rest with
      | EmptyString =>
          if (int_max_str_digits <? count)%nat then None else Some (sign * v)
      | _ => None
      end
  | None => None
  end.

(** [validate_proxy_format] of cli/upload_proxies.py. *)
Definition validate_proxy_format (proxy : string) : bool :=
  match split ":" proxy with
  | [host; port; user; password] =>
      if negb (truthy (strip host)) then false
      else
        match py_int port with
        | Some port_num =>
            if (port_num <=? 0) || (port_num >? 65535) then false else true
        | None => false
        end
  | _ => false
  end.

(** The dictionary [parse_proxy] returns. *)
Record ProxyConfig := mkProxyConfig {
  server : string;
  username : string;
  password : string
}.

(** [parse_proxy] of worker/src/utils.py.  The [ValueError] carries the
    rejected string, which is what its message quotes. *)
Definition parse_proxy (proxy_string : string) : res ProxyConfig :=
  match split ":" proxy_string with
  | [host; port; username; password] =>
      Return (mkProxyConfig ("http://" ++ host ++ ":" ++ port)
                            username password)
  | _ => Raise (ValueError proxy_string)
  end.

End Proxies.

(* ------------------------------------------------------------------ *)
(** * The slot loop: worker/src/main.py *)

Module Worker.
Import Store.

(** What one slot can see and change: the database, the clock, the faults
    its calls will meet, the log, and the local variables of [worker_loop]
    ([page] stands for the four browser handles, which are set and cleared
    together). *)
Record Slot := mkSlot {
  db : DB;
  now : Z;
  scripts : list script;          (* one per database call, in call order *)
  launches : list (option exn);   (* one per browser launch *)
  task_locks : list Z;            (* rows locked by other transactions *)
  proxy_locks : list Z;
  log : list string;              (* event names, oldest first *)
  page : bool;
  current_proxy : option string
}.

(** A coroutine of main.py: it changes the slot and returns or raises.  What
    it did before raising stays done. *)
Definition M (A : Type) : Type := Slot -> res A * Slot.

Definition ret {A} (a : A) : M A := fun s => (Return a, s).

Definition bind {A B} (m : M A) (k : A -> M B) : M B :=
  fun s =>
    match m s with
    | (Return a, s') => k a s'
    | (Raise e, s') => (Raise e, s')
    end.

Definition raise {A} (e : exn) : M A := fun s => (Raise e, s).

(** [try: m  except Exception as exc: h exc]. *)
Definition try_except {A} (m : M A) (h : exn -> M A) : M A :=
  fun s =>
    match m s with
    | (Return a, s') => (Return a, s')
    | (Raise e, s') => h e s'
    end.

(** [try: m  finally: f]. *)
Definition try_finally {A} (m : M A) (f : M unit) : M A :=
  fun s =>
    match m s with
    | (r, s') =>
        match f s' with
        | (Return _, s'') => (r, s'')
        | (Raise e, s'') => (Raise e, s'')
        end
    end.

Notation "x <- m ;; k" := (bind m (fun x => k))
  (at level 61, m at next level, right associativity).
Notation "m ;;; k" := (bind m (fun _ => k))
  (at level 61, right associativity).

Definition lift {A} (r : res A) : M A := fun s => (r, s).

Definition set_db (s : Slot) (d : DB) (rest : list script) : Slot :=
  mkSlot d (now s) rest (launches s) (task_locks s) (proxy_locks s)
         (log s) (page s) (current_proxy s).

(** A call into db.py: it meets the next script. *)
Definition db_call {A} (f : Slot -> script -> DB -> res A * DB) : M A :=
  fun s =>
    let (r, d) := f s (hd [] (scripts s)) (db s) in
    (r, set_db s d (tl (scripts s))).

Definition log_event (event : string) : M unit :=
  fun s =>
    (Return tt,
     mkSlot (db s) (now s) (scripts s) (launches s) (task_locks s)
            (proxy_locks s) (log s ++ [event]) (page s) (current_proxy s)).

(** Assignment to the browser handles and to [current_proxy]. *)
Definition assign (pg : bool) (cp : option string) : M unit :=
  fun s =>
    (Return tt,
     mkSlot (db s) (now s) (scripts s) (launches s) (task_locks s)
            (proxy_locks s) (log s) pg cp).

(** [async_playwright().start()] up to [context.new_page()]. *)
Definition launch_browser : M unit :=
  fun s =>
    let s' := mkSlot (db s) (now s) (scripts s) (tl (launches s))
                     (task_locks s) (proxy_locks s) (log s) (page s)
                     (current_proxy s) in
    match launches s with
    | Some e :: _ => (Raise e, s')
    | _ => (Return tt, s')
    end.

Section Loop.
Variable cfg : Config.
Variable worker_id : string.

(** [register_worker], from iteration [attempt] on; the sleep between two
    attempts changes nothing the slot can see. *)
Fixpoint register_from (fuel : nat) (attempt : Z) : M bool :=
  match fuel with
  | O => log_event "worker_registration_failed" ;;; ret false
  | S fuel' =>
      done <- try_except
                (db_call (fun s => update_heartbeat cfg worker_id (now s)) ;;;
                 log_event "worker_registered" ;;;
                 ret true)
                (fun _ => log_event "worker_registration_retry" ;;; ret false) ;;
      if done then ret true else register_from fuel' (attempt + 1)
  end.

Definition register_worker : M bool :=
  register_from (Z.to_nat (DB_RETRY_ATTEMPTS cfg)) 0.

(** [init_playwright]: the proxy string of the freshly leased proxy. *)
Definition init_playwright : M string :=
  proxy_data <- db_call (fun s => acquire_proxy cfg (proxy_locks s)
                                                worker_id (now s)) ;;
  match proxy_data with
  | None => raise (RuntimeError "No proxy available during init")
  | Some lease =>
      let proxy_string := proxy lease in
      lift (Proxies.parse_proxy proxy_string) ;;;
      launch_browser ;;;
      log_event "worker_page_ready" ;;;
      ret proxy_string
  end.

(** [cleanup_playwright] swallows every exception and touches the browser
    only. *)
Definition cleanup_playwright : M unit := ret tt.

(** A db.py call whose argument is [current_proxy]: when the variable holds
    [None] the statement compares with NULL and changes no row. *)
Definition with_proxy (f : string -> script -> DB -> res (option bool) * DB)
    (cp : option string) : script -> DB -> res (option bool) * DB :=
  match cp with
  | Some p => f p
  | None => retry_bool cfg (exec (fun d => d))
  end.

(** The body of the inner [try] of [worker_loop]; [outcome] is what
    [process_item] returns or raises for the leased task (processor.py and
    the page it drives are outside this model). *)
Definition try_body (task : TaskLease) (outcome : res ResultDict) : M unit :=
  result <- (fun s =>
               if page s then lift outcome s
               else raise (AttributeError "goto") s) ;;
  (if rd_rotate_proxy result then
     db_call (fun s => with_proxy (mark_proxy_blocked cfg)
                                  (current_proxy s)) ;;;
     cleanup_playwright ;;;
     db_call (fun s => with_proxy (release_proxy cfg (now s))
                                  (current_proxy s)) ;;;
     assign false None ;;;
     p <- init_playwright ;;
     assign true (Some p)
   else ret tt) ;;;
  match rd_status result with
  | Success | Unavailable =>
      db_call (fun s => save_result_to_db cfg result (now s)) ;;;
      db_call (fun s => mark_task_completed cfg (now s) (task_id task)) ;;;
      db_call (fun _ => increment_worker_stats cfg worker_id true) ;;;
      log_event "task_success"
  | Error =>
      db_call (fun _ => increment_task_attempts cfg (task_id task)) ;;;
      db_call (fun _ => increment_worker_stats cfg worker_id false) ;;;
      ret tt
  end.

(** The inner [try ... except Exception] of [worker_loop]. *)
Definition process_task (task : TaskLease) (outcome : res ResultDict)
    : M unit :=
  try_except (try_body task outcome)
    (fun _ =>
       log_event "worker_error" ;;;
       db_call (fun _ => increment_task_attempts cfg (task_id task)) ;;;
       db_call (fun _ => increment_worker_stats cfg worker_id false) ;;;
       ret tt).

(** What the environment decides at one turn of the [while]: whether the
    shutdown event is set, whether [HEARTBEAT_INTERVAL] has elapsed since
    the last beat, and what [process_item] does. *)
Record Turn := mkTurn {
  shutdown_set : bool;
  heartbeat_due : bool;
  outcome : res ResultDict
}.

(** The [while not shutdown_event.is_set()] loop; when the turns run out the
    event is set. *)
Fixpoint while_loop (turns : list Turn) : M unit :=
  match turns with
  | [] => ret tt
  | t :: rest =>
      if shutdown_set t then ret tt
      else
        (if heartbeat_due t
         then db_call (fun s => update_heartbeat cfg worker_id (now s)) ;;;
              ret tt
         else ret tt) ;;;
        task <- db_call (fun s => acquire_task cfg (task_locks s)
                                               worker_id (now s)) ;;
        match task with
        | None => log_event "worker_no_tasks"
        | Some lease => process_task lease (outcome t) ;;; while_loop rest
        end
  end.

(** [worker_loop]: the outer [try / except Exception / finally]. *)
Definition worker_loop (turns : list Turn) : M unit :=
  try_finally
    (try_except
       (log_event "worker_start" ;;;
        registered <- register_worker ;;
        if negb registered
        then log_event "worker_start_aborted"
        else
          p <- init_playwright ;;
          assign true (Some p) ;;;
          while_loop turns)
       (fun _ => log_event "worker_fatal_error"))
    ((fun s => if page s then cleanup_playwright s else ret tt s) ;;;
     (fun s =>
        match current_proxy s with
        | Some p =>
            if Proxies.truthy p
            then (db_call (fun s => release_proxy cfg (now s) p) ;;; ret tt) s
            else ret tt s
        | None => ret tt s
        end) ;;;
     log_event "worker_shutdown").

End Loop.

End Worker.

(* ------------------------------------------------------------------ *)
(** * The janitor: cleanup/cleanup.py *)

Module Cleanup.
Import Store.

(** The class [Config] of cleanup.py. *)
Record Config := mkConfig {
  DB_HOST : string;
  DB_PORT : Z;
  DB_NAME : string;
  DB_USER : string;
  DB_PASSWORD : string;
  TASK_TIMEOUT : Z;
  PROXY_TIMEOUT : Z;
  WORKER_TIMEOUT : Z;
  CLEANUP_INTERVAL : Z;
  DB_CONNECT_TIMEOUT : Z;
  DB_RETRY_ATTEMPTS : Z;
  RETRY_DELAY : Z
}.

(** [os.getenv(name, default)]. *)
Definition getenv (environ : string -> option string) (name : string)
    (default : string) : string :=
  match environ name with Some v => v | None => default end.

(** [int(os.getenv(name, default))]. *)
Definition getenv_int (environ : string -> option string) (name : string)
    (default : string) : res Z :=
  let text := getenv environ name default in
  match Proxies.py_int text with
  | Some n => Return n
  | None => Raise (ValueError text)
  end.

Definition and_then {A B} (r : res A) (k : A -> res B) : res B :=
  match r with
  | Return a => k a
  | Raise e => Raise e
  end.

(** The class body, evaluated when the module is loaded, top to bottom:
    the first value read with [int] that is no integer literal raises. *)
Definition load_config (environ : string -> option string) : res Config :=
  let host := getenv environ "DB_HOST" "81.30.105.134" in
  and_then (getenv_int environ "DB_PORT" "5413") (fun port =>
  let name := getenv environ "DB_NAME" "zamer_avito_system" in
  let user := getenv environ "DB_USER" "admin" in
  let password := getenv environ "DB_PASSWORD" "Password123" in
  and_then (getenv_int environ "TASK_TIMEOUT" "600") (fun task =>
  and_then (getenv_int environ "PROXY_TIMEOUT" "300") (fun prox =>
  and_then (getenv_int environ "WORKER_TIMEOUT" "240") (fun work =>
  and_then (getenv_int environ "CLEANUP_INTERVAL" "60") (fun interval =>
  and_then (getenv_int environ "DB_CONNECT_TIMEOUT" "10") (fun connect =>
  and_then (getenv_int environ "DB_RETRY_ATTEMPTS" "5") (fun attempts =>
  and_then (getenv_int environ "RETRY_DELAY" "10") (fun delay =>
  Return (mkConfig host port name user password task prox work interval
                   connect attempts delay))))))))).

(** The settings the class body reads with [int], with their defaults, in
    the order of the class body. *)
Definition int_settings : list (string * string) :=
  [("DB_PORT", "5413"); ("TASK_TIMEOUT", "600"); ("PROXY_TIMEOUT", "300");
   ("WORKER_TIMEOUT", "240"); ("CLEANUP_INTERVAL", "60");
   ("DB_CONNECT_TIMEOUT", "10"); ("DB_RETRY_ATTEMPTS", "5");
   ("RETRY_DELAY", "10")].

(** [int] reads the value of the setting. *)
Definition reads_int (environ : string -> option string)
    (setting : string * string) : bool :=
  match Proxies.py_int (getenv environ (fst setting) (snd setting)) with
  | Some _ => true
  | None => false
  end.

(** [col < NOW() - INTERVAL 'timeout seconds']; a NULL column never
    satisfies it. *)
Definition older_than (col : option Z) (now timeout : Z) : bool :=
  match col with
  | Some t => t <? now - timeout
  | None => false
  end.

(** An UPDATE that reports the number of rows it changed. *)
Definition counted {R : Type} (cond : R -> bool) : list R -> option Z :=
  fun rows => Some (Z.of_nat (List.length (filter cond rows))).

Definition stuck_task (cfg : Config) (now : Z) (t : Task) : bool :=
  task_status_eqb (t_status t) Processing
  && older_than (t_last_attempt_at t) now (TASK_TIMEOUT cfg).

Definition unstick_task (t : Task) : Task :=
  mkTask (t_id t) (t_item_id t) Pending (t_attempts t) (t_max_attempts t)
         None (t_created_at t) None (t_completed_at t).

Definition stuck_proxy (cfg : Config) (now : Z) (p : Proxy) : bool :=
  proxy_status_eqb (p_status p) Locked
  && older_than (p_locked_at p) now (PROXY_TIMEOUT cfg).

Definition dead_worker (cfg : Config) (now : Z) (w : WorkerRow) : bool :=
  match w_status w with
  | Active => w_last_heartbeat w <? now - WORKER_TIMEOUT cfg
  | Stopped => false
  end.

Definition stop_worker (w : WorkerRow) : WorkerRow :=
  mkWorker (w_worker_id w) Stopped (w_last_heartbeat w)
           (w_tasks_processed w) (w_tasks_failed w) (w_started_at w).

Definition impossible_task (t : Task) : bool :=
  task_status_eqb (t_status t) Pending
  && (t_attempts t >=? t_max_attempts t).

Definition fail_task (t : Task) : Task :=
  mkTask (t_id t) (t_item_id t) Failed (t_attempts t) (t_max_attempts t)
         (t_worker_id t) (t_created_at t) (t_last_attempt_at t)
         (t_completed_at t).

(** The four sweeps return the count, or 0 from the handler of the last
    attempt. *)
Definition sweep (cfg : Config) (body : stmt (option Z))
    : script -> DB -> res (option Z) * DB :=
  retry (DB_RETRY_ATTEMPTS cfg) (fun _ => Return (Some 0)) None body.

Definition release_stuck_tasks (cfg : Config) (now : Z) :=
  sweep cfg (fun d =>
    inr (counted (stuck_task cfg now) (tasks d),
         set_tasks d (sql_update (stuck_task cfg now) unstick_task
                                 (tasks d)))).

Definition release_stuck_proxies (cfg : Config) (now : Z) :=
  sweep cfg (fun d =>
    inr (counted (stuck_proxy cfg now) (proxies d),
         set_proxies d (sql_update (stuck_proxy cfg now) (free_proxy now)
                                   (proxies d)))).

Definition mark_dead_workers (cfg : Config) (now : Z) :=
  sweep cfg (fun d =>
    inr (counted (dead_worker cfg now) (workers d),
         set_workers d (sql_update (dead_worker cfg now) stop_worker
                                   (workers d)))).

Definition fail_impossible_tasks (cfg : Config) :=
  sweep cfg (fun d =>
    inr (counted impossible_task (tasks d),
         set_tasks d (sql_update impossible_task fail_task (tasks d)))).

(** What the janitor process meets while it runs. *)
Record Run := mkRun {
  db : DB;
  now : Z;
  scripts : list script;     (* one per sweep, in call order *)
  cycles : nat               (* cleanup cycles completed so far *)
}.

Definition call (f : Z -> script -> DB -> res (option Z) * DB) (r : Run)
    : Run :=
  let (_, d) := f (now r) (hd [] (scripts r)) (db r) in
  mkRun d (now r) (tl (scripts r)) (cycles r).

(** [cleanup_cycle]: the four sweeps, none of which raises. *)
Definition cleanup_cycle (cfg : Config) (r : Run) : Run :=
  let r1 := call (release_stuck_tasks cfg) r in
  let r2 := call (release_stuck_proxies cfg) r1 in
  let r3 := call (mark_dead_workers cfg) r2 in
  let r4 := call (fun _ => fail_impossible_tasks cfg) r3 in
  mkRun (db r4) (now r4) (scripts r4) (S (cycles r4)).

(** The [while] of [main].  [waits] says, for each wait on the shutdown
    event, whether the event is set before [CLEANUP_INTERVAL] elapses; when
    the list runs out the event is set. *)
Fixpoint sweep_loop (cfg : Config) (waits : list bool) (r : Run) : Run :=
  let r' := cleanup_cycle cfg r in
  match waits with
  | false :: rest =>
      sweep_loop cfg rest
        (mkRun (db r') (now r' + CLEANUP_INTERVAL cfg) (scripts r')
               (cycles r'))
  | _ => r'
  end.

(** [main]: [init_pool] may raise, which ends the process before the loop;
    otherwise the loop is entered unless the shutdown event is already
    set. *)
Definition main (cfg : Config) (pool_fault : option exn)
    (shutdown_at_start : bool) (waits : list bool) (r : Run) : res Run :=
  match pool_fault with
  | Some e => Raise e
  | None =>
      if shutdown_at_start then Return r
      else Return (sweep_loop cfg waits r)
  end.

(** [WORKER_TIMEOUT <= PROXY_TIMEOUT <= TASK_TIMEOUT], the ordering under
    which a dead worker's leases are reclaimed no earlier than the worker is
    declared dead.  cleanup.py never evaluates it; it is defined here to
    state facts about configurations. *)
Definition timeouts_ordered (cfg : Config) : bool :=
  (WORKER_TIMEOUT cfg <=? PROXY_TIMEOUT cfg)
  && (PROXY_TIMEOUT cfg <=? TASK_TIMEOUT cfg).

(** The process from the loading of the module to the end of [main]. *)
Definition startup (environ : string -> option string)
    (pool_fault : option exn) (shutdown_at_start : bool)
    (waits : list bool) (r : Run) : res Run :=
  and_then (load_config environ) (fun cfg =>
    main cfg pool_fault shutdown_at_start waits r).

End Cleanup.

(* ------------------------------------------------------------------ *)
(** * Properties of databases and of coroutines *)

Module Invariants.
Import Store.

(** No row of the proxy [s] is blocked. *)
Definition unblocked (s : string) (d : DB) : Prop :=
  forall q, In q (proxies d) -> p_proxy q = s -> p_status q <> Blocked.

(** The coroutine [m] keeps the property [I] of the database, whether it
    returns or raises. *)
Definition keeps (I : DB -> Prop) {A : Type} (m : Worker.M A) : Prop :=
  forall s, I (Worker.db s) -> I (Worker.db (snd (m s))).

End Invariants.

(* ------------------------------------------------------------------ *)
(** * Concrete databases and inputs used by the examples *)

Module Samples.
Import Store.

Definition slot0 : string := "zamer_avito_worker:host:1:0".
Definition slot1 : string := "zamer_avito_worker:host:1:1".

(** Task 1 is leased to slot 0 (first attempt); task 2 waits. *)
Definition task1 : Task :=
  mkTask 1 300 Processing 1 5 (Some slot0) 10 (Some 50) None.
Definition task2 : Task :=
  mkTask 2 301 Pending 0 5 None 20 None None.

(** Proxy p1 is leased to slot 0; p2 is free. *)
Definition p1 : Proxy :=
  mkProxy 1 "p1:1000:u:x" Locked (Some slot0) (Some 40) None 1 0.
Definition p2 : Proxy :=
  mkProxy 2 "p2:1000:u:x" Available None None None 0 0.

Definition worker0 : WorkerRow := mkWorker slot0 Active 40 0 0 40.

Definition db0 : DB := mkDB [task1; task2] [p1; p2] [worker0] [].

(** The same database with p1 as the only proxy. *)
Definition db_one_proxy : DB := mkDB [task1; task2] [p1] [worker0] [].

(** A proxy that was flagged bad and holds no lease. *)
Definition p_blocked : Proxy :=
  mkProxy 7 "bad:1000:u:x" Blocked None None (Some 30) 4 2.
Definition db_blocked : DB := mkDB [] [p_blocked] [] [].

(** Two pending tasks created at the same second.  Task 1 was leased once
    and given back, so its current row version was written after the row
    of task 2 and comes after it in storage order. *)
Definition tie_a : Task := mkTask 2 501 Pending 0 5 None 10 None None.
Definition tie_b : Task := mkTask 1 500 Pending 1 5 None 10 None None.
Definition db_tie : DB := mkDB [tie_a; tie_b] [] [] [].

Definition lease1 : TaskLease := mkLease 1 300 1.

Definition no_content : Content :=
  mkContent None None "{}" None None None None None None None None.

(** What [handle_proxy_block] returns on a 403 page. *)
Definition blocked_403 : ResultDict :=
  mkResultDict 300 Error no_content (Some "proxy_blocked_http_403")
               None None true.

(** What [build_result] returns for a parsed card. *)
Definition parsed_card : ResultDict :=
  mkResultDict 300 Success
    (mkContent (Some "T300") None "{}" (Some 199900) None None None None
               None None None)
    None (Some slot0) (Some 1) false.

Definition down : exn := DbError "connection refused".

(** Slot 0 in the middle of its loop, with its browser up and p1 in hand. *)
Definition running (d : DB) (scs : list script) : Worker.Slot :=
  Worker.mkSlot d 100 scs [] [] [] [] true (Some "p1:1000:u:x").

(** A janitor configuration whose worker timeout exceeds both others. *)
Definition unordered : Cleanup.Config :=
  Cleanup.mkConfig "81.30.105.134" 5413 "zamer_avito_system" "admin"
                   "Password123" 600 300 900 60 10 5 10.

(** The environment that yields it. *)
Definition unordered_environ (name : string) : option string :=
  if String.eqb name "WORKER_TIMEOUT" then Some "900" else None.

Definition janitor0 : Cleanup.Run := Cleanup.mkRun db0 1000 [] 0.

(** Two free proxies. *)
Definition p3 : Proxy :=
  mkProxy 3 "p3:1000:u:x" Available None None None 0 0.
Definition db_two_free : DB := mkDB [] [p2; p3] [] [].

End Samples.

(* ------------------------------------------------------------------ *)
(** * Histories: the calls of all workers and of the janitor, in the order
      the database serves them *)

Module Histories.
Import Store.

(** One call into the database: the nine functions of db.py and the four
    sweeps of cleanup.py. *)
Inductive call : Type :=
| AcquireTask (locked : list Z) (worker : string)
| AcquireProxy (locked : list Z) (worker : string)
| ReleaseProxy (proxy_string : string)
| MarkProxyBlocked (proxy_string : string)
| SaveResult (r : ResultDict)
| MarkTaskCompleted (id : Z)
| IncrementTaskAttempts (id : Z)
| IncrementWorkerStats (worker : string) (success : bool)
| UpdateHeartbeat (worker : string)
| ReleaseStuckTasks
| ReleaseStuckProxies
| MarkDeadWorkers
| FailImpossibleTasks.

(** A call with the time at which it runs and the faults it meets. *)
Record event := mkEvent {
  ev_call : call;
  ev_now : Z;
  ev_script : script
}.

Section Run.
Variable cfg : Config.             (* the workers' configuration *)
Variable jcfg : Cleanup.Config.    (* the janitor's *)

(** The database after the call, whatever it returned or raised. *)
Definition run_call (c : call) (now : Z) (sc : script) (d : DB) : DB :=
  match c with
  | AcquireTask locked worker =>
      snd (acquire_task cfg locked worker now sc d)
  | AcquireProxy locked worker =>
      snd (acquire_proxy cfg locked worker now sc d)
  | ReleaseProxy p => snd (release_proxy cfg now p sc d)
  | MarkProxyBlocked p => snd (mark_proxy_blocked cfg p sc d)
  | SaveResult r => snd (save_result_to_db cfg r now sc d)
  | MarkTaskCompleted id => snd (mark_task_completed cfg now id sc d)
  | IncrementTaskAttempts id => snd (increment_task_attempts cfg id sc d)
  | IncrementWorkerStats worker success =>
      snd (increment_worker_stats cfg worker success sc d)
  | UpdateHeartbeat worker => snd (update_heartbeat cfg worker now sc d)
  | ReleaseStuckTasks => snd (Cleanup.release_stuck_tasks jcfg now sc d)
  | ReleaseStuckProxies => snd (Cleanup.release_stuck_proxies jcfg now sc d)
  | MarkDeadWorkers => snd (Cleanup.mark_dead_workers jcfg now sc d)
  | FailImpossibleTasks => snd (Cleanup.fail_impossible_tasks jcfg sc d)
  end.

Fixpoint run (h : list event) (d : DB) : DB :=
  match h with
  | [] => d
  | e :: rest => run rest (run_call (ev_call e) (ev_now e) (ev_script e) d)
  end.
End Run.

(** A leased task names its holder and the time of the lease; a pending
    task names neither. *)
Definition task_lease_ok (t : Task) : Prop :=
  (t_status t = Processing ->
   t_worker_id t <> None /\ t_last_attempt_at t <> None)
  /\ (t_status t = Pending ->
      t_worker_id t = None /\ t_last_attempt_at t = None).

(** A locked proxy names its holder and the time of the lease; an
    available proxy names neither. *)
Definition proxy_lease_ok (p : Proxy) : Prop :=
  (p_status p = Locked -> p_locked_by p <> None /\ p_locked_at p <> None)
  /\ (p_status p = Available ->
      p_locked_by p = None /\ p_locked_at p = None).

Definition leases_ok (d : DB) : Prop :=
  Forall task_lease_ok (tasks d) /\ Forall proxy_lease_ok (proxies d).

(** The same task later: its identity is kept and its attempts have not
    gone down. *)
Definition task_later (t t' : Task) : Prop :=
  t_id t' = t_id t
  /\ t_item_id t' = t_item_id t
  /\ t_max_attempts t' = t_max_attempts t
  /\ t_created_at t' = t_created_at t
  /\ t_attempts t <= t_attempts t'.

(** The same proxy later: its identity is kept and its counters have not
    gone down. *)
Definition proxy_later (p p' : Proxy) : Prop :=
  p_id p' = p_id p
  /\ p_proxy p' = p_proxy p
  /\ p_uses_count p <= p_uses_count p'
  /\ p_blocks_count p <= p_blocks_count p'.

(** The attempts of a task are within its budget, strictly so while it
    waits to be leased. *)
Definition attempts_ok (t : Task) : Prop :=
  t_attempts t <= t_max_attempts t
  /\ (t_status t = Pending -> t_attempts t < t_max_attempts t).

(** The history has no [ReleaseStuckTasks]. *)
Definition no_reclaim (h : list event) : Prop :=
  Forall (fun e => ev_call e <> ReleaseStuckTasks) h.

End Histories.

(* ------------------------------------------------------------------ *)
(** * Coroutines that cannot raise *)

Module Behaviour.

(** From every slot the coroutine returns a value. *)
Definition never_raises {A : Type} (m : Worker.M A) : Prop :=
  forall s, exists a, fst (m s) = Return a.

(** A slot as [worker_loop] finds it: nothing in hand, nothing logged. *)
Definition fresh_slot (d : Store.DB) (now : Z) (scs : list Store.script)
    (launches : list (option exn)) (tlocks plocks : list Z) : Worker.Slot :=
  Worker.mkSlot d now scs launches tlocks plocks [] false None.

End Behaviour.

(* ------------------------------------------------------------------ *)
(** * What the janitor leaves alone *)

Module Settled.
Import Store.

(** The same task after the janitor passed: attempts and identity kept,
    and a completed or failed task kept whole. *)
Definition task_settled (t t' : Task) : Prop :=
  t_id t' = t_id t
  /\ t_item_id t' = t_item_id t
  /\ t_attempts t' = t_attempts t
  /\ t_max_attempts t' = t_max_attempts t
  /\ t_created_at t' = t_created_at t
  /\ t_completed_at t' = t_completed_at t
  /\ (t_status t = Completed \/ t_status t = Failed -> t' = t).

(** The same proxy after the janitor passed: counters and identity kept,
    and a proxy that was not locked kept whole. *)
Definition proxy_settled (p p' : Proxy) : Prop :=
  p_id p' = p_id p
  /\ p_proxy p' = p_proxy p
  /\ p_uses_count p' = p_uses_count p
  /\ p_blocks_count p' = p_blocks_count p
  /\ (p_status p <> Locked -> p' = p).

(** Nothing for a sweep at time [now] to do. *)
Definition swept (cfg : Cleanup.Config) (now : Z) (d : DB) : Prop :=
  Forall (fun t => Cleanup.stuck_task cfg now t = false
                   /\ Cleanup.impossible_task t = false) (tasks d)
  /\ Forall (fun p => Cleanup.stuck_proxy cfg now p = false) (proxies d)
  /\ Forall (fun w => Cleanup.dead_worker cfg now w = false) (workers d).

End Settled.

(* ------------------------------------------------------------------ *)
(** * The page state machine: worker/src/processor.py

    The browser page, the detectors, the CAPTCHA resolver and the card
    parser belong to playwright and avito_library: what they answer on one
    task is an input of the model. *)

Module Processor.
Import Store.

(** The detector ids of avito_library in [PRIORITY_ORDER], taken to be
    pairwise distinct strings, and any other value [detect_page_state] may
    return. *)
Inductive detector : Type :=
| PROXY_BLOCK_403
| PROXY_AUTH
| PROXY_BLOCK_429
| CAPTCHA
| REMOVED
| SELLER_PROFILE
| CATALOG
| CARD_FOUND
| CONTINUE_BUTTON
| OtherState (text : string).

(** What the collaborators do while one task is processed, call by call. *)
Record Page (Card : Type) := mkPage {
  goto : option exn;              (* [page.goto] raises *)
  first_detect : res detector;    (* [detect_page_state] in [process_item] *)
  captcha : res bool;             (* [resolve_captcha_flow]: solved or not *)
  second_detect : res detector;   (* [detect_page_state] in [handle_captcha] *)
  content : option exn;           (* [page.content] raises *)
  parsed : res Card               (* [parse_card] *)
}.
Arguments mkPage {Card}.
Arguments goto {Card}.
Arguments first_detect {Card}.
Arguments captcha {Card}.
Arguments second_detect {Card}.
Arguments content {Card}.
Arguments parsed {Card}.

(** A coroutine of processor.py: the events it logs, oldest first, and what
    it returns or raises. *)
Definition P (A : Type) : Type := list string * res A.

Definition pret {A} (a : A) : P A := ([], Return a).
Definition praise {A} (e : exn) : P A := ([], Raise e).
Definition plog (event : string) : P unit := ([event], Return tt).
Definition pbind {A B} (m : P A) (k : A -> P B) : P B :=
  match m with
  | (l, Return a) => let (l', r) := k a in ((l ++ l')%list, r)
  | (l, Raise e) => (l, Raise e)
  end.
Definition plift {A} (r : res A) : P A := ([], r).
Definition pfail (f : option exn) : P unit :=
  match f with Some e => ([], Raise e) | None => ([], Return tt) end.

Section Machine.
Variable Card : Type.
(** The text of a detector id, as the f-strings print it. *)
Variable id_text : detector -> string.
(** [isinstance(exc, DetectionError)] and [isinstance(exc,
    CardParsingError)], two classes of avito_library. *)
Variable is_detection_error : exn -> bool.
Variable is_card_parsing_error : exn -> bool.
(** [card.item_id]. *)
Variable card_item_id : Card -> option Z.
(** The columns [build_result] computes from the card, [_normalize_price]
    and [_to_int] included, with [characteristics] as [json.dumps] prints
    it; an exception that escapes them is raised. *)
Variable card_columns : Card -> res Content.

Variable worker_id : string.

(** The columns of a dictionary that has no card. *)
Definition no_columns : Content :=
  mkContent None None "{}" None None None None None None None None.

(** An error dictionary: ['item_id'], ['status'], ['failure_reason'] and
    ['rotate_proxy'] only. *)
Definition error_dict (task : TaskLease) (reason : string) (rotate : bool)
    : ResultDict :=
  mkResultDict (item_id task) Error no_columns (Some reason) None None
               rotate.

Definition handle_removed (task : TaskLease) : P ResultDict :=
  pbind (plog "task_missing") (fun _ =>
  pret (mkResultDict (item_id task) Unavailable no_columns None
                     (Some worker_id) (Some (attempts task)) false)).

Definition handle_proxy_block (task : TaskLease) (state : detector)
    : P ResultDict :=
  let reason := match state with
                | PROXY_BLOCK_403 => "http_403"
                | _ => "http_407"
                end in
  pbind (plog "proxy_blocked") (fun _ =>
  pret (error_dict task ("proxy_blocked_" ++ reason) true)).

Definition handle_unexpected (task : TaskLease) (state : detector)
    : P ResultDict :=
  pbind (plog "unexpected_state") (fun _ =>
  pret (error_dict task ("unexpected_state_" ++ id_text state) false)).

Definition build_result (task : TaskLease) (card : Card)
    (status : result_status) : P ResultDict :=
  pbind (plift (card_columns card)) (fun columns =>
  pret (mkResultDict (item_id task) status columns None (Some worker_id)
                     (Some (attempts task)) false)).

(** [card.item_id and card.item_id != task["item_id"]]. *)
Definition item_mismatch (task : TaskLease) (card : Card) : bool :=
  match card_item_id card with
  | Some i => negb (i =? 0) && negb (i =? item_id task)
  | None => false
  end.

Definition handle_card_found (page : Page Card) (task : TaskLease)
    : P ResultDict :=
  pbind (pfail (content page)) (fun _ =>
  match parsed page with
  | Raise e =>
      if is_card_parsing_error e
      then pbind (plog "task_parse_error") (fun _ =>
           pret (error_dict task "parse_card_error" false))
      else praise e
  | Return card =>
      pbind (if item_mismatch task card then plog "task_item_mismatch"
             else pret tt) (fun _ =>
      build_result task card Success)
  end).

Definition handle_captcha (page : Page Card) (task : TaskLease)
    : P ResultDict :=
  pbind (plift (captcha page)) (fun solved =>
  if negb solved
  then pbind (plog "captcha_failed") (fun _ =>
       pret (error_dict task "captcha_failed" true))
  else
    pbind (plift (second_detect page)) (fun state =>
    pbind (plog "captcha_resolved") (fun _ =>
    match state with
    | CARD_FOUND => handle_card_found page task
    | REMOVED => handle_removed task
    | _ => pret (error_dict task
                   ("unexpected_after_captcha_" ++ id_text state) false)
    end))).

Definition process_item (page : Page Card) (task : TaskLease)
    : P ResultDict :=
  pbind (plog "task_start") (fun _ =>
  pbind (pfail (goto page)) (fun _ =>
  match first_detect page with
  | Raise e =>
      if is_detection_error e
      then pbind (plog "detection_error") (fun _ =>
           pret (error_dict task "detection_error" true))
      else praise e
  | Return state =>
      pbind (plog "worker_detect_state") (fun _ =>
      match state with
      | CAPTCHA | CONTINUE_BUTTON | PROXY_BLOCK_429 =>
          handle_captcha page task
      | PROXY_BLOCK_403 | PROXY_AUTH => handle_proxy_block task state
      | CARD_FOUND => handle_card_found page task
      | REMOVED => handle_removed task
      | SELLER_PROFILE | CATALOG => handle_unexpected task state
      | OtherState _ =>
          pret (error_dict task ("unknown_state_" ++ id_text state) true)
      end)
  end)).

(** The page is a card that parses and converts: directly, or after a
    solved CAPTCHA. *)
Definition reaches_card (page : Page Card) : Prop :=
  goto page = None
  /\ (first_detect page = Return CARD_FOUND
      \/ ((first_detect page = Return CAPTCHA
           \/ first_detect page = Return CONTINUE_BUTTON
           \/ first_detect page = Return PROXY_BLOCK_429)
          /\ captcha page = Return true
          /\ second_detect page = Return CARD_FOUND))
  /\ content page = None
  /\ exists card columns,
       parsed page = Return card /\ card_columns card = Return columns.

End Machine.

End Processor.

(* ------------------------------------------------------------------ *)
(** * The loaders: cli/upload_proxies.py *)

Module Loader.
Import Store.

(** [line.startswith('#')]. *)
Definition is_comment (line : string) : bool :=
  match line with
  | String c _ => Ascii.eqb c "#"
  | EmptyString => false
  end.

(** What [read_proxies] has gathered: the proxies kept, in file order, and
    its two counters. *)
Record Reading := mkReading {
  kept : list string;
  invalid_count : nat;
  comment_count : nat
}.

(** The loop of [read_proxies] over the lines of the file. *)
Fixpoint read_lines (lines : list string) (acc : Reading) : Reading :=
  match lines with
  | [] => acc
  | raw :: rest =>
      let line := Proxies.strip raw in
      if negb (Proxies.truthy line) then read_lines rest acc
      else if is_comment line
      then read_lines rest
             (mkReading (kept acc) (invalid_count acc)
                        (S (comment_count acc)))
      else if Proxies.validate_proxy_format line
      then read_lines rest
             (mkReading (kept acc ++ [line]) (invalid_count acc)
                        (comment_count acc))
      else read_lines rest
             (mkReading (kept acc) (S (invalid_count acc))
                        (comment_count acc))
  end.

Definition read_proxies (lines : list string) : Reading :=
  read_lines lines (mkReading [] 0 0).

Section Upload.
(** Modelled from the spec: sql/init.sql, which holds the column defaults
    and the id sequence of [proxies], is not among the sources.  The row an
    INSERT creates for a proxy string, in a table that holds [rows], is a
    parameter. *)
Variable new_row : string -> list Proxy -> Proxy.

Definition has_proxy (s : string) (rows : list Proxy) : bool :=
  existsb (fun p => String.eqb (p_proxy p) s) rows.

(** [INSERT INTO proxies (proxy) VALUES (%s) ON CONFLICT (proxy) DO
    NOTHING]. *)
Definition insert_or_skip (s : string) (rows : list Proxy) : list Proxy :=
  if has_proxy s rows then rows else rows ++ [new_row s rows].

(** [upload_append]: the table after the commit, and the pair (added,
    skipped) computed from the two counts. *)
Definition upload_append (input : list string) (rows : list Proxy)
    : list Proxy * (Z * Z) :=
  let count_before := Z.of_nat (List.length rows) in
  let rows' := fold_left (fun t s => insert_or_skip s t) input rows in
  let count_after := Z.of_nat (List.length rows') in
  let added := count_after - count_before in
  let skipped := Z.of_nat (List.length input) - added in
  (rows', (added, skipped)).

(** The loop of INSERTs of [upload_overwrite]; the unique index that
    [ON CONFLICT (proxy)] relies on refuses a string that is already
    there. *)
Fixpoint insert_all (input : list string) (rows : list Proxy)
    : res (list Proxy) :=
  match input with
  | [] => Return rows
  | s :: rest =>
      if has_proxy s rows then Raise (DbError "unique_violation")
      else insert_all rest (rows ++ [new_row s rows])
  end.

(** [upload_overwrite] inside [main]: DELETE, INSERTs, commit.  When an
    INSERT raises, [main] returns [False] and closes the connection
    without a commit, so the table is as it was. *)
Definition upload_overwrite (input : list string) (rows : list Proxy)
    : list Proxy * res Z :=
  match insert_all input [] with
  | Return rows' => (rows', Return (Z.of_nat (List.length input)))
  | Raise e => (rows, Raise e)
  end.

End Upload.

End Loader.

(* ------------------------------------------------------------------ *)
(** * Log lines: worker/src/logging_utils.py *)

Module Logging.

(** A value passed in [extra]: [None], a bool, or any other value (a
    string, a number, the text of an exception), given by the text [str]
    prints for it. *)
Inductive value : Type :=
| VNone
| VBool (b : bool)
| VStr (s : string).

(** [_stringify]. *)
Definition stringify (v : value) : string :=
  match v with
  | VNone => "null"
  | VBool true => "true"
  | VBool false => "false"
  | VStr s => s
  end.

(** [" ".join(parts)]. *)
Fixpoint join (sep : string) (parts : list string) : string :=
  match parts with
  | [] => EmptyString
  | [p] => p
  | p :: rest => (p ++ sep ++ join sep rest)%string
  end.

(** The list [parts] of [make_log_line]; [item_id] is given as [str]
    prints it. *)
Definition log_parts (event : string) (item_id : option string)
    (proxy : option string) (extra : list (string * value)) : list string :=
  [("event=" ++ event)%string]
  ++ match item_id with
     | Some i => [("item_id=" ++ i)%string]
     | None => []
     end
  ++ match proxy with
     | Some p => if Proxies.truthy p then [("proxy=" ++ p)%string] else []
     | None => []
     end
  ++ map (fun kv => (fst kv ++ "=" ++ stringify (snd kv))%string) extra.

Definition make_log_line (event : string) (item_id : option string)
    (proxy : option string) (extra : list (string * value)) : string :=
  join " " (log_parts event item_id proxy extra).

(** The string holds no space. *)
Fixpoint spaceless (s : string) : bool :=
  match s with
  | EmptyString => true
  | String c rest => negb (Ascii.eqb c " ") && spaceless rest
  end.

End Logging.

(* ------------------------------------------------------------------ *)
(** * Counting separators; the items loader: cli/upload_tasks.py *)

Module Fields.

(** The number of occurrences of a character in a string. *)
Fixpoint count_char (c : ascii) (s : string) : nat :=
  match s with
  | EmptyString => O
  | String x rest =>
      if Ascii.eqb x c then S (count_char c rest) else count_char c rest
  end.

(** What [read_items] has gathered: the item ids kept, in file order, and
    its counter of refused lines. *)
Record Items := mkItems {
  items : list Z;
  invalid_items : nat
}.

(** The loop of [read_items] over the lines of the file. *)
Fixpoint read_item_lines (lines : list string) (acc : Items) : Items :=
  match lines with
  | [] => acc
  | raw :: rest =>
      let line := Proxies.strip raw in
      if negb (Proxies.truthy line) then read_item_lines rest acc
      else
        match Proxies.py_int line with
        | Some item_id =>
            read_item_lines rest
              (mkItems (items acc ++ [item_id]) (invalid_items acc))
        | None =>
            read_item_lines rest
              (mkItems (items acc) (S (invalid_items acc)))
        end
  end.

Definition read_items (lines : list string) : Items :=
  read_item_lines lines (mkItems [] 0).

End Fields.

(* ------------------------------------------------------------------ *)
(** * Facts about the retry loop *)

Import Store.
Local Open Scope list_scope.

Section RetryFacts.
Context {A : Type}.
Variable N : Z.
Variable on_exhausted : exn -> res A.
Variable fallthrough : A.
Variable body : stmt A.

(** After fewer than [N] failed attempts, an attempt whose statement goes
    through ends the loop with the statement's value and effect. *)
Lemma retry_from_succeeds (pre : list exn) :
  forall (fuel : nat) (attempt : Z) (rest : script) (d d' : DB) (a : A),
    (List.length pre < fuel)%nat ->
    attempt + Z.of_nat fuel = N ->
    body d = inr (a, d') ->
    retry_from N on_exhausted fallthrough body fuel attempt
               (map Some pre ++ None :: rest) d
    = (Return a, d').
Proof.
  induction pre as [|e pre IH]; intros fuel attempt rest d d' a Hlen Hsum Hbody.
  - destruct fuel as [|fuel]; [simpl in Hlen; lia|].
    simpl. now rewrite Hbody.
  - destruct fuel as [|fuel]; [simpl in Hlen; lia|].
    simpl in Hlen. simpl. unfold handler.
    destruct (attempt <? N - 1) eqn:Hlt.
    + apply IH; [lia | lia | assumption].
    + apply Z.ltb_ge in Hlt. lia.
Qed.

Lemma retry_succeeds (pre : list exn) (rest : script) (d d' : DB) (a : A) :
  Z.of_nat (List.length pre) < N ->
  body d = inr (a, d') ->
  retry N on_exhausted fallthrough body (map Some pre ++ None :: rest) d
  = (Return a, d').
Proof.
  intros Hlen Hbody. unfold retry.
  apply retry_from_succeeds; [lia | lia | assumption].
Qed.

(** When each of the [N] attempts raises, the handler of the last one
    decides, and the database is as it was. *)
Lemma retry_from_exhausted (es : list exn) :
  forall (fuel : nat) (attempt : Z) (rest : script) (d : DB) (e0 : exn),
    es <> [] ->
    List.length es = fuel ->
    attempt + Z.of_nat fuel = N ->
    retry_from N on_exhausted fallthrough body fuel attempt
               (map Some es ++ rest) d
    = (on_exhausted (last es e0), d).
Proof.
  induction es as [|e es IH]; intros fuel attempt rest d e0 Hne Hlen Hsum.
  - congruence.
  - destruct fuel as [|fuel]; [discriminate|].
    simpl in Hlen. injection Hlen as Hlen.
    cbn [map app retry_from tl]. unfold handler.
    destruct es as [|e' es'].
    + simpl in Hlen. subst fuel.
      replace (attempt <? N - 1) with false
        by (symmetry; apply Z.ltb_ge; lia).
      reflexivity.
    + replace (attempt <? N - 1) with true
        by (symmetry; apply Z.ltb_lt; simpl in Hlen; lia).
      rewrite (IH fuel (attempt + 1) rest d e0);
        [reflexivity | discriminate | assumption | lia].
Qed.

Lemma retry_exhausted (es : list exn) (rest : script) (d : DB) (e0 : exn) :
  es <> [] ->
  Z.of_nat (List.length es) = N ->
  retry N on_exhausted fallthrough body (map Some es ++ rest) d
  = (on_exhausted (last es e0), d).
Proof.
  intros Hne Hlen. unfold retry.
  apply retry_from_exhausted; [assumption | lia | lia].
Qed.

End RetryFacts.

(** A statement that cannot raise, run by a function that returns a bool. *)
Lemma retry_bool_exec (cfg : Config) (f : DB -> DB) (pre : list exn)
    (rest : script) (d : DB) :
  Z.of_nat (List.length pre) < DB_RETRY_ATTEMPTS cfg ->
  retry_bool cfg (exec f) (map Some pre ++ None :: rest) d
  = (Return (Some true), f d).
Proof.
  intro H. unfold retry_bool. now apply retry_succeeds.
Qed.

Lemma retry_bool_exhausted (cfg : Config) (body : stmt (option bool))
    (es : list exn) (rest : script) (d : DB) :
  es <> [] ->
  Z.of_nat (List.length es) = DB_RETRY_ATTEMPTS cfg ->
  retry_bool cfg body (map Some es ++ rest) d = (Return (Some false), d).
Proof.
  intros Hne H. unfold retry_bool.
  now rewrite (retry_exhausted _ _ _ _ es rest d (DbError "") Hne H).
Qed.

(** ** Rows of an UPDATE, position by position *)

Lemma sql_update_nth {R : Type} (cond : R -> bool) (set : R -> R)
    (rows : list R) (i : nat) :
  nth_error (sql_update cond set rows) i
  = option_map (fun r => if cond r then set r else r) (nth_error rows i).
Proof.
  unfold sql_update. apply nth_error_map.
Qed.

Lemma sql_update_length {R : Type} (cond : R -> bool) (set : R -> R)
    (rows : list R) :
  List.length (sql_update cond set rows) = List.length rows.
Proof.
  unfold sql_update. apply length_map.
Qed.

(* ------------------------------------------------------------------ *)
(** * The store operations, row by row *)

(** C8: [increment_task_attempts] (releaseTask) runs its UPDATE once; the
    row with the given id loses [worker_id] and [last_attempt_at] and
    becomes [failed] when its attempts, already incremented at lease time,
    have reached [max_attempts], and [pending] otherwise; the CASE is part
    of that one statement; every other row and table is untouched. *)
Theorem increment_task_attempts_gives_back (cfg : Config) (id : Z)
    (pre : list exn) (rest : script) (d : DB) :
  Z.of_nat (List.length pre) < DB_RETRY_ATTEMPTS cfg ->
  let out := increment_task_attempts cfg id (map Some pre ++ None :: rest) d in
  fst out = Return (Some true)
  /\ snd out = increment_task_attempts_stmt id d
  /\ proxies (snd out) = proxies d
  /\ workers (snd out) = workers d
  /\ results (snd out) = results d
  /\ List.length (tasks (snd out)) = List.length (tasks d)
  /\ forall (i : nat) (t : Task),
       nth_error (tasks d) i = Some t ->
       exists t',
         nth_error (tasks (snd out)) i = Some t'
         /\ (t_id t <> id -> t' = t)
         /\ (t_id t = id ->
             t_worker_id t' = None
             /\ t_last_attempt_at t' = None
             /\ (t_max_attempts t <= t_attempts t -> t_status t' = Failed)
             /\ (t_attempts t < t_max_attempts t -> t_status t' = Pending)
             /\ t_id t' = t_id t
             /\ t_item_id t' = t_item_id t
             /\ t_attempts t' = t_attempts t
             /\ t_max_attempts t' = t_max_attempts t
             /\ t_created_at t' = t_created_at t
             /\ t_completed_at t' = t_completed_at t).
Proof.
  intros Hpre out. subst out. unfold increment_task_attempts.
  rewrite retry_bool_exec by assumption.
  cbn [fst snd]. unfold increment_task_attempts_stmt at 2 3 4 5 6.
  cbn [proxies workers results tasks set_tasks].
  repeat split; try reflexivity.
  - apply sql_update_length.
  - intros i t Hi.
    unfold increment_task_attempts_stmt. cbn [tasks set_tasks].
    rewrite sql_update_nth, Hi. cbn [option_map].
    eexists. split; [reflexivity|].
    destruct (Z.eqb_spec (t_id t) id) as [Heq|Hne]; split; intro H;
      try contradiction; try reflexivity.
    unfold give_back_task; cbn.
    repeat split.
    + intro Hge. destruct (Z.geb_spec (t_attempts t) (t_max_attempts t));
        [reflexivity | lia].
    + intro Hlt. destruct (Z.geb_spec (t_attempts t) (t_max_attempts t));
        [lia | reflexivity].
Qed.

Lemma increment_task_attempts_gives_back_witness :
  fst (increment_task_attempts default_config 1
         (map Some [Samples.down] ++ None :: []) Samples.db0)
  = Return (Some true).
Proof.
  refine (proj1 (increment_task_attempts_gives_back default_config 1
                   [Samples.down] [] Samples.db0 _)).
  simpl. lia.
Defined.

(** C3, as the code has it: [release_proxy] has no condition on the status.
    Every row with the given proxy string, whatever its status (locked,
    available or blocked), becomes [available] with [locked_by] and
    [locked_at] cleared and [last_used_at] set to now; its counters and id
    are kept; every other row and table is untouched. *)
Theorem release_proxy_ignores_status (cfg : Config) (now : Z) (s : string)
    (pre : list exn) (rest : script) (d : DB) :
  Z.of_nat (List.length pre) < DB_RETRY_ATTEMPTS cfg ->
  let out := release_proxy cfg now s (map Some pre ++ None :: rest) d in
  fst out = Return (Some true)
  /\ tasks (snd out) = tasks d
  /\ workers (snd out) = workers d
  /\ results (snd out) = results d
  /\ List.length (proxies (snd out)) = List.length (proxies d)
  /\ forall (i : nat) (p : Proxy),
       nth_error (proxies d) i = Some p ->
       exists p',
         nth_error (proxies (snd out)) i = Some p'
         /\ (p_proxy p <> s -> p' = p)
         /\ (p_proxy p = s ->
             p_status p' = Available
             /\ p_locked_by p' = None
             /\ p_locked_at p' = None
             /\ p_last_used_at p' = Some now
             /\ p_id p' = p_id p
             /\ p_proxy p' = p_proxy p
             /\ p_uses_count p' = p_uses_count p
             /\ p_blocks_count p' = p_blocks_count p).
Proof.
  intros Hpre out. subst out. unfold release_proxy.
  rewrite retry_bool_exec by assumption.
  cbn [fst snd]. unfold release_proxy_stmt.
  cbn [proxies workers results tasks set_proxies].
  repeat split; try reflexivity.
  - apply sql_update_length.
  - intros i p Hi. rewrite sql_update_nth, Hi. cbn [option_map].
    eexists. split; [reflexivity|].
    destruct (String.eqb_spec (p_proxy p) s) as [Heq|Hne]; split; intro H;
      try contradiction; try reflexivity.
    unfold free_proxy; cbn. repeat split.
Qed.

Lemma release_proxy_ignores_status_witness :
  fst (release_proxy default_config 100 "bad:1000:u:x"
         (map Some [Samples.down] ++ None :: []) Samples.db_blocked)
  = Return (Some true).
Proof.
  refine (proj1 (release_proxy_ignores_status default_config 100
                   "bad:1000:u:x" [Samples.down] [] Samples.db_blocked _)).
  simpl. lia.
Defined.

(** C3 fails as stated: a blocked proxy does not stay as it was under
    [release_proxy]; its row is rewritten to [available]. *)
Lemma release_proxy_rewrites_blocked :
  p_status Samples.p_blocked = Blocked
  /\ proxies (snd (release_proxy default_config 100 "bad:1000:u:x" []
                     Samples.db_blocked))
     = [mkProxy 7 "bad:1000:u:x" Available None None (Some 100) 4 2]
  /\ proxies (snd (release_proxy default_config 100 "bad:1000:u:x" []
                     Samples.db_blocked))
     <> proxies Samples.db_blocked.
Proof.
  split; [reflexivity|]. split; [reflexivity|].
  vm_compute. discriminate.
Qed.

(** C5, as the code has it: [mark_task_completed] sets [status] to
    [completed] and [completed_at] to now for the row with the given id and
    writes no other column: [worker_id] keeps the lease holder. *)
Theorem mark_task_completed_keeps_worker (cfg : Config) (now : Z) (id : Z)
    (pre : list exn) (rest : script) (d : DB) :
  Z.of_nat (List.length pre) < DB_RETRY_ATTEMPTS cfg ->
  let out := mark_task_completed cfg now id (map Some pre ++ None :: rest) d in
  fst out = Return (Some true)
  /\ proxies (snd out) = proxies d
  /\ workers (snd out) = workers d
  /\ results (snd out) = results d
  /\ List.length (tasks (snd out)) = List.length (tasks d)
  /\ forall (i : nat) (t : Task),
       nth_error (tasks d) i = Some t ->
       exists t',
         nth_error (tasks (snd out)) i = Some t'
         /\ (t_id t <> id -> t' = t)
         /\ (t_id t = id ->
             t_status t' = Completed
             /\ t_completed_at t' = Some now
             /\ t_worker_id t' = t_worker_id t
             /\ t_last_attempt_at t' = t_last_attempt_at t
             /\ t_id t' = t_id t
             /\ t_item_id t' = t_item_id t
             /\ t_attempts t' = t_attempts t
             /\ t_max_attempts t' = t_max_attempts t
             /\ t_created_at t' = t_created_at t).
Proof.
  intros Hpre out. subst out. unfold mark_task_completed.
  rewrite retry_bool_exec by assumption.
  cbn [fst snd]. unfold mark_task_completed_stmt.
  cbn [proxies workers results tasks set_tasks].
  repeat split; try reflexivity.
  - apply sql_update_length.
  - intros i t Hi. rewrite sql_update_nth, Hi. cbn [option_map].
    eexists. split; [reflexivity|].
    destruct (Z.eqb_spec (t_id t) id) as [Heq|Hne]; split; intro H;
      try contradiction; try reflexivity.
    unfold complete_task; cbn. repeat split.
Qed.

Lemma mark_task_completed_keeps_worker_witness :
  fst (mark_task_completed default_config 100 1
         (map Some [Samples.down] ++ None :: []) Samples.db0)
  = Return (Some true).
Proof.
  refine (proj1 (mark_task_completed_keeps_worker default_config 100 1
                   [Samples.down] [] Samples.db0 _)).
  simpl. lia.
Defined.

(** C5 fails as stated: after [mark_task_completed] the task is completed
    and still names its lease holder. *)
Lemma mark_task_completed_leaves_holder :
  option_map (fun t => (t_status t, t_worker_id t))
    (find_task 1 (snd (mark_task_completed default_config 100 1 []
                         Samples.db0)))
  = Some (Completed, Some Samples.slot0).
Proof. reflexivity. Qed.




(* ------------------------------------------------------------------ *)
(** * When the retry budget is exhausted *)

Section LateFacts.
Context {A : Type}.
Variable N : Z.
Variable on_exhausted : exn -> res A.
Variable fallthrough : A.
Variable body : stmt A.

(** On faults that all strike before the statement, the loop with both
    kinds of fault is [retry]. *)
Lemma late_retry_from_refused (fuel : nat) :
  forall (attempt : Z) (sc : script) (d : DB),
    late_retry_from N on_exhausted fallthrough body fuel attempt
                    (refused sc) d
    = retry_from N on_exhausted fallthrough body fuel attempt sc d.
Proof.
  induction fuel as [|fuel IH]; intros attempt sc d; [reflexivity|].
  cbn [late_retry_from retry_from].
  destruct sc as [|[e|] sc];
    cbn [refused map option_map hd tl attempt_outcome].
  - destruct (body d) as [e|[a d']]; [|reflexivity].
    destruct (handler N on_exhausted attempt e); [reflexivity|].
    apply (IH (attempt + 1) [] d).
  - destruct (handler N on_exhausted attempt e); [reflexivity|].
    apply IH.
  - destruct (body d) as [e|[a d']]; [|reflexivity].
    destruct (handler N on_exhausted attempt e); [reflexivity|].
    apply IH.
Qed.

Lemma late_retry_refused (sc : script) (d : DB) :
  late_retry N on_exhausted fallthrough body (refused sc) d
  = retry N on_exhausted fallthrough body sc d.
Proof. apply late_retry_from_refused. Qed.

(** When each of the [N] attempts fails, before its statement or after
    it, the handler of the last one decides. *)
Lemma late_retry_from_exhausted (fs : list fault) :
  forall (fuel : nat) (attempt : Z) (rest : faults) (d : DB) (f0 : fault),
    fs <> [] ->
    List.length fs = fuel ->
    attempt + Z.of_nat fuel = N ->
    fst (late_retry_from N on_exhausted fallthrough body fuel attempt
                         (map Some fs ++ rest) d)
    = on_exhausted (raised (last fs f0)).
Proof.
  induction fs as [|f fs IH]; intros fuel attempt rest d f0 Hne Hlen Hsum.
  - congruence.
  - destruct fuel as [|fuel]; [discriminate|].
    simpl in Hlen. injection Hlen as Hlen.
    cbn [map app late_retry_from hd tl].
    assert (exists d1, attempt_outcome body (Some f) d = (inl (raised f), d1))
      as [d1 ->].
    { destruct f as [e|e]; cbn [attempt_outcome raised].
      - now exists d.
      - destruct (body d) as [e'|[a d']]; eexists; reflexivity. }
    unfold handler.
    destruct fs as [|f' fs'].
    + simpl in Hlen. subst fuel.
      replace (attempt <? N - 1) with false
        by (symmetry; apply Z.ltb_ge; lia).
      reflexivity.
    + replace (attempt <? N - 1) with true
        by (symmetry; apply Z.ltb_lt; simpl in Hlen; lia).
      rewrite (IH fuel (attempt + 1) rest d1 f0);
        [reflexivity | discriminate | assumption | lia].
Qed.

Lemma late_retry_exhausted (fs : list fault) (rest : faults) (d : DB)
    (f0 : fault) :
  fs <> [] ->
  Z.of_nat (List.length fs) = N ->
  fst (late_retry N on_exhausted fallthrough body (map Some fs ++ rest) d)
  = on_exhausted (raised (last fs f0)).
Proof.
  intros Hne Hlen. unfold late_retry.
  apply late_retry_from_exhausted; [assumption | lia | lia].
Qed.

End LateFacts.

(** The functions of db.py as modelled on scripts are the functions on
    faults of both kinds, met with faults before the statement only. *)
Lemma late_on_scripts (cfg : Config) (sc : script) (d : DB)
    (locked : list Z) (worker p : string) (now id : Z) (success : bool)
    (r : ResultDict) :
  Late.acquire_task cfg locked worker now (refused sc) d
  = acquire_task cfg locked worker now sc d
  /\ Late.acquire_proxy cfg locked worker now (refused sc) d
     = acquire_proxy cfg locked worker now sc d
  /\ Late.release_proxy cfg now p (refused sc) d
     = release_proxy cfg now p sc d
  /\ Late.mark_proxy_blocked cfg p (refused sc) d
     = mark_proxy_blocked cfg p sc d
  /\ Late.mark_task_completed cfg now id (refused sc) d
     = mark_task_completed cfg now id sc d
  /\ Late.increment_task_attempts cfg id (refused sc) d
     = increment_task_attempts cfg id sc d
  /\ Late.increment_worker_stats cfg worker success (refused sc) d
     = increment_worker_stats cfg worker success sc d
  /\ Late.save_result_to_db cfg r now (refused sc) d
     = save_result_to_db cfg r now sc d
  /\ Late.update_heartbeat cfg worker now (refused sc) d
     = update_heartbeat cfg worker now sc d.
Proof.
  repeat split; apply late_retry_refused.
Qed.

(** An attempt lost after its statement has changed the database: with
    five attempts, each of which loses its connection on release,
    [increment_worker_stats] returns [False] and has counted the task five
    times. *)
Lemma lost_attempts_commit :
  let out := Late.increment_worker_stats default_config Samples.slot0 true
               (repeat (Some (Lost Samples.down)) 5) Samples.db0 in
  fst out = Return (Some false)
  /\ option_map w_tasks_processed (find_worker Samples.slot0 Samples.db0)
     = Some 0
  /\ option_map w_tasks_processed (find_worker Samples.slot0 (snd out))
     = Some 5.
Proof. repeat split. Qed.

Lemma last_raised (fs : list fault) (f0 : fault) :
  last (map raised fs) (raised f0) = raised (last fs f0).
Proof.
  induction fs as [|f fs IH]; [reflexivity|].
  destruct fs as [|f' fs']; [reflexivity|].
  exact IH.
Qed.

(** C4, as the code has it: when each of the [DB_RETRY_ATTEMPTS] attempts
    fails, whether [get_connection] or the statement raises or
    [pool.release] raises after the statement, [acquire_task] and
    [acquire_proxy] re-raise the last exception; [release_proxy],
    [mark_proxy_blocked], [mark_task_completed],
    [increment_task_attempts], [increment_worker_stats],
    [save_result_to_db] and [update_heartbeat] return [False] and raise
    nothing.  The first nine equations are on faults of both kinds, the
    last nine on the script in which the same exceptions all strike before
    the statement. *)
Theorem exhausted_budget (cfg : Config) (fs : list fault) (rest : faults)
    (rest' : script) (d : DB) (locked : list Z) (worker p : string)
    (now id : Z) (success : bool) (r : ResultDict) :
  fs <> [] ->
  Z.of_nat (List.length fs) = DB_RETRY_ATTEMPTS cfg ->
  let sc := map Some fs ++ rest in
  let early := map Some (map raised fs) ++ rest' in
  let e := raised (last fs (Refused (DbError ""))) in
  (fst (Late.acquire_task cfg locked worker now sc d) = Raise e
   /\ fst (Late.acquire_proxy cfg locked worker now sc d) = Raise e
   /\ fst (Late.release_proxy cfg now p sc d) = Return (Some false)
   /\ fst (Late.mark_proxy_blocked cfg p sc d) = Return (Some false)
   /\ fst (Late.mark_task_completed cfg now id sc d) = Return (Some false)
   /\ fst (Late.increment_task_attempts cfg id sc d) = Return (Some false)
   /\ fst (Late.increment_worker_stats cfg worker success sc d)
      = Return (Some false)
   /\ fst (Late.save_result_to_db cfg r now sc d) = Return (Some false)
   /\ fst (Late.update_heartbeat cfg worker now sc d) = Return (Some false))
  /\ (fst (acquire_task cfg locked worker now early d) = Raise e
      /\ fst (acquire_proxy cfg locked worker now early d) = Raise e
      /\ fst (release_proxy cfg now p early d) = Return (Some false)
      /\ fst (mark_proxy_blocked cfg p early d) = Return (Some false)
      /\ fst (mark_task_completed cfg now id early d) = Return (Some false)
      /\ fst (increment_task_attempts cfg id early d) = Return (Some false)
      /\ fst (increment_worker_stats cfg worker success early d)
         = Return (Some false)
      /\ fst (save_result_to_db cfg r now early d) = Return (Some false)
      /\ fst (update_heartbeat cfg worker now early d)
         = Return (Some false)).
Proof.
  intros Hne Hlen sc early e. subst sc early e.
  assert (map raised fs <> []) as Hne'
    by (destruct fs; [congruence | discriminate]).
  assert (Z.of_nat (List.length (map raised fs)) = DB_RETRY_ATTEMPTS cfg)
    as Hlen' by now rewrite length_map.
  split.
  - unfold Late.acquire_task, Late.acquire_proxy, Late.release_proxy,
      Late.mark_proxy_blocked, Late.mark_task_completed,
      Late.increment_task_attempts, Late.increment_worker_stats,
      Late.save_result_to_db, Late.update_heartbeat, Late.late_retry_bool.
    repeat split;
      now rewrite (late_retry_exhausted _ _ _ _ fs rest d
                     (Refused (DbError "")) Hne Hlen).
  - rewrite <- (last_raised fs (Refused (DbError ""))). cbn [raised].
    unfold acquire_task, acquire_proxy, release_proxy, mark_proxy_blocked,
      mark_task_completed, increment_task_attempts, increment_worker_stats,
      save_result_to_db, update_heartbeat, retry_bool.
    repeat split;
      now rewrite (retry_exhausted _ _ _ _ (map raised fs) rest' d
                     (DbError "") Hne' Hlen').
Qed.

(** A heartbeat that failed for good leaves no trace in the log:
    [register_worker] sees no exception, logs [worker_registered] and
    returns [True]. *)
Lemma register_worker_hides_failure (cfg : Config) (es : list exn)
    (rest : script) (more : list script) (d : DB) (worker : string)
    (now : Z) (launches : list (option exn)) (tlocks plocks : list Z)
    (log : list string) (page : bool) (cp : option string) :
  es <> [] ->
  Z.of_nat (List.length es) = DB_RETRY_ATTEMPTS cfg ->
  Worker.register_worker cfg worker
    (Worker.mkSlot d now ((map Some es ++ rest) :: more) launches tlocks
                   plocks log page cp)
  = (Return true,
     Worker.mkSlot d now more launches tlocks plocks
                   (log ++ ["worker_registered"]) page cp).
Proof.
  intros Hne Hlen.
  unfold Worker.register_worker.
  destruct (Z.to_nat (DB_RETRY_ATTEMPTS cfg)) as [|fuel] eqn:Hfuel.
  - destruct es; [congruence | simpl in Hlen; lia].
  - cbn [Worker.register_from].
    unfold Worker.bind at 1. unfold Worker.try_except.
    unfold Worker.bind at 1. unfold Worker.db_call.
    cbn [Worker.scripts Worker.db Worker.now hd tl].
    unfold update_heartbeat.
    rewrite retry_bool_exhausted by assumption.
    reflexivity.
Qed.

Lemma exhausted_budget_witness :
  fst (Late.mark_task_completed default_config 100 1
         (map Some [Refused Samples.down; Lost Samples.down;
                    Refused Samples.down; Lost Samples.down;
                    Lost (RuntimeError "connection is closed")] ++ [])
         Samples.db0)
  = Return (Some false).
Proof.
  refine (proj1 (proj2 (proj2 (proj2 (proj2 (proj1
    (exhausted_budget default_config
       [Refused Samples.down; Lost Samples.down; Refused Samples.down;
        Lost Samples.down; Lost (RuntimeError "connection is closed")] []
       [] Samples.db0 [] Samples.slot0 "p1:1000:u:x" 100 1 true
       Samples.parsed_card _ _))))))).
  - discriminate.
  - reflexivity.
Defined.

(** C4 fails as stated: with five attempts, all refused, [release_proxy],
    [mark_task_completed] and [increment_worker_stats] return [False]
    instead of raising. *)
Lemma release_returns_false_when_exhausted :
  let sc := repeat (Some Samples.down) 5 in
  release_proxy default_config 100 "p1:1000:u:x" sc Samples.db0
  = (Return (Some false), Samples.db0)
  /\ mark_task_completed default_config 100 1 sc Samples.db0
     = (Return (Some false), Samples.db0)
  /\ increment_worker_stats default_config Samples.slot0 true sc Samples.db0
     = (Return (Some false), Samples.db0)
  /\ raises (fst (release_proxy default_config 100 "p1:1000:u:x" sc
                    Samples.db0)) = false.
Proof. repeat split. Qed.

(* ------------------------------------------------------------------ *)
(** * The order in which tasks are leased *)

Lemma first_min_none {R : Type} (key : R -> Z) (rows : list R) :
  first_min key rows = None <-> rows = [].
Proof.
  destruct rows as [|r rest]; simpl.
  - tauto.
  - split; [|discriminate].
    destruct (first_min key rest) as [m|]; [|discriminate].
    destruct (key r <=? key m); discriminate.
Qed.

Lemma first_min_least {R : Type} (key : R -> Z) (rows : list R) :
  forall m, first_min key rows = Some m ->
            In m rows /\ forall r, In r rows -> key m <= key r.
Proof.
  induction rows as [|r rest IH]; intros m Hm; [discriminate|].
  simpl in Hm.
  destruct (first_min key rest) as [m'|] eqn:Hrest.
  - destruct (IH m' eq_refl) as [Hin Hle].
    destruct (Z.leb_spec (key r) (key m')) as [Hrm|Hrm];
      injection Hm as <-.
    + split; [now left|]. intros x [<-|Hx]; [lia|].
      specialize (Hle x Hx). lia.
    + split; [now right|]. intros x [<-|Hx]; [lia|]. now apply Hle.
  - injection Hm as <-. apply first_min_none in Hrest. subst rest.
    split; [now left|]. intros x [<-|[]]. lia.
Qed.

Lemma task_candidate_iff (locked : list Z) (t : Task) :
  task_candidate locked t = true
  <-> t_status t = Pending /\ ~ In (t_id t) locked.
Proof.
  unfold task_candidate. rewrite andb_true_iff, negb_true_iff.
  split.
  - intros [Hs Hl]. split.
    + destruct (t_status t); simpl in Hs; congruence.
    + intro Hin. assert (existsb (Z.eqb (t_id t)) locked = true) as E
        by (apply existsb_exists; exists (t_id t); split;
            [assumption | apply Z.eqb_refl]).
      congruence.
  - intros [Hs Hl]. split.
    + now rewrite Hs.
    + destruct (existsb (Z.eqb (t_id t)) locked) eqn:E; [|reflexivity].
      apply existsb_exists in E. destruct E as (x & Hx & Heq).
      apply Z.eqb_eq in Heq. subst x. contradiction.
Qed.





(* ------------------------------------------------------------------ *)
(** * The janitor's startup *)

Lemma call_cycles (f : Z -> script -> DB -> res (option Z) * DB)
    (r : Cleanup.Run) :
  Cleanup.cycles (Cleanup.call f r) = Cleanup.cycles r.
Proof.
  unfold Cleanup.call.
  destruct (f (Cleanup.now r) (hd [] (Cleanup.scripts r)) (Cleanup.db r)).
  reflexivity.
Qed.

Lemma cleanup_cycle_cycles (cfg : Cleanup.Config) (r : Cleanup.Run) :
  Cleanup.cycles (Cleanup.cleanup_cycle cfg r) = S (Cleanup.cycles r).
Proof.
  unfold Cleanup.cleanup_cycle. cbn [Cleanup.cycles].
  now rewrite !call_cycles.
Qed.

(** The loop, once entered, completes at least one cycle. *)
Lemma sweep_loop_cycles (cfg : Cleanup.Config) (waits : list bool) :
  forall r, (Cleanup.cycles r < Cleanup.cycles (Cleanup.sweep_loop cfg waits r))%nat.
Proof.
  induction waits as [|w waits IH]; intro r.
  - cbn [Cleanup.sweep_loop]. rewrite cleanup_cycle_cycles. lia.
  - cbn [Cleanup.sweep_loop]. destruct w.
    + rewrite cleanup_cycle_cycles. lia.
    + eapply Nat.lt_trans; [|apply IH]. cbn [Cleanup.cycles].
      rewrite cleanup_cycle_cycles. lia.
Qed.

Lemma load_config_raises (environ : string -> option string) :
  raises (Cleanup.load_config environ)
  = negb (forallb (Cleanup.reads_int environ) Cleanup.int_settings).
Proof.
  unfold Cleanup.load_config, Cleanup.getenv_int, Cleanup.int_settings,
    Cleanup.reads_int.
  cbn [forallb fst snd].
  repeat (match goal with
          | |- context [Proxies.py_int ?t] => destruct (Proxies.py_int t)
          end;
          cbn [Cleanup.and_then raises negb andb]; try reflexivity).
Qed.

Lemma load_config_reads (environ : string -> option string)
    (loaded : Cleanup.Config) :
  Cleanup.load_config environ = Return loaded ->
  let read := fun name dflt =>
    Proxies.py_int (Cleanup.getenv environ name dflt) in
  read "DB_PORT" "5413" = Some (Cleanup.DB_PORT loaded)
  /\ read "TASK_TIMEOUT" "600" = Some (Cleanup.TASK_TIMEOUT loaded)
  /\ read "PROXY_TIMEOUT" "300" = Some (Cleanup.PROXY_TIMEOUT loaded)
  /\ read "WORKER_TIMEOUT" "240" = Some (Cleanup.WORKER_TIMEOUT loaded)
  /\ read "CLEANUP_INTERVAL" "60" = Some (Cleanup.CLEANUP_INTERVAL loaded)
  /\ read "DB_CONNECT_TIMEOUT" "10"
     = Some (Cleanup.DB_CONNECT_TIMEOUT loaded)
  /\ read "DB_RETRY_ATTEMPTS" "5" = Some (Cleanup.DB_RETRY_ATTEMPTS loaded)
  /\ read "RETRY_DELAY" "10" = Some (Cleanup.RETRY_DELAY loaded).
Proof.
  intros H. cbv zeta beta.
  unfold Cleanup.load_config, Cleanup.getenv_int in H.
  repeat (match type of H with
          | context [Proxies.py_int ?t] =>
              destruct (Proxies.py_int t);
              cbn [Cleanup.and_then] in H; [|discriminate H]
          end).
  injection H as <-. cbn. repeat split.
Qed.

(** C9, as the code has it: cleanup.py compares no timeouts.  The class
    body reads eight settings with [int], the port of the database first,
    then the three timeouts, each for itself; loading raises exactly when
    one of the eight is no integer literal.  [main] fails exactly when
    [init_pool] raises, and otherwise, unless shutdown was already
    requested, enters the sweep loop and completes a cycle, for every
    configuration, ordered or not: with a pool that opens and no shutdown
    requested, the process raises exactly when loading does, and otherwise
    sweeps with the values it read.  The defaults (240, 300, 600) are
    ordered. *)
Theorem janitor_starts_whatever_the_timeouts (cfg : Cleanup.Config)
    (environ : string -> option string) (pool_fault : option exn)
    (shutdown_at_start : bool) (waits : list bool) (r : Cleanup.Run) :
  raises (Cleanup.main cfg pool_fault shutdown_at_start waits r)
  = (match pool_fault with Some _ => true | None => false end)
  /\ Cleanup.main cfg None false waits r
     = Return (Cleanup.sweep_loop cfg waits r)
  /\ (Cleanup.cycles r
      < Cleanup.cycles (Cleanup.sweep_loop cfg waits r))%nat
  /\ raises (Cleanup.load_config environ)
     = negb (forallb (Cleanup.reads_int environ) Cleanup.int_settings)
  /\ match Cleanup.load_config environ with
     | Return loaded =>
         Proxies.py_int (Cleanup.getenv environ "TASK_TIMEOUT" "600")
         = Some (Cleanup.TASK_TIMEOUT loaded)
         /\ Proxies.py_int (Cleanup.getenv environ "PROXY_TIMEOUT" "300")
            = Some (Cleanup.PROXY_TIMEOUT loaded)
         /\ Proxies.py_int (Cleanup.getenv environ "WORKER_TIMEOUT" "240")
            = Some (Cleanup.WORKER_TIMEOUT loaded)
         /\ Cleanup.startup environ None false waits r
            = Return (Cleanup.sweep_loop loaded waits r)
     | Raise e =>
         Cleanup.startup environ pool_fault shutdown_at_start waits r
         = Raise e
     end
  /\ raises (Cleanup.startup environ None false waits r)
     = raises (Cleanup.load_config environ)
  /\ (exists dflt, Cleanup.load_config (fun _ => None) = Return dflt
                   /\ Cleanup.timeouts_ordered dflt = true).
Proof.
  split; [|split; [|split; [|split; [|split; [|split]]]]].
  - unfold Cleanup.main. destruct pool_fault; [reflexivity|].
    now destruct shutdown_at_start.
  - reflexivity.
  - apply sweep_loop_cycles.
  - apply load_config_raises.
  - unfold Cleanup.startup.
    destruct (Cleanup.load_config environ) as [loaded|e] eqn:Hload;
      [|reflexivity].
    destruct (load_config_reads environ loaded Hload)
      as (_ & Ht & Hp & Hw & _).
    repeat split; assumption.
  - unfold Cleanup.startup.
    destruct (Cleanup.load_config environ); reflexivity.
  - eexists. split; [vm_compute; reflexivity | reflexivity].
Qed.

(** C9 fails as stated: with WORKER_TIMEOUT=900 in the environment the
    timeouts are out of order, and the janitor starts and sweeps. *)
Lemma janitor_starts_unordered :
  Cleanup.load_config Samples.unordered_environ = Return Samples.unordered
  /\ Cleanup.timeouts_ordered Samples.unordered = false
  /\ exists r',
       Cleanup.startup Samples.unordered_environ None false []
                       Samples.janitor0 = Return r'
       /\ Cleanup.cycles r' = 1%nat.
Proof.
  split; [vm_compute; reflexivity|]. split; [reflexivity|].
  eexists. split; vm_compute; reflexivity.
Qed.

(* ------------------------------------------------------------------ *)
(** * Proxy strings accepted by the loader *)

(** ** What [split] returns

    The parts hold no separator, and joined by the separator they give
    back the string; a list of such parts is what its join splits into. *)

Lemma split_parts (sep : ascii) (s : string) :
  Proxies.split sep s <> []
  /\ Logging.join (String sep EmptyString) (Proxies.split sep s) = s
  /\ Forall (fun part => Fields.count_char sep part = 0%nat)
            (Proxies.split sep s).
Proof.
  induction s as [|c s (Hne & Hjoin & Hfree)].
  - cbn. repeat split; [discriminate | repeat constructor].
  - cbn [Proxies.split]. destruct (Ascii.eqb c sep) eqn:Hc.
    + apply Ascii.eqb_eq in Hc. subst c.
      split; [discriminate|]. split.
      * destruct (Proxies.split sep s) as [|q qs]; [congruence|].
        cbn [Logging.join String.append] in *. now rewrite Hjoin.
      * constructor; [reflexivity | assumption].
    + destruct (Proxies.split sep s) as [|q qs]; [congruence|].
      split; [discriminate|]. split.
      * destruct qs as [|q' qs];
          cbn [Logging.join String.append] in *; now rewrite Hjoin.
      * inversion Hfree as [|? ? Hq Hqs]; subst.
        constructor; [|assumption].
        cbn [Fields.count_char]. now rewrite Hc.
Qed.

Lemma split_no_separator (sep : ascii) (s : string) :
  Fields.count_char sep s = 0%nat -> Proxies.split sep s = [s].
Proof.
  induction s as [|c s IH]; [reflexivity|].
  cbn [Fields.count_char Proxies.split].
  destruct (Ascii.eqb c sep); [discriminate|].
  intro H. now rewrite (IH H).
Qed.

Lemma split_first_field (sep : ascii) (a rest : string) :
  Fields.count_char sep a = 0%nat ->
  Proxies.split sep (a ++ String sep rest)%string
  = a :: Proxies.split sep rest.
Proof.
  induction a as [|c a IH]; cbn [String.append Proxies.split].
  - intros _. now rewrite Ascii.eqb_refl.
  - cbn [Fields.count_char].
    destruct (Ascii.eqb c sep); [discriminate|].
    intro H. now rewrite (IH H).
Qed.

Lemma split_four_fields (host port user pass : string) :
  Forall (fun field => Fields.count_char ":" field = 0%nat)
         [host; port; user; pass] ->
  Proxies.split ":" (host ++ ":" ++ port ++ ":" ++ user ++ ":" ++ pass)
  = [host; port; user; pass].
Proof.
  intro H.
  inversion H as [|? ? Hh H1]; subst. inversion H1 as [|? ? Hp H2]; subst.
  inversion H2 as [|? ? Hu H3]; subst. inversion H3 as [|? ? Hw _]; subst.
  change (":" ++ port ++ ":" ++ user ++ ":" ++ pass)%string
    with (String ":" (port ++ String ":" (user ++ String ":" pass)))%string.
  rewrite !split_first_field by assumption.
  now rewrite split_no_separator.
Qed.

Lemma four_fields_of_split (s host port user pass : string) :
  Proxies.split ":" s = [host; port; user; pass] ->
  s = (host ++ ":" ++ port ++ ":" ++ user ++ ":" ++ pass)%string
  /\ Forall (fun field => Fields.count_char ":" field = 0%nat)
            [host; port; user; pass].
Proof.
  intro H. destruct (split_parts ":" s) as (_ & Hjoin & Hfree).
  rewrite H in Hjoin, Hfree. split; [|assumption].
  now rewrite <- Hjoin.
Qed.

(** C10: a line [validate_proxy_format] accepts is
    [host:port:user:pass], four fields without a colon (the four parts
    [split] gives), with a host that is not blank and a port that [int]
    reads as a number from 1 to 65535, and on it [parse_proxy] does not
    raise and returns the server ["http://host:port"], the username and
    the password of that line; it does so on every line of four fields
    without a colon.  [parse_proxy] raises exactly when the string is not
    four colon-separated fields, which is when [split] gives another
    number of parts than four, and what it raises is a [ValueError]. *)
Theorem parse_proxy_accepts_validated (s : string) :
  (Proxies.validate_proxy_format s = true ->
   exists host port user pass port_num,
     s = (host ++ ":" ++ port ++ ":" ++ user ++ ":" ++ pass)%string
     /\ Forall (fun field => Fields.count_char ":" field = 0%nat)
               [host; port; user; pass]
     /\ Proxies.split ":" s = [host; port; user; pass]
     /\ Proxies.strip host <> EmptyString
     /\ Proxies.py_int port = Some port_num
     /\ 1 <= port_num <= 65535
     /\ Proxies.parse_proxy s
        = Return (Proxies.mkProxyConfig
                    ("http://" ++ host ++ ":" ++ port)%string user pass))
  /\ (forall host port user pass,
        Forall (fun field => Fields.count_char ":" field = 0%nat)
               [host; port; user; pass] ->
        Proxies.parse_proxy
          (host ++ ":" ++ port ++ ":" ++ user ++ ":" ++ pass)%string
        = Return (Proxies.mkProxyConfig
                    ("http://" ++ host ++ ":" ++ port)%string user pass))
  /\ (raises (Proxies.parse_proxy s) = true
      <-> ~ exists host port user pass,
              Forall (fun field => Fields.count_char ":" field = 0%nat)
                     [host; port; user; pass]
              /\ s = (host ++ ":" ++ port ++ ":" ++ user ++ ":" ++ pass)%string)
  /\ (raises (Proxies.parse_proxy s) = true
      <-> List.length (Proxies.split ":" s) <> 4%nat)
  /\ (forall e, Proxies.parse_proxy s = Raise e -> e = ValueError s).
Proof.
  split; [|split; [|split; [|split]]].
  - intro Hv. unfold Proxies.validate_proxy_format in Hv.
    unfold Proxies.parse_proxy.
    destruct (Proxies.split ":" s)
      as [|host [|port [|user [|pass [|extra more]]]]] eqn:Hsplit;
      try discriminate Hv.
    destruct (four_fields_of_split s host port user pass Hsplit)
      as [Hs Hfree].
    destruct (Proxies.strip host) as [|c rest] eqn:Hhost;
      cbn [Proxies.truthy negb] in Hv; [discriminate|].
    destruct (Proxies.py_int port) as [n|] eqn:Hport; [|discriminate].
    destruct (Z.leb_spec n 0) as [Hle|Hgt]; cbn [orb] in Hv; [discriminate|].
    destruct (n >? 65535) eqn:Hhi; [discriminate|].
    rewrite Z.gtb_ltb in Hhi. apply Z.ltb_ge in Hhi.
    exists host, port, user, pass, n.
    split; [exact Hs|]. split; [exact Hfree|]. split; [reflexivity|].
    split; [rewrite Hhost; discriminate|].
    split; [exact Hport|]. split; [lia | reflexivity].
  - intros host port user pass Hfree. unfold Proxies.parse_proxy.
    now rewrite (split_four_fields host port user pass Hfree).
  - unfold Proxies.parse_proxy.
    destruct (Proxies.split ":" s)
      as [|host [|port [|user [|pass [|extra more]]]]] eqn:Hsplit;
      cbn [raises].
    5: { split; [discriminate|]. intro Hno. elim Hno.
         exists host, port, user, pass.
         destruct (four_fields_of_split s host port user pass Hsplit).
         now split. }
    all: split; [|reflexivity]; intros _ (h & p & u & w & Hfree & Hs);
      subst s; rewrite (split_four_fields h p u w Hfree) in Hsplit;
      discriminate Hsplit.
  - unfold Proxies.parse_proxy.
    destruct (Proxies.split ":" s) as [|a [|b [|c [|d [|x more]]]]];
      cbn [List.length raises];
      (split; [intro H; try discriminate H; lia
              |intro H; try reflexivity; now elim H]).
  - intros e. unfold Proxies.parse_proxy.
    destruct (Proxies.split ":" s) as [|a [|b [|c [|d [|x more]]]]];
      intro H; try discriminate H; now injection H as <-.
Qed.

Lemma parse_proxy_accepts_validated_witness :
  Proxies.validate_proxy_format "178.250.190.177:3000:q5Wuid:1j8A4VJOZr"
  = true
  /\ (exists host port user pass port_num,
        "178.250.190.177:3000:q5Wuid:1j8A4VJOZr"
        = (host ++ ":" ++ port ++ ":" ++ user ++ ":" ++ pass)%string
        /\ Forall (fun field => Fields.count_char ":" field = 0%nat)
                  [host; port; user; pass]
        /\ Proxies.split ":" "178.250.190.177:3000:q5Wuid:1j8A4VJOZr"
           = [host; port; user; pass]
        /\ Proxies.strip host <> EmptyString
        /\ Proxies.py_int port = Some port_num
        /\ 1 <= port_num <= 65535
        /\ Proxies.parse_proxy "178.250.190.177:3000:q5Wuid:1j8A4VJOZr"
           = Return (Proxies.mkProxyConfig
                       ("http://" ++ host ++ ":" ++ port)%string user pass))
  /\ Proxies.parse_proxy
       ("178.250.190.177" ++ ":" ++ "3000" ++ ":" ++ "q5Wuid" ++ ":"
        ++ "1j8A4VJOZr")%string
     = Return (Proxies.mkProxyConfig "http://178.250.190.177:3000"
                                     "q5Wuid" "1j8A4VJOZr").
Proof.
  split; [reflexivity|]. split.
  - apply (proj1 (parse_proxy_accepts_validated
                    "178.250.190.177:3000:q5Wuid:1j8A4VJOZr")).
    reflexivity.
  - apply (proj1 (proj2 (parse_proxy_accepts_validated EmptyString))
             "178.250.190.177" "3000" "q5Wuid" "1j8A4VJOZr").
    repeat constructor.
Defined.

(* ------------------------------------------------------------------ *)
(** * What a turn of the loop keeps *)

Import Invariants.

Section RetryCases.
Context {A : Type}.
Variable N : Z.
Variable on_exhausted : exn -> res A.
Variable fallthrough : A.
Variable body : stmt A.

(** Whatever the script, the loop leaves the database as it was or as one
    run of the statement leaves it. *)
Lemma retry_from_db_cases (fuel : nat) :
  forall (attempt : Z) (sc : script) (d : DB),
    snd (retry_from N on_exhausted fallthrough body fuel attempt sc d) = d
    \/ exists a d',
         body d = inr (a, d')
         /\ snd (retry_from N on_exhausted fallthrough body fuel attempt sc d)
            = d'.
Proof.
  induction fuel as [|fuel IH]; intros attempt sc d; [now left|].
  cbn [retry_from].
  assert (forall e,
            snd (match handler N on_exhausted attempt e with
                 | Some r => (r, d)
                 | None => retry_from N on_exhausted fallthrough body fuel
                                      (attempt + 1) (tl sc) d
                 end) = d
            \/ exists a d',
                 body d = inr (a, d')
                 /\ snd (match handler N on_exhausted attempt e with
                         | Some r => (r, d)
                         | None => retry_from N on_exhausted fallthrough body
                                     fuel (attempt + 1) (tl sc) d
                         end) = d') as Hfail.
  { intro e. destruct (handler N on_exhausted attempt e); [now left|].
    apply IH. }
  destruct sc as [|[e|] sc'].
  - destruct (body d) as [e|[a d']] eqn:Hb; [apply Hfail|].
    right. now exists a, d'.
  - apply Hfail.
  - destruct (body d) as [e|[a d']] eqn:Hb; [apply Hfail|].
    right. now exists a, d'.
Qed.

Lemma retry_keeps (I : DB -> Prop) (sc : script) (d : DB) :
  (forall a d', body d = inr (a, d') -> I d') ->
  I d ->
  I (snd (retry N on_exhausted fallthrough body sc d)).
Proof.
  intros Hbody Hd. unfold retry.
  destruct (retry_from_db_cases (Z.to_nat N) 0 sc d) as [->|(a & d' & Hb & ->)];
    [assumption | now apply (Hbody a)].
Qed.

End RetryCases.

Lemma retry_bool_exec_keeps (I : DB -> Prop) (cfg : Config) (f : DB -> DB)
    (sc : script) (d : DB) :
  (I d -> I (f d)) -> I d -> I (snd (retry_bool cfg (exec f) sc d)).
Proof.
  intros Hf Hd. unfold retry_bool. apply retry_keeps; [|assumption].
  unfold exec. intros a d' H. injection H as _ <-. now apply Hf.
Qed.

Lemma acquire_proxy_keeps_unblocked (s : string) (cfg : Config)
    (locked : list Z) (worker : string) (now : Z) (sc : script) (d : DB) :
  unblocked s d ->
  unblocked s (snd (acquire_proxy cfg locked worker now sc d)).
Proof.
  intro Hd. unfold acquire_proxy. apply retry_keeps; [|assumption].
  intros a d'. unfold acquire_proxy_stmt.
  destruct (select_available locked d) as [chosen|]; intro H;
    injection H as _ <-; [|assumption].
  intros q Hq Hs. cbn [proxies set_proxies] in Hq.
  unfold sql_update in Hq. apply in_map_iff in Hq.
  destruct Hq as (q0 & Hq0 & Hin).
  destruct (String.eqb (p_proxy q0) chosen).
  - subst q. discriminate.
  - subst q. now apply Hd.
Qed.

Section Keeps.
Variable I : DB -> Prop.

Lemma keeps_ret {A} (a : A) : keeps I (Worker.ret a).
Proof. now intros s H. Qed.

Lemma keeps_raise {A} (e : exn) : keeps I (@Worker.raise A e).
Proof. now intros s H. Qed.

Lemma keeps_lift {A} (r : res A) : keeps I (Worker.lift r).
Proof. now intros s H. Qed.

Lemma keeps_log_event (event : string) : keeps I (Worker.log_event event).
Proof. now intros s H. Qed.

Lemma keeps_assign (pg : bool) (cp : option string) :
  keeps I (Worker.assign pg cp).
Proof. now intros s H. Qed.

Lemma keeps_launch_browser : keeps I Worker.launch_browser.
Proof.
  intros s H. unfold Worker.launch_browser.
  now destruct (Worker.launches s) as [|[e|] l].
Qed.

Lemma keeps_bind {A B} (m : Worker.M A) (k : A -> Worker.M B) :
  keeps I m -> (forall a, keeps I (k a)) -> keeps I (Worker.bind m k).
Proof.
  intros Hm Hk s H. unfold Worker.bind. specialize (Hm s H).
  destruct (m s) as [[a|e] s']; cbn [snd] in *; [now apply Hk | assumption].
Qed.

Lemma keeps_try_except {A} (m : Worker.M A) (h : exn -> Worker.M A) :
  keeps I m -> (forall e, keeps I (h e)) -> keeps I (Worker.try_except m h).
Proof.
  intros Hm Hh s H. unfold Worker.try_except. specialize (Hm s H).
  destruct (m s) as [[a|e] s']; cbn [snd] in *; [assumption | now apply Hh].
Qed.

Lemma keeps_db_call {A}
    (f : Worker.Slot -> script -> DB -> res A * DB) :
  (forall s sc d, I d -> I (snd (f s sc d))) -> keeps I (Worker.db_call f).
Proof.
  intros Hf s H. unfold Worker.db_call.
  specialize (Hf s (hd [] (Worker.scripts s)) (Worker.db s) H).
  now destruct (f s (hd [] (Worker.scripts s)) (Worker.db s)).
Qed.

End Keeps.

Lemma save_result_keeps_proxies (cfg : Config) (r : ResultDict) (now : Z)
    (sc : script) (d : DB) :
  proxies (snd (save_result_to_db cfg r now sc d)) = proxies d.
Proof.
  unfold save_result_to_db, retry_bool.
  apply (retry_keeps _ _ _ _ (fun d0 => proxies d0 = proxies d));
    [|reflexivity].
  intros a d'. unfold save_result_stmt.
  destruct (rd_worker_id r); [|discriminate].
  destruct (rd_attempts r); [|discriminate].
  destruct (find_result (rd_item_id r) d); intro H; now injection H as _ <-.
Qed.

Section Rotation.
Variable cfg : Config.
Variable worker : string.
Variable s : string.

Lemma init_playwright_keeps_unblocked :
  keeps (unblocked s) (Worker.init_playwright cfg worker).
Proof.
  unfold Worker.init_playwright.
  apply keeps_bind.
  - apply keeps_db_call. intros. now apply acquire_proxy_keeps_unblocked.
  - intros [lease|]; [|apply keeps_raise].
    repeat (apply keeps_bind; intros);
      auto using keeps_lift, keeps_launch_browser, keeps_log_event, keeps_ret.
Qed.

(** What follows the rotation in a turn writes no proxy row. *)
Lemma settle_keeps_unblocked (task : TaskLease) (result : ResultDict) :
  keeps (unblocked s)
    (match rd_status result with
     | Success | Unavailable =>
         Worker.bind
           (Worker.db_call (fun s => save_result_to_db cfg result (Worker.now s)))
           (fun _ => Worker.bind
              (Worker.db_call (fun s => mark_task_completed cfg (Worker.now s) (task_id task)))
              (fun _ => Worker.bind
                 (Worker.db_call (fun _ => increment_worker_stats cfg worker true))
                 (fun _ => Worker.log_event "task_success")))
     | Error =>
         Worker.bind
           (Worker.db_call (fun _ => increment_task_attempts cfg (task_id task)))
           (fun _ => Worker.bind
              (Worker.db_call (fun _ => increment_worker_stats cfg worker false))
              (fun _ => Worker.ret tt))
     end).
Proof.
  assert (forall id, keeps (unblocked s)
            (Worker.db_call (fun _ => increment_task_attempts cfg id))) as Hgive.
  { intro id. apply keeps_db_call. intros _ sc d Hd.
    unfold increment_task_attempts. now apply retry_bool_exec_keeps. }
  assert (forall ok, keeps (unblocked s)
            (Worker.db_call (fun _ => increment_worker_stats cfg worker ok))) as Hstat.
  { intro ok. apply keeps_db_call. intros _ sc d Hd.
    unfold increment_worker_stats. now apply retry_bool_exec_keeps. }
  assert (keeps (unblocked s)
            (Worker.db_call (fun s => mark_task_completed cfg (Worker.now s) (task_id task)))) as Hdone.
  { apply keeps_db_call. intros s0 sc d Hd.
    unfold mark_task_completed. now apply retry_bool_exec_keeps. }
  assert (keeps (unblocked s)
            (Worker.db_call (fun s => save_result_to_db cfg result (Worker.now s)))) as Hsave.
  { apply keeps_db_call. intros s0 sc d Hd.
    unfold unblocked. now rewrite save_result_keeps_proxies. }
  destruct (rd_status result);
    repeat (apply keeps_bind; [|intro]);
    auto using keeps_log_event, keeps_ret.
Qed.

End Rotation.


(* ------------------------------------------------------------------ *)
(** * The rotation path and the save path of the slot loop *)

(** Whatever the table holds, releasing a proxy right after blocking it
    leaves none of its rows blocked. *)
Lemma release_after_block_is_available (now : Z) (s : string) (d : DB)
    (p : Proxy) :
  In p (proxies (release_proxy_stmt now s (mark_proxy_blocked_stmt s d))) ->
  p_proxy p = s ->
  p_status p = Available.
Proof.
  unfold release_proxy_stmt, mark_proxy_blocked_stmt, sql_update.
  cbn [proxies set_proxies]. rewrite map_map.
  intros Hin Hs. apply in_map_iff in Hin. destruct Hin as (q & Hq & _).
  destruct (String.eqb_spec (p_proxy q) s) as [Heq|Hne].
  - cbn [block_proxy p_proxy] in Hq. rewrite Heq, String.eqb_refl in Hq.
    now subst p.
  - destruct (String.eqb_spec (p_proxy q) s) as [Heq'|_];
      [contradiction|].
    subst p. contradiction.
Qed.

Lemma bind_step {A B} (m : Worker.M A) (k : A -> Worker.M B)
    (s s' : Worker.Slot) (a : A) :
  m s = (Return a, s') -> Worker.bind m k s = k a s'.
Proof. intro H. unfold Worker.bind. now rewrite H. Qed.

Lemma db_call_step {A} (f : Worker.Slot -> script -> DB -> res A * DB)
    (s : Worker.Slot) (r : res A) (d' : DB) :
  f s (hd [] (Worker.scripts s)) (Worker.db s) = (r, d') ->
  Worker.db_call f s = (r, Worker.set_db s d' (tl (Worker.scripts s))).
Proof. intro H. unfold Worker.db_call. now rewrite H. Qed.

Lemma try_bind_step {A B} (m : Worker.M A) (k : A -> Worker.M B)
    (h : exn -> Worker.M B) (s s' : Worker.Slot) (a : A) :
  m s = (Return a, s') ->
  Worker.try_except (Worker.bind m k) h s = Worker.try_except (k a) h s'.
Proof. intro H. unfold Worker.try_except, Worker.bind. now rewrite H. Qed.

Lemma try_bind_bind_step {A B C} (m : Worker.M A) (k : A -> Worker.M B)
    (k2 : B -> Worker.M C) (h : exn -> Worker.M C) (s s' : Worker.Slot)
    (a : A) :
  m s = (Return a, s') ->
  Worker.try_except (Worker.bind (Worker.bind m k) k2) h s
  = Worker.try_except (Worker.bind (k a) k2) h s'.
Proof. intro H. unfold Worker.try_except, Worker.bind. now rewrite H. Qed.

Lemma rotation_leaves_proxy_unblocked (cfg : Config) (worker p : string)
    (task : TaskLease) (result : ResultDict) (d : DB) (now : Z)
    (pre1 pre2 : list exn) (rest1 rest2 : script) (more : list script)
    (launches : list (option exn)) (tlocks plocks : list Z)
    (log : list string) :
  rd_rotate_proxy result = true ->
  Z.of_nat (List.length pre1) < DB_RETRY_ATTEMPTS cfg ->
  Z.of_nat (List.length pre2) < DB_RETRY_ATTEMPTS cfg ->
  unblocked p
    (Worker.db
       (snd (Worker.process_task cfg worker task (Return result)
               (Worker.mkSlot d now
                  ((map Some pre1 ++ None :: rest1)
                   :: (map Some pre2 ++ None :: rest2) :: more)
                  launches tlocks plocks log true (Some p))))).
Proof.
  intros Hrot H1 H2.
  unfold Worker.process_task, Worker.try_body.
  erewrite try_bind_step by reflexivity.
  rewrite Hrot.
  erewrite try_bind_bind_step
    by (apply db_call_step; unfold mark_proxy_blocked;
        now apply retry_bool_exec).
  erewrite try_bind_bind_step by reflexivity.
  erewrite try_bind_bind_step
    by (apply db_call_step; unfold release_proxy;
        now apply retry_bool_exec).
  cbn [Worker.set_db Worker.scripts Worker.db Worker.now hd tl
       Worker.launches Worker.task_locks Worker.proxy_locks Worker.log
       Worker.page Worker.current_proxy].
  apply keeps_try_except.
  - apply keeps_bind.
    + apply keeps_bind; [apply keeps_assign|]. intros _.
      apply keeps_bind; [apply init_playwright_keeps_unblocked|].
      intro. apply keeps_assign.
    + intros _. apply settle_keeps_unblocked.
  - intros _.
    repeat (apply keeps_bind; [|intro]);
      auto using keeps_log_event, keeps_ret.
    + apply keeps_db_call. intros _ sc d0 Hd.
      unfold increment_task_attempts. now apply retry_bool_exec_keeps.
    + apply keeps_db_call. intros _ sc d0 Hd.
      unfold increment_worker_stats. now apply retry_bool_exec_keeps.
  - cbn [Worker.db]. intros q Hq Hs Hb.
    now rewrite (release_after_block_is_available now p d q Hq Hs) in Hb.
Qed.

(** C1 fails on the code: slot 0 holds p1, the page is a 403 block and
    [process_item] asks for rotation.  [worker_loop] calls
    [mark_proxy_blocked] and then [release_proxy] on p1, so after the turn
    p1 is [available] again, with the block counted; the slot moves to p2,
    and the next [acquire_proxy] of another slot is handed p1. *)
Theorem rotation_frees_the_blocked_proxy :
  let after :=
    snd (Worker.process_task default_config Samples.slot0 Samples.lease1
           (Return Samples.blocked_403)
           (Samples.running Samples.db0 [])) in
  option_map (fun p => (p_status p, p_blocks_count p, p_locked_by p))
    (find_proxy "p1:1000:u:x" (Worker.db after))
  = Some (Available, 1, None)
  /\ Worker.current_proxy after = Some "p2:1000:u:x"
  /\ fst (acquire_proxy default_config [] Samples.slot1 101 []
            (Worker.db after))
     = Return (Some (mkProxyLease 1 "p1:1000:u:x")).
Proof. vm_compute. repeat split. Qed.

(** With p1 as the only proxy, the slot that has just flagged it leases it
    again within the same turn. *)
Lemma rotation_leases_the_blocked_proxy_again :
  let after :=
    snd (Worker.process_task default_config Samples.slot0 Samples.lease1
           (Return Samples.blocked_403)
           (Samples.running Samples.db_one_proxy [])) in
  option_map (fun p => (p_status p, p_blocks_count p, p_locked_by p))
    (find_proxy "p1:1000:u:x" (Worker.db after))
  = Some (Locked, 1, Some Samples.slot0)
  /\ Worker.current_proxy after = Some "p1:1000:u:x".
Proof. vm_compute. repeat split. Qed.

(** C2 fails on the code: [process_item] returns a result to save, and the
    database refuses each of the five attempts of [save_result_to_db] and
    answers again afterwards.  [save_result_to_db] returns [False], the
    loop does not look at it and goes on to [mark_task_completed]: the
    turn ends without an exception, [results] is as it was, and the task
    is completed. *)
Theorem completed_without_saved_result (d : DB) (now : Z) (task : TaskLease)
    (item att : Z) (content : Content) (worker : string) (e : exn)
    (launches : list (option exn)) (tlocks plocks : list Z)
    (log : list string) (cp : option string) :
  let result :=
    mkResultDict item Success content None (Some worker) (Some att) false in
  let slot :=
    Worker.mkSlot d now [repeat (Some e) 5] launches tlocks plocks log true
                  cp in
  let out :=
    Worker.process_task default_config worker task (Return result) slot in
  fst out = Return tt
  /\ results (Worker.db (snd out)) = results d
  /\ tasks (Worker.db (snd out))
     = sql_update (fun t => t_id t =? task_id task) (complete_task now)
                  (tasks d)
  /\ Worker.log (snd out) = log ++ ["task_success"].
Proof. repeat split. Qed.

(** The same on a concrete database: task 1 ends completed and no row of
    [results] exists for its item. *)
Lemma task1_completed_with_no_row :
  let out :=
    Worker.process_task default_config Samples.slot0 Samples.lease1
      (Return Samples.parsed_card)
      (Samples.running Samples.db0 [repeat (Some Samples.down) 5]) in
  option_map t_status (find_task 1 (Worker.db (snd out))) = Some Completed
  /\ find_result 300 (Worker.db (snd out)) = None
  /\ results (Worker.db (snd out)) = [].
Proof. vm_compute. repeat split. Qed.

(** Without a fault the same result is saved before the task is
    completed. *)
Lemma saved_then_completed_on_db0 :
  let out :=
    Worker.process_task default_config Samples.slot0 Samples.lease1
      (Return Samples.parsed_card) (Samples.running Samples.db0 []) in
  option_map t_status (find_task 1 (Worker.db (snd out))) = Some Completed
  /\ option_map r_status (find_result 300 (Worker.db (snd out)))
     = Some Success.
Proof. vm_compute. repeat split. Qed.

(* ------------------------------------------------------------------ *)
(** * How the retry loop can end *)

Section RetryOutcome.
Context {A : Type}.
Variable N : Z.
Variable on_exhausted : exn -> res A.
Variable fallthrough : A.
Variable body : stmt A.

(** The three ways the loop can end: the handler of the last attempt
    decides, the loop has no iteration left, or one run of the statement
    goes through. *)
Lemma retry_from_outcome (fuel : nat) :
  forall (attempt : Z) (sc : script) (d : DB),
    let out := retry_from N on_exhausted fallthrough body fuel attempt sc d in
    (exists e, out = (on_exhausted e, d))
    \/ out = (Return fallthrough, d)
    \/ exists a d', body d = inr (a, d') /\ out = (Return a, d').
Proof.
  induction fuel as [|fuel IH]; intros attempt sc d; [right; now left|].
  cbn [retry_from].
  assert (forall e,
            let out :=
              match handler N on_exhausted attempt e with
              | Some r => (r, d)
              | None => retry_from N on_exhausted fallthrough body fuel
                                   (attempt + 1) (tl sc) d
              end in
            (exists e', out = (on_exhausted e', d))
            \/ out = (Return fallthrough, d)
            \/ exists a d', body d = inr (a, d') /\ out = (Return a, d'))
    as Hfail.
  { intro e. unfold handler.
    destruct (attempt <? N - 1); [apply IH|]. left. now exists e. }
  destruct sc as [|[e|] sc'].
  - destruct (body d) as [e|[a d']] eqn:Hb; [apply Hfail|].
    right; right. now exists a, d'.
  - apply Hfail.
  - destruct (body d) as [e|[a d']] eqn:Hb; [apply Hfail|].
    right; right. now exists a, d'.
Qed.

Lemma retry_outcome (sc : script) (d : DB) :
  let out := retry N on_exhausted fallthrough body sc d in
  (exists e, out = (on_exhausted e, d))
  \/ out = (Return fallthrough, d)
  \/ exists a d', body d = inr (a, d') /\ out = (Return a, d').
Proof. apply retry_from_outcome. Qed.

End RetryOutcome.

(** A function of db.py that returns a bool never raises. *)
Lemma retry_bool_returns (cfg : Config) (body : stmt (option bool))
    (sc : script) (d : DB) :
  exists b, fst (retry_bool cfg body sc d) = Return b.
Proof.
  unfold retry_bool.
  destruct (retry_outcome (DB_RETRY_ATTEMPTS cfg)
              (fun _ => Return (Some false)) None body sc d)
    as [(e & ->)|[->|(a & d' & _ & ->)]]; eexists; reflexivity.
Qed.

(** [acquire_task] and [acquire_proxy] hand out a row only when their
    statement went through. *)
Lemma retry_raise_some {A : Type} (N : Z) (body : stmt (option A))
    (sc : script) (d d' : DB) (a : A) :
  retry N (fun e => Raise e) None body sc d = (Return (Some a), d') ->
  body d = inr (Some a, d').
Proof.
  intro H.
  destruct (retry_outcome N (fun e => Raise e) None body sc d)
    as [(e & He)|[He|(x & dx & Hb & He)]]; rewrite He in H; try discriminate.
  now injection H as -> ->.
Qed.

(* ------------------------------------------------------------------ *)
(** * Leases *)

Lemma proxy_candidate_iff (locked : list Z) (p : Proxy) :
  proxy_candidate locked p = true
  <-> p_status p = Available /\ ~ In (p_id p) locked.
Proof.
  unfold proxy_candidate. rewrite andb_true_iff, negb_true_iff.
  split.
  - intros [Hs Hl]. split.
    + destruct (p_status p); simpl in Hs; congruence.
    + intro Hin. assert (existsb (Z.eqb (p_id p)) locked = true) as E
        by (apply existsb_exists; exists (p_id p); split;
            [assumption | apply Z.eqb_refl]).
      congruence.
  - intros [Hs Hl]. split.
    + now rewrite Hs.
    + destruct (existsb (Z.eqb (p_id p)) locked) eqn:E; [|reflexivity].
      apply existsb_exists in E. destruct E as (x & Hx & Heq).
      apply Z.eqb_eq in Heq. subst x. contradiction.
Qed.

(** What a run of the statement of [acquire_task] that returns a row has
    done. *)
Lemma acquire_task_stmt_some (locked : list Z) (worker : string) (now : Z)
    (d d' : DB) (l : TaskLease) :
  acquire_task_stmt locked worker now d = inr (Some l, d') ->
  exists t,
    first_min t_created_at (filter (task_candidate locked) (tasks d)) = Some t
    /\ task_id l = t_id t
    /\ d' = set_tasks d (sql_update (fun x => t_id x =? t_id t)
                                    (lease_task worker now) (tasks d))
    /\ exists r, find_task (t_id t) d = Some r
                 /\ item_id l = t_item_id r
                 /\ attempts l = t_attempts r + 1.
Proof.
  unfold acquire_task_stmt, select_pending.
  destruct (first_min t_created_at (filter (task_candidate locked) (tasks d)))
    as [m|] eqn:Hmin; cbn [option_map]; [|discriminate].
  intro H. injection H as Hrow <-.
  exists m. split; [reflexivity|].
  assert (forall rows,
            match filter (fun t => t_id t =? t_id m)
                    (sql_update (fun t => t_id t =? t_id m)
                                (lease_task worker now) rows) with
            | [] => None
            | r :: _ => Some (mkLease (t_id r) (t_item_id r) (t_attempts r))
            end
            = option_map
                (fun r => mkLease (t_id r) (t_item_id r) (t_attempts r + 1))
                (find (fun t => t_id t =? t_id m) rows)) as Hfirst.
  { induction rows as [|x rows IH]; [reflexivity|].
    cbn [sql_update map filter find] in *.
    destruct (t_id x =? t_id m) eqn:Hx.
    - cbn [lease_task t_id]. rewrite Hx. reflexivity.
    - rewrite Hx. apply IH. }
  rewrite Hfirst in Hrow. unfold find_task.
  destruct (find (fun t => t_id t =? t_id m) (tasks d)) as [r|] eqn:Hr;
    [|discriminate].
  cbn [option_map] in Hrow. injection Hrow as <-.
  apply find_some in Hr. destruct Hr as [_ Hr]. apply Z.eqb_eq in Hr.
  cbn [task_id item_id attempts].
  repeat split; try assumption. exists r. repeat split.
Qed.

Lemma acquire_proxy_stmt_some (locked : list Z) (worker : string) (now : Z)
    (d d' : DB) (l : ProxyLease) :
  acquire_proxy_stmt locked worker now d = inr (Some l, d') ->
  exists p,
    first_min p_uses_count (filter (proxy_candidate locked) (proxies d))
    = Some p
    /\ proxy l = p_proxy p
    /\ d' = set_proxies d (sql_update (fun x => String.eqb (p_proxy x)
                                                           (p_proxy p))
                                      (lease_proxy worker now) (proxies d)).
Proof.
  unfold acquire_proxy_stmt, select_available.
  destruct (first_min p_uses_count
              (filter (proxy_candidate locked) (proxies d)))
    as [m|] eqn:Hmin; cbn [option_map]; [|discriminate].
  intro H. injection H as Hrow <-.
  exists m. split; [reflexivity|]. split; [|reflexivity].
  destruct (filter (fun p => String.eqb (p_proxy p) (p_proxy m))
              (sql_update (fun p => String.eqb (p_proxy p) (p_proxy m))
                          (lease_proxy worker now) (proxies d)))
    as [|r rs] eqn:Hf; [discriminate|].
  injection Hrow as <-. cbn [proxy].
  assert (In r (r :: rs)) as Hr by now left.
  rewrite <- Hf in Hr. apply filter_In in Hr. destruct Hr as [_ Hr].
  now apply String.eqb_eq in Hr.
Qed.






(** No task is leased twice in a row: the task handed out by one
    [acquire_task] is not the one handed out by the next, whoever calls
    and whatever the faults. *)
Theorem acquire_task_twice_differs (cfg1 cfg2 : Config)
    (locked1 locked2 : list Z) (w1 w2 : string) (now1 now2 : Z)
    (sc1 sc2 : script) (d d1 d2 : DB) (a b : TaskLease) :
  acquire_task cfg1 locked1 w1 now1 sc1 d = (Return (Some a), d1) ->
  acquire_task cfg2 locked2 w2 now2 sc2 d1 = (Return (Some b), d2) ->
  task_id a <> task_id b.
Proof.
  intros H1 H2. unfold acquire_task in *.
  apply retry_raise_some in H1. apply retry_raise_some in H2.
  apply acquire_task_stmt_some in H1. apply acquire_task_stmt_some in H2.
  destruct H1 as (t & _ & Ha & -> & _).
  destruct H2 as (u & Hu & Hb & _).
  rewrite Ha, Hb. intro Heq.
  apply first_min_least in Hu. destruct Hu as [Hu _].
  apply filter_In in Hu. destruct Hu as [Hu Hc].
  apply task_candidate_iff in Hc. destruct Hc as [Hs _].
  cbn [tasks set_tasks] in Hu. unfold sql_update in Hu.
  apply in_map_iff in Hu. destruct Hu as (x & Hx & _).
  destruct (Z.eqb_spec (t_id x) (t_id t)) as [Hxt|Hxt].
  - subst u. discriminate.
  - subst u. congruence.
Qed.

Lemma acquire_task_twice_differs_witness : 2 <> 1.
Proof.
  refine (acquire_task_twice_differs default_config default_config [] []
            Samples.slot0 Samples.slot1 100 101 [] [] Samples.db_tie _ _
            (mkLease 2 501 1) (mkLease 1 500 2) _ _);
    reflexivity.
Defined.

(** No proxy is leased twice in a row either. *)
Theorem acquire_proxy_twice_differs (cfg1 cfg2 : Config)
    (locked1 locked2 : list Z) (w1 w2 : string) (now1 now2 : Z)
    (sc1 sc2 : script) (d d1 d2 : DB) (a b : ProxyLease) :
  acquire_proxy cfg1 locked1 w1 now1 sc1 d = (Return (Some a), d1) ->
  acquire_proxy cfg2 locked2 w2 now2 sc2 d1 = (Return (Some b), d2) ->
  proxy a <> proxy b.
Proof.
  intros H1 H2. unfold acquire_proxy in *.
  apply retry_raise_some in H1. apply retry_raise_some in H2.
  apply acquire_proxy_stmt_some in H1. apply acquire_proxy_stmt_some in H2.
  destruct H1 as (t & _ & Ha & ->).
  destruct H2 as (u & Hu & Hb & _).
  rewrite Ha, Hb. intro Heq.
  apply first_min_least in Hu. destruct Hu as [Hu _].
  apply filter_In in Hu. destruct Hu as [Hu Hc].
  apply proxy_candidate_iff in Hc. destruct Hc as [Hs _].
  cbn [proxies set_proxies] in Hu. unfold sql_update in Hu.
  apply in_map_iff in Hu. destruct Hu as (x & Hx & _).
  destruct (String.eqb_spec (p_proxy x) (p_proxy t)) as [Hxt|Hxt].
  - subst u. discriminate.
  - subst u. congruence.
Qed.

(* ------------------------------------------------------------------ *)
(** * Upserts *)

Lemma find_appended {R : Type} (f : R -> bool) (l1 l2 : list R) :
  find f (l1 ++ l2)
  = match find f l1 with Some x => Some x | None => find f l2 end.
Proof.
  induction l1 as [|x l1 IH]; [reflexivity|].
  cbn [app find]. now destruct (f x).
Qed.

Lemma find_absent (item : Z) (rows : list ResultRow) :
  find (fun x => r_item_id x =? item) rows = None
  <-> ~ In item (map r_item_id rows).
Proof.
  induction rows as [|x rows IH]; cbn [find map In]; [tauto|].
  destruct (r_item_id x =? item) eqn:Hx.
  - apply Z.eqb_eq in Hx. split; [discriminate|]. intro H. elim H. now left.
  - apply Z.eqb_neq in Hx. rewrite IH. tauto.
Qed.

Section Upsert.
Variable item : Z.
Variable row : ResultRow.
Hypothesis row_item : r_item_id row = item.

Let hit (x : ResultRow) : bool := r_item_id x =? item.

Lemma find_overwritten (rows : list ResultRow) :
  find hit (sql_update hit (fun _ => row) rows)
  = option_map (fun _ => row) (find hit rows).
Proof.
  induction rows as [|x rows IH]; [reflexivity|].
  cbn [sql_update map find]. destruct (hit x) eqn:Hx.
  - unfold hit at 1. rewrite row_item, Z.eqb_refl. reflexivity.
  - rewrite Hx. apply IH.
Qed.

Lemma find_other_overwritten (other : Z) (rows : list ResultRow) :
  other <> item ->
  find (fun x => r_item_id x =? other) (sql_update hit (fun _ => row) rows)
  = find (fun x => r_item_id x =? other) rows.
Proof.
  intro Hne. induction rows as [|x rows IH]; [reflexivity|].
  cbn [sql_update map find]. destruct (hit x) eqn:Hx.
  - unfold hit in Hx. apply Z.eqb_eq in Hx.
    rewrite row_item.
    replace (item =? other) with false by (symmetry; apply Z.eqb_neq; lia).
    replace (r_item_id x =? other) with false
      by (symmetry; apply Z.eqb_neq; lia).
    apply IH.
  - destruct (r_item_id x =? other); [reflexivity | apply IH].
Qed.

Lemma items_overwritten (rows : list ResultRow) :
  map r_item_id (sql_update hit (fun _ => row) rows) = map r_item_id rows.
Proof.
  induction rows as [|x rows IH]; [reflexivity|].
  cbn [sql_update map]. f_equal; [|apply IH].
  destruct (hit x) eqn:Hx; [|reflexivity].
  unfold hit in Hx. apply Z.eqb_eq in Hx. now rewrite row_item.
Qed.

Lemma overwritten_twice (rows : list ResultRow) :
  sql_update hit (fun _ => row) (sql_update hit (fun _ => row) rows)
  = sql_update hit (fun _ => row) rows.
Proof.
  unfold sql_update. rewrite map_map. apply map_ext. intro x.
  destruct (hit x) eqn:Hx; [|now rewrite Hx].
  unfold hit at 1. now rewrite row_item, Z.eqb_refl.
Qed.

Lemma overwritten_rows (rows : list ResultRow) (x : ResultRow) :
  In x (sql_update hit (fun _ => row) rows) -> hit x = true -> x = row.
Proof.
  unfold sql_update. intros Hin Hx. apply in_map_iff in Hin.
  destruct Hin as (y & Hy & _). destruct (hit y) eqn:E; [now subst|].
  subst y. congruence.
Qed.

End Upsert.

(** [save_result_to_db] is an upsert keyed by [item_id]: after it the row of
    the item holds exactly what was saved (every column overwritten), the
    rows of the other items are as before, item ids that were unique stay
    unique, no other table changes, and saving the same result again at the
    same time changes nothing. *)
Theorem save_result_upserts (cfg : Config) (r : ResultDict) (now : Z)
    (pre : list exn) (rest : script) (d : DB) (worker : string) (att : Z) :
  Z.of_nat (List.length pre) < DB_RETRY_ATTEMPTS cfg ->
  rd_worker_id r = Some worker ->
  rd_attempts r = Some att ->
  let sc := map Some pre ++ None :: rest in
  let out := save_result_to_db cfg r now sc d in
  let row := mkResultRow (rd_item_id r) (rd_content r) (rd_status r)
                         (rd_failure_reason r) worker att now in
  fst out = Return (Some true)
  /\ find_result (rd_item_id r) (snd out) = Some row
  /\ (forall x, In x (results (snd out)) ->
                r_item_id x = rd_item_id r -> x = row)
  /\ (forall other, other <> rd_item_id r ->
                    find_result other (snd out) = find_result other d)
  /\ (NoDup (map r_item_id (results d)) ->
      NoDup (map r_item_id (results (snd out))))
  /\ tasks (snd out) = tasks d
  /\ proxies (snd out) = proxies d
  /\ workers (snd out) = workers d
  /\ snd (save_result_to_db cfg r now sc (snd out)) = snd out.
Proof.
  intros Hpre Hw Ha sc out row. subst sc out.
  assert (forall d0,
            save_result_stmt r now d0
            = inr (Some true,
                   set_results d0
                     (match find_result (rd_item_id r) d0 with
                      | Some _ =>
                          sql_update (fun x => r_item_id x =? rd_item_id r)
                                     (fun _ => row) (results d0)
                      | None => results d0 ++ [row]
                      end))) as Hstmt.
  { intro d0. unfold save_result_stmt. rewrite Hw, Ha.
    fold row. unfold result_row. fold row.
    now destruct (find_result (rd_item_id r) d0). }
  unfold save_result_to_db, retry_bool.
  rewrite (retry_succeeds _ _ _ _ pre rest d _ _ Hpre (Hstmt d)).
  cbn [fst snd].
  rewrite (retry_succeeds _ _ _ _ pre rest _ _ _ Hpre (Hstmt _)).
  cbn [snd].
  assert (r_item_id row = rd_item_id r) as Hrow by reflexivity.
  unfold find_result. cbn [results set_results tasks proxies workers].
  destruct (find (fun x => r_item_id x =? rd_item_id r) (results d))
    as [old|] eqn:Hfind.
  - split; [reflexivity|]. split.
    { rewrite (find_overwritten _ _ Hrow), Hfind. reflexivity. }
    split.
    { intros x Hin Hx. apply (overwritten_rows _ _ Hrow _ _ Hin).
      now apply Z.eqb_eq. }
    split.
    { intros other Hne. now apply find_other_overwritten. }
    split.
    { intro Hnd. now rewrite (items_overwritten _ _ Hrow). }
    repeat split.
    rewrite (find_overwritten _ _ Hrow), Hfind. cbn [option_map].
    unfold set_results. cbn [tasks proxies workers results].
    now rewrite (overwritten_twice _ _ Hrow).
  - assert (find (fun x => r_item_id x =? rd_item_id r)
                 (results d ++ [row]) = Some row) as Hnew.
    { rewrite find_appended, Hfind. cbn [find]. now rewrite Hrow, Z.eqb_refl. }
    split; [reflexivity|]. split; [assumption|]. split.
    { intros x Hin Hx. apply in_app_or in Hin. destruct Hin as [Hin|[<-|[]]];
        [|reflexivity].
      apply (find_absent (rd_item_id r)) in Hfind. elim Hfind.
      apply in_map_iff. now exists x. }
    split.
    { intros other Hne. rewrite find_appended.
      destruct (find (fun x => r_item_id x =? other) (results d));
        [reflexivity|].
      cbn [find]. rewrite Hrow.
      now replace (rd_item_id r =? other) with false
        by (symmetry; apply Z.eqb_neq; lia). }
    split.
    { intro Hnd. rewrite map_app. cbn [map]. rewrite Hrow.
      apply (find_absent (rd_item_id r)) in Hfind.
      apply NoDup_app; [assumption | repeat constructor; intros [] | ].
      intros y Hy [<-|[]]. contradiction. }
    repeat split.
    rewrite Hnew. unfold set_results. cbn [tasks proxies workers results].
    f_equal. unfold sql_update. rewrite map_app. cbn [map].
    rewrite Hrow, Z.eqb_refl. f_equal.
    apply (find_absent (rd_item_id r)) in Hfind.
    rewrite <- (map_id (results d)) at 2. apply map_ext_in.
    intros x Hx. destruct (Z.eqb_spec (r_item_id x) (rd_item_id r)) as [E|_];
      [|reflexivity].
    elim Hfind. apply in_map_iff. now exists x.
Qed.

Lemma save_result_upserts_witness :
  fst (save_result_to_db default_config Samples.parsed_card 100
         (map Some [Samples.down] ++ None :: []) Samples.db0)
  = Return (Some true).
Proof.
  refine (proj1 (save_result_upserts default_config Samples.parsed_card 100
                   [Samples.down] [] Samples.db0 Samples.slot0 1 _ _ _));
    [simpl; lia | reflexivity | reflexivity].
Defined.

(** A dictionary without ['worker_id'] or ['attempts'] (the error
    dictionaries of processor.py have neither) is never saved: each
    attempt raises [KeyError], [save_result_to_db] returns [False] (or
    falls off an empty loop) and the database is unchanged. *)
Theorem save_result_needs_keys (cfg : Config) (r : ResultDict) (now : Z)
    (sc : script) (d : DB) :
  rd_worker_id r = None \/ rd_attempts r = None ->
  snd (save_result_to_db cfg r now sc d) = d
  /\ (fst (save_result_to_db cfg r now sc d) = Return (Some false)
      \/ fst (save_result_to_db cfg r now sc d) = Return None).
Proof.
  intro Hkey.
  assert (exists e, save_result_stmt r now d = inl e) as [e He].
  { unfold save_result_stmt.
    destruct (rd_worker_id r) as [w|]; [|eexists; reflexivity].
    destruct (rd_attempts r) as [a|]; [|eexists; reflexivity].
    destruct Hkey; discriminate. }
  unfold save_result_to_db, retry_bool.
  destruct (retry_outcome (DB_RETRY_ATTEMPTS cfg)
              (fun _ => Return (Some false)) None (save_result_stmt r now)
              sc d) as [(e' & ->)|[->|(a & d' & Hb & _)]].
  - split; [reflexivity | now left].
  - split; [reflexivity | now right].
  - rewrite He in Hb. discriminate.
Qed.

Lemma save_result_needs_keys_witness :
  snd (save_result_to_db default_config Samples.blocked_403 100 []
         Samples.db0) = Samples.db0.
Proof.
  refine (proj1 (save_result_needs_keys default_config Samples.blocked_403
                   100 [] Samples.db0 _)).
  now left.
Defined.

(* ------------------------------------------------------------------ *)
(** * What every history keeps *)

Import Histories.

Lemma sql_update_Forall {R : Type} (P : R -> Prop) (cond : R -> bool)
    (set : R -> R) (rows : list R) :
  (forall r, P r -> cond r = true -> P (set r)) ->
  Forall P rows -> Forall P (sql_update cond set rows).
Proof.
  intros Hset Hrows. unfold sql_update. apply Forall_map.
  eapply Forall_impl; [|exact Hrows]. intros r Hr. cbv beta.
  destruct (cond r) eqn:Hc; [now apply Hset | assumption].
Qed.

Lemma sql_update_Forall2 {R : Type} (Q : R -> R -> Prop) (cond : R -> bool)
    (set : R -> R) (rows : list R) :
  (forall r, Q r r) ->
  (forall r, cond r = true -> Q r (set r)) ->
  Forall2 Q rows (sql_update cond set rows).
Proof.
  intros Hrefl Hset. induction rows as [|r rows IH]; [constructor|].
  cbn [sql_update map]. constructor; [|exact IH].
  destruct (cond r) eqn:Hc; [now apply Hset | apply Hrefl].
Qed.

Lemma Forall2_refl {R : Type} (Q : R -> R -> Prop) (rows : list R) :
  (forall r, Q r r) -> Forall2 Q rows rows.
Proof. intro H. induction rows; constructor; auto. Qed.

Lemma Forall2_trans {R : Type} (Q : R -> R -> Prop) :
  (forall a b c, Q a b -> Q b c -> Q a c) ->
  forall l1 l2 l3, Forall2 Q l1 l2 -> Forall2 Q l2 l3 -> Forall2 Q l1 l3.
Proof.
  intros Ht l1 l2 l3 H12. revert l3.
  induction H12 as [|a b l1 l2 Hab _ IH]; intros l3 H23;
    inversion H23; subst; constructor; eauto.
Qed.

(** A property of the database that each statement keeps is kept by each
    call, whatever the call returns or raises. *)
Ltac by_statement :=
  unfold acquire_task, acquire_proxy, release_proxy, mark_proxy_blocked,
    save_result_to_db, mark_task_completed, increment_task_attempts,
    increment_worker_stats, update_heartbeat, Cleanup.release_stuck_tasks,
    Cleanup.release_stuck_proxies, Cleanup.mark_dead_workers,
    Cleanup.fail_impossible_tasks, Cleanup.sweep, retry_bool;
  apply retry_keeps.

Ltac open_statement H :=
  unfold exec, acquire_task_stmt, acquire_proxy_stmt, save_result_stmt in H;
  repeat match type of H with
         | context [match ?x with _ => _ end] => destruct x
         end;
  try discriminate H; injection H as _ <-.

Lemma task_later_refl (t : Task) : task_later t t.
Proof. unfold task_later. repeat split; lia. Qed.

Lemma proxy_later_refl (p : Proxy) : proxy_later p p.
Proof. unfold proxy_later. repeat split; lia. Qed.

Lemma task_later_trans (a b c : Task) :
  task_later a b -> task_later b c -> task_later a c.
Proof. unfold task_later. intuition congruence || lia. Qed.

Lemma proxy_later_trans (a b c : Proxy) :
  proxy_later a b -> proxy_later b c -> proxy_later a c.
Proof. unfold proxy_later. intuition congruence || lia. Qed.

Section Calls.
Variable cfg : Config.
Variable jcfg : Cleanup.Config.

Lemma run_call_later (c : call) (now : Z) (sc : script) (d : DB) :
  Forall2 task_later (tasks d) (tasks (run_call cfg jcfg c now sc d))
  /\ Forall2 proxy_later (proxies d)
                         (proxies (run_call cfg jcfg c now sc d)).
Proof.
  pose (I := fun d' => Forall2 task_later (tasks d) (tasks d')
                       /\ Forall2 proxy_later (proxies d) (proxies d')).
  assert (I d) as Hd
    by (split; apply Forall2_refl;
        [apply task_later_refl | apply proxy_later_refl]).
  change (I (run_call cfg jcfg c now sc d)).
  assert (forall f g,
            (forall t, task_later t (f t)) ->
            (forall p, proxy_later p (g p)) ->
            forall ct cp,
              I (mkDB (sql_update ct f (tasks d)) (sql_update cp g (proxies d))
                      (workers d) (results d))) as Hrows.
  { intros f g Hf Hg ct cp. split; cbn [tasks proxies];
      apply sql_update_Forall2;
      auto using task_later_refl, proxy_later_refl. }
  assert (forall ws rs, I (mkDB (tasks d) (proxies d) ws rs)) as Hother
    by (intros; exact Hd).
  destruct c; cbn [run_call]; by_statement; try exact Hd;
    intros a d' H; open_statement H;
    unfold release_proxy_stmt, mark_proxy_blocked_stmt,
      mark_task_completed_stmt, increment_task_attempts_stmt,
      increment_worker_stats_stmt, update_heartbeat_stmt,
      set_tasks, set_proxies, set_workers, set_results;
    try exact Hd; try apply Hother;
    try (destruct (find_worker _ _); apply Hother).
  all: try (split; cbn [tasks proxies];
            [apply sql_update_Forall2 || apply Forall2_refl
            |apply sql_update_Forall2 || apply Forall2_refl];
            intros; unfold task_later, proxy_later, lease_task, lease_proxy,
              free_proxy, block_proxy, complete_task, give_back_task,
              Cleanup.unstick_task, Cleanup.fail_task; cbn;
            repeat split; lia).
Qed.
End Calls.

Section HistoryFacts.
Variable cfg : Config.
Variable jcfg : Cleanup.Config.

(** Whatever the workers and the janitor do, in any order and with any
    faults, no task or proxy row is added or removed: the rows after the
    history are, taken in a suitable order, later versions of the rows
    before it, one for one.  Each keeps its id, its [item_id] or proxy
    string, [max_attempts] and [created_at]; and [attempts], [uses_count]
    and [blocks_count] never go down.  Nothing is said of the order in
    which the table holds its rows. *)
Theorem history_keeps_rows (h : list event) (d : DB) :
  (exists ts, Permutation ts (tasks (run cfg jcfg h d))
              /\ Forall2 task_later (tasks d) ts)
  /\ (exists ps, Permutation ps (proxies (run cfg jcfg h d))
                 /\ Forall2 proxy_later (proxies d) ps).
Proof.
  assert (Forall2 task_later (tasks d) (tasks (run cfg jcfg h d))
          /\ Forall2 proxy_later (proxies d) (proxies (run cfg jcfg h d)))
    as [Ht Hp].
  { revert d. induction h as [|e h IH]; intro d; cbn [run].
    - split; apply Forall2_refl;
        [apply task_later_refl | apply proxy_later_refl].
    - destruct (run_call_later cfg jcfg (ev_call e) (ev_now e)
                  (ev_script e) d) as [Ht Hp].
      destruct (IH (run_call cfg jcfg (ev_call e) (ev_now e)
                      (ev_script e) d)) as [Ht' Hp'].
      split.
      + eapply Forall2_trans;
          [apply task_later_trans | exact Ht | exact Ht'].
      + eapply Forall2_trans;
          [apply proxy_later_trans | exact Hp | exact Hp']. }
  split.
  - exists (tasks (run cfg jcfg h d)).
    split; [apply Permutation_refl | exact Ht].
  - exists (proxies (run cfg jcfg h d)).
    split; [apply Permutation_refl | exact Hp].
Qed.

Lemma run_call_leases (c : call) (now : Z) (sc : script) (d : DB) :
  leases_ok d -> leases_ok (run_call cfg jcfg c now sc d).
Proof.
  intros [Ht Hp].
  assert (forall ct f, (forall t, task_lease_ok (f t)) ->
            Forall task_lease_ok (sql_update ct f (tasks d))) as Htasks
    by (intros; apply sql_update_Forall; auto).
  assert (forall cp g, (forall p, proxy_lease_ok (g p)) ->
            Forall proxy_lease_ok (sql_update cp g (proxies d))) as Hproxies
    by (intros; apply sql_update_Forall; auto).
  destruct c; cbn [run_call]; by_statement; try (split; assumption);
    intros a d' H; open_statement H;
    unfold release_proxy_stmt, mark_proxy_blocked_stmt,
      mark_task_completed_stmt, increment_task_attempts_stmt,
      increment_worker_stats_stmt, update_heartbeat_stmt,
      set_tasks, set_proxies, set_workers, set_results;
    try (destruct (find_worker _ _));
    split; cbn [tasks proxies]; try assumption;
    (apply Htasks || apply Hproxies); intro x;
    unfold task_lease_ok, proxy_lease_ok, lease_task, lease_proxy,
      free_proxy, block_proxy, complete_task, give_back_task,
      Cleanup.unstick_task, Cleanup.fail_task; cbn;
    try (destruct (t_attempts x >=? t_max_attempts x));
    repeat split; intros; congruence.
Qed.

(** Whatever the workers and the janitor do, in any order and with any
    faults, every [processing] task names its holder and the time of its
    lease, every [pending] task names neither, every [locked] proxy names
    its holder and the time of its lease and every [available] proxy names
    neither, provided this held at the start. *)
Theorem history_keeps_leases (h : list event) (d : DB) :
  leases_ok d -> leases_ok (run cfg jcfg h d).
Proof.
  revert d. induction h as [|e h IH]; intros d Hd; cbn [run];
    [assumption|].
  apply IH. now apply run_call_leases.
Qed.

End HistoryFacts.

Lemma history_keeps_leases_witness :
  leases_ok
    (run default_config Samples.unordered
       [mkEvent (AcquireTask [] Samples.slot1) 100 [];
        mkEvent (MarkProxyBlocked "p1:1000:u:x") 101 [];
        mkEvent ReleaseStuckTasks 5000 [Some Samples.down]]
       Samples.db0).
Proof.
  apply history_keeps_leases.
  unfold leases_ok, task_lease_ok, proxy_lease_ok. cbn.
  split; repeat (apply Forall_cons || apply Forall_nil); cbn;
    split; intro H; try discriminate H; split;
    (reflexivity || discriminate).
Defined.

Lemma later_same_ids (l1 l2 : list Task) :
  Forall2 task_later l1 l2 -> map t_id l2 = map t_id l1.
Proof.
  induction 1 as [|a b l1 l2 Hab _ IH]; [reflexivity|].
  cbn [map]. destruct Hab as [Hid _]. now rewrite Hid, IH.
Qed.

Lemma unique_id_row (rows : list Task) (a b : Task) :
  NoDup (map t_id rows) -> In a rows -> In b rows -> t_id a = t_id b ->
  a = b.
Proof.
  induction rows as [|x rows IH]; intros Hnd Ha Hb Hid; [destruct Ha|].
  cbn [map] in Hnd. inversion Hnd as [|? ? Hx Hnd']; subst.
  destruct Ha as [<-|Ha], Hb as [<-|Hb]; try reflexivity.
  - elim Hx. rewrite Hid. now apply in_map.
  - elim Hx. rewrite <- Hid. now apply in_map.
  - now apply IH.
Qed.

Section AttemptFacts.
Variable cfg : Config.
Variable jcfg : Cleanup.Config.

Lemma run_call_attempts (c : call) (now : Z) (sc : script) (d : DB) :
  c <> ReleaseStuckTasks ->
  NoDup (map t_id (tasks d)) ->
  Forall attempts_ok (tasks d) ->
  Forall attempts_ok (tasks (run_call cfg jcfg c now sc d)).
Proof.
  intros Hc Hnd Hok.
  assert (forall ct f,
            (forall t, attempts_ok t -> attempts_ok (f t)) ->
            Forall attempts_ok (sql_update ct f (tasks d))) as Htasks
    by (intros; apply sql_update_Forall; auto).
  destruct c; try congruence; cbn [run_call]; by_statement;
    try assumption; intros a d' H.
  - (* acquire_task *)
    unfold acquire_task_stmt, select_pending in H.
    destruct (first_min t_created_at
                (filter (task_candidate locked) (tasks d))) as [m|] eqn:Hmin;
      cbn [option_map] in H; injection H as _ <-; [|assumption].
    apply first_min_least in Hmin. destruct Hmin as [Hm _].
    apply filter_In in Hm. destruct Hm as [Hm Hcand].
    apply task_candidate_iff in Hcand. destruct Hcand as [Hpending _].
    cbn [tasks set_tasks]. unfold sql_update. apply Forall_map.
    apply Forall_forall. intros x Hx.
    pose proof (proj1 (Forall_forall _ _) Hok x Hx) as Hxok.
    destruct (Z.eqb_spec (t_id x) (t_id m)) as [Hid|_]; [|assumption].
    assert (x = m) by now apply (unique_id_row (tasks d)).
    subst x. destruct Hxok as [_ Hlt]. specialize (Hlt Hpending).
    unfold attempts_ok, lease_task; cbn. split; [lia | discriminate].
  - open_statement H; assumption.
  - open_statement H. assumption.
  - open_statement H. assumption.
  - open_statement H; assumption.
  - open_statement H. unfold mark_task_completed_stmt.
    cbn [tasks set_tasks]. apply Htasks. intros t [Hle _].
    unfold attempts_ok, complete_task; cbn. split; [lia | discriminate].
  - open_statement H. unfold increment_task_attempts_stmt.
    cbn [tasks set_tasks]. apply Htasks. intros t [Hle _].
    unfold attempts_ok, give_back_task; cbn. split; [lia|].
    destruct (Z.geb_spec (t_attempts t) (t_max_attempts t));
      [discriminate | intros _; lia].
  - open_statement H. assumption.
  - open_statement H. unfold update_heartbeat_stmt.
    now destruct (find_worker worker d).
  - open_statement H. assumption.
  - open_statement H. assumption.
  - open_statement H. cbn [tasks set_tasks]. apply Htasks. intros t [Hle _].
    unfold attempts_ok, Cleanup.fail_task; cbn. split; [lia | discriminate].
Qed.

(** Apart from the janitor's reclaiming of stuck tasks, nothing takes a
    task beyond its budget: when task ids are unique, and each task starts
    with [attempts <= max_attempts] and, if pending, [attempts <
    max_attempts], this holds after any history without
    [release_stuck_tasks], with any faults. *)
Theorem history_keeps_attempts (h : list event) (d : DB) :
  no_reclaim h ->
  NoDup (map t_id (tasks d)) ->
  Forall attempts_ok (tasks d) ->
  Forall attempts_ok (tasks (run cfg jcfg h d)).
Proof.
  revert d. induction h as [|e h IH]; intros d Hh Hnd Hok; cbn [run];
    [assumption|].
  inversion Hh as [|? ? He Hh']; subst.
  apply IH; [assumption | | now apply run_call_attempts].
  destruct (run_call_later cfg jcfg (ev_call e) (ev_now e) (ev_script e) d)
    as [Ht _].
  now rewrite (later_same_ids _ _ Ht).
Qed.

End AttemptFacts.

Lemma history_keeps_attempts_witness :
  Forall attempts_ok
    (tasks (run default_config Samples.unordered
              [mkEvent (IncrementTaskAttempts 1) 100 [];
               mkEvent (AcquireTask [] Samples.slot1) 101 []]
              Samples.db0)).
Proof.
  apply history_keeps_attempts.
  - repeat constructor; discriminate.
  - cbn. repeat constructor; cbn; intuition discriminate || lia.
  - unfold attempts_ok. repeat (apply Forall_cons || apply Forall_nil); cbn;
      split; intros; lia.
Defined.

(* ------------------------------------------------------------------ *)
(** * Heartbeats and counters *)

Lemma find_updated {R : Type} (c : R -> bool) (f : R -> R) (rows : list R) :
  (forall x, c x = true -> c (f x) = true) ->
  find c (sql_update c f rows) = option_map f (find c rows).
Proof.
  intro Hc. induction rows as [|x rows IH]; [reflexivity|].
  cbn [sql_update map find]. destruct (c x) eqn:Hx.
  - now rewrite (Hc x Hx).
  - rewrite Hx. apply IH.
Qed.

Lemma find_not_updated {R : Type} (c c' : R -> bool) (f : R -> R)
    (rows : list R) :
  (forall x, c x = true -> c' x = false /\ c' (f x) = false) ->
  find c' (sql_update c f rows) = find c' rows.
Proof.
  intro Hc. induction rows as [|x rows IH]; [reflexivity|].
  cbn [sql_update map find]. destruct (c x) eqn:Hx.
  - destruct (Hc x Hx) as [-> ->]. apply IH.
  - destruct (c' x); [reflexivity | apply IH].
Qed.

(** [update_heartbeat] registers or revives: after it a row of the worker
    exists; if one existed, no row is added and that row is [active] with
    [last_heartbeat] at now and its counters and [started_at] kept, so a
    worker the janitor had stopped is active again; if none existed,
    exactly one row is added; the rows of the other workers and the other
    tables are untouched. *)
Theorem update_heartbeat_registers (cfg : Config) (worker : string)
    (now : Z) (pre : list exn) (rest : script) (d : DB) :
  Z.of_nat (List.length pre) < DB_RETRY_ATTEMPTS cfg ->
  let out := update_heartbeat cfg worker now
                              (map Some pre ++ None :: rest) d in
  fst out = Return (Some true)
  /\ (exists r', find_worker worker (snd out) = Some r'
                 /\ w_worker_id r' = worker)
  /\ (forall r, find_worker worker d = Some r ->
        find_worker worker (snd out)
        = Some (mkWorker (w_worker_id r) Active now (w_tasks_processed r)
                         (w_tasks_failed r) (w_started_at r))
        /\ List.length (workers (snd out)) = List.length (workers d))
  /\ (find_worker worker d = None ->
      List.length (workers (snd out)) = S (List.length (workers d)))
  /\ (forall other, other <> worker ->
        find_worker other (snd out) = find_worker other d)
  /\ tasks (snd out) = tasks d
  /\ proxies (snd out) = proxies d
  /\ results (snd out) = results d.
Proof.
  intros Hpre out. subst out. unfold update_heartbeat.
  rewrite retry_bool_exec by assumption. cbn [fst snd].
  unfold update_heartbeat_stmt, find_worker.
  destruct (find (fun r => String.eqb (w_worker_id r) worker) (workers d))
    as [r0|] eqn:Hfind; cbn [workers set_workers tasks proxies results].
  - assert (find (fun r => String.eqb (w_worker_id r) worker)
              (sql_update (fun w => String.eqb (w_worker_id w) worker)
                          (beat now) (workers d))
            = Some (beat now r0)) as Hnew
      by (rewrite find_updated, Hfind; [reflexivity | now intros x Hx]).
    split; [reflexivity|]. split.
    { exists (beat now r0). split; [assumption|].
      apply find_some in Hfind. destruct Hfind as [_ Hfind].
      now apply String.eqb_eq in Hfind. }
    split.
    { intros r Hr. injection Hr as <-. split; [assumption|].
      apply sql_update_length. }
    split; [discriminate|]. split; [|repeat split].
    intros other Hne. apply find_not_updated. intros x Hx.
    apply String.eqb_eq in Hx. cbn [beat w_worker_id]. rewrite Hx.
    split; apply String.eqb_neq; congruence.
  - split; [reflexivity|]. split.
    { exists (new_worker worker now). split; [|reflexivity].
      rewrite find_appended, Hfind. cbn [find new_worker w_worker_id].
      now rewrite String.eqb_refl. }
    split; [discriminate|]. split.
    { intros _. rewrite length_app. cbn [List.length]. lia. }
    split; [|repeat split].
    intros other Hne. rewrite find_appended.
    destruct (find (fun r => String.eqb (w_worker_id r) other) (workers d));
      [reflexivity|].
    cbn [find new_worker w_worker_id].
    now replace (String.eqb worker other) with false
      by (symmetry; apply String.eqb_neq; congruence).
Qed.

Lemma update_heartbeat_registers_witness :
  fst (update_heartbeat default_config Samples.slot0 200
         (map Some [Samples.down] ++ None :: []) Samples.db0)
  = Return (Some true).
Proof.
  refine (proj1 (update_heartbeat_registers default_config Samples.slot0 200
                   [Samples.down] [] Samples.db0 _)).
  simpl. lia.
Defined.



(* ------------------------------------------------------------------ *)
(** * What the slot loop never does *)

Import Behaviour.

Lemma never_raises_ret {A} (a : A) : never_raises (Worker.ret a).
Proof. intro s. now exists a. Qed.

Lemma never_raises_log_event (event : string) :
  never_raises (Worker.log_event event).
Proof. intro s. now exists tt. Qed.

Lemma never_raises_assign (pg : bool) (cp : option string) :
  never_raises (Worker.assign pg cp).
Proof. intro s. now exists tt. Qed.

Lemma never_raises_bind {A B} (m : Worker.M A) (k : A -> Worker.M B) :
  never_raises m -> (forall a, never_raises (k a)) ->
  never_raises (Worker.bind m k).
Proof.
  intros Hm Hk s. unfold Worker.bind. destruct (Hm s) as [a Ha].
  destruct (m s) as [r s']. cbn [fst] in Ha. subst r. apply Hk.
Qed.

Lemma never_raises_try_except {A} (m : Worker.M A)
    (h : exn -> Worker.M A) :
  (forall e, never_raises (h e)) -> never_raises (Worker.try_except m h).
Proof.
  intros Hh s. unfold Worker.try_except.
  destruct (m s) as [[a|e] s']; [now exists a | apply Hh].
Qed.

Lemma never_raises_db_call_bool
    (f : Worker.Slot -> script -> DB -> res (option bool) * DB) :
  (forall s sc d, exists b, fst (f s sc d) = Return b) ->
  never_raises (Worker.db_call f).
Proof.
  intros Hf s. unfold Worker.db_call.
  destruct (Hf s (hd [] (Worker.scripts s)) (Worker.db s)) as [b Hb].
  destruct (f s (hd [] (Worker.scripts s)) (Worker.db s)) as [r d'].
  cbn [fst] in *. subst r. now exists b.
Qed.

Section NeverRaises.
Variable cfg : Config.
Variable worker : string.

Lemma with_proxy_returns
    (f : string -> script -> DB -> res (option bool) * DB)
    (cp : option string) (sc : script) (d : DB) :
  (forall p sc d, exists b, fst (f p sc d) = Return b) ->
  exists b, fst (Worker.with_proxy cfg f cp sc d) = Return b.
Proof.
  intro Hf. destruct cp as [p|]; cbn [Worker.with_proxy];
    [apply Hf | apply retry_bool_returns].
Qed.

Lemma give_back_never_raises (task : TaskLease) :
  never_raises
    (Worker.bind (Worker.log_event "worker_error")
       (fun _ => Worker.bind
          (Worker.db_call
             (fun _ => increment_task_attempts cfg (task_id task)))
          (fun _ => Worker.bind
             (Worker.db_call
                (fun _ => increment_worker_stats cfg worker false))
             (fun _ => Worker.ret tt)))).
Proof.
  repeat (apply never_raises_bind; [|intro]);
    auto using never_raises_log_event, never_raises_ret;
    apply never_raises_db_call_bool; intros;
    unfold increment_task_attempts, increment_worker_stats;
    apply retry_bool_returns.
Qed.

(** A turn of the loop never raises: whatever [process_item] returns or
    raises and whatever the database and the browser do, the handler of
    the inner [try] ends the turn normally. *)
Theorem process_task_never_raises (task : TaskLease)
    (outcome : res ResultDict) (s : Worker.Slot) :
  fst (Worker.process_task cfg worker task outcome s) = Return tt.
Proof.
  destruct (never_raises_try_except
              (Worker.try_body cfg worker task outcome)
              _ (fun _ => give_back_never_raises task) s) as [[] H].
  exact H.
Qed.

(** [register_worker] cannot fail on the database: it returns [True] as
    soon as [DB_RETRY_ATTEMPTS] allows one attempt, whatever the heartbeat
    met, and [False] only when the loop has no iteration. *)
Theorem register_worker_result (s : Worker.Slot) :
  fst (Worker.register_worker cfg worker s)
  = Return (1 <=? DB_RETRY_ATTEMPTS cfg).
Proof.
  unfold Worker.register_worker.
  destruct (Z.to_nat (DB_RETRY_ATTEMPTS cfg)) as [|fuel] eqn:Hfuel.
  - replace (1 <=? DB_RETRY_ATTEMPTS cfg) with false
      by (symmetry; apply Z.leb_gt; lia).
    reflexivity.
  - replace (1 <=? DB_RETRY_ATTEMPTS cfg) with true
      by (symmetry; apply Z.leb_le; lia).
    cbn [Worker.register_from].
    unfold Worker.bind at 1. unfold Worker.try_except.
    unfold Worker.bind at 1. unfold Worker.db_call.
    destruct (retry_bool_returns cfg
                (exec (update_heartbeat_stmt worker (Worker.now s)))
                (hd [] (Worker.scripts s)) (Worker.db s)) as [b Hb].
    unfold update_heartbeat.
    destruct (retry_bool cfg
                (exec (update_heartbeat_stmt worker (Worker.now s)))
                (hd [] (Worker.scripts s)) (Worker.db s)) as [r d'].
    cbn [fst] in Hb. subst r. reflexivity.
Qed.

End NeverRaises.

Section LoopEnds.
Variable cfg : Config.
Variable worker : string.

Lemma release_proxy_returns (now : Z) (p : string) (sc : script) (d : DB) :
  exists b, fst (release_proxy cfg now p sc d) = Return b.
Proof. apply retry_bool_returns. Qed.

(** The [finally] clause of [worker_loop] never raises and its last act is
    to log the shutdown. *)
Lemma shutdown_clause (s : Worker.Slot) :
  exists s',
    (Worker.bind
       (fun s => if Worker.page s then Worker.cleanup_playwright s
                 else Worker.ret tt s)
       (fun _ => Worker.bind
          (fun s =>
             match Worker.current_proxy s with
             | Some p =>
                 if Proxies.truthy p
                 then Worker.bind
                        (Worker.db_call
                           (fun s => release_proxy cfg (Worker.now s) p))
                        (fun _ => Worker.ret tt) s
                 else Worker.ret tt s
             | None => Worker.ret tt s
             end)
          (fun _ => Worker.log_event "worker_shutdown"))) s
    = (Return tt, s')
    /\ exists l, Worker.log s' = l ++ ["worker_shutdown"].
Proof.
  unfold Worker.bind at 1.
  assert ((if Worker.page s then Worker.cleanup_playwright s
           else Worker.ret tt s) = (Return tt, s)) as ->
    by (now destruct (Worker.page s)).
  unfold Worker.bind at 1.
  assert (exists s1,
            match Worker.current_proxy s with
            | Some p =>
                if Proxies.truthy p
                then Worker.bind
                       (Worker.db_call
                          (fun s => release_proxy cfg (Worker.now s) p))
                       (fun _ => Worker.ret tt) s
                else Worker.ret tt s
            | None => Worker.ret tt s
            end = (Return tt, s1)) as [s1 ->].
  { destruct (Worker.current_proxy s) as [p|]; [|now exists s].
    destruct (Proxies.truthy p); [|now exists s].
    unfold Worker.bind, Worker.db_call.
    destruct (release_proxy_returns (Worker.now s) p
                (hd [] (Worker.scripts s)) (Worker.db s)) as [b Hb].
    destruct (release_proxy cfg (Worker.now s) p (hd [] (Worker.scripts s))
                (Worker.db s)) as [r d']. cbn [fst] in Hb. subst r.
    eexists. reflexivity. }
  eexists. split; [reflexivity|]. cbn [Worker.log]. now eexists.
Qed.

(** [worker_loop] never raises, whatever the database, the browser and the
    pages do, and the last event it logs is [worker_shutdown]. *)
Theorem worker_loop_ends (turns : list Worker.Turn) (s : Worker.Slot) :
  fst (Worker.worker_loop cfg worker turns s) = Return tt
  /\ exists l,
       Worker.log (snd (Worker.worker_loop cfg worker turns s))
       = l ++ ["worker_shutdown"].
Proof.
  unfold Worker.worker_loop, Worker.try_finally.
  match goal with
  | |- context [Worker.try_except ?m ?h s] =>
      destruct (never_raises_try_except m h
                  (fun _ => never_raises_log_event "worker_fatal_error") s)
        as [[] Hm];
      destruct (Worker.try_except m h s) as [r s1]
  end.
  cbn [fst] in Hm. subst r.
  destruct (shutdown_clause s1) as (s2 & -> & l & Hl).
  cbn [fst snd]. split; [reflexivity | now exists l].
Qed.

End LoopEnds.

Lemma try_bind_raise {A B} (m : Worker.M A) (k : A -> Worker.M B)
    (h : exn -> Worker.M B) (s s' : Worker.Slot) (e : exn) :
  m s = (Raise e, s') ->
  Worker.try_except (Worker.bind m k) h s = h e s'.
Proof. intro H. unfold Worker.try_except, Worker.bind. now rewrite H. Qed.

Section ResultsUntouched.
Variable cfg : Config.
Variable worker : string.
Variable saved : list ResultRow.

Let same_results (d : DB) : Prop := results d = saved.

Lemma bool_call_keeps_results
    (f : Worker.Slot -> script -> DB -> res (option bool) * DB)
    (g : Worker.Slot -> DB -> DB) :
  (forall s, f s = retry_bool cfg (exec (g s))) ->
  (forall s d, results (g s d) = results d) ->
  keeps same_results (Worker.db_call f).
Proof.
  intros Hf Hg. apply keeps_db_call. intros s sc d Hd. rewrite Hf.
  apply retry_bool_exec_keeps; [|assumption].
  unfold same_results. now rewrite Hg.
Qed.

Lemma with_proxy_keeps_results
    (f : Worker.Slot -> string -> script -> DB -> res (option bool) * DB)
    (g : Worker.Slot -> string -> DB -> DB) :
  (forall s p, f s p = retry_bool cfg (exec (g s p))) ->
  (forall s p d, results (g s p d) = results d) ->
  keeps same_results
    (Worker.db_call
       (fun s => Worker.with_proxy cfg (f s) (Worker.current_proxy s))).
Proof.
  intros Hf Hg. apply keeps_db_call. intros s sc d Hd.
  destruct (Worker.current_proxy s) as [p|]; cbn [Worker.with_proxy].
  - rewrite Hf. apply retry_bool_exec_keeps; [|assumption].
    unfold same_results. now rewrite Hg.
  - now apply retry_bool_exec_keeps.
Qed.

Lemma init_playwright_keeps_results :
  keeps same_results (Worker.init_playwright cfg worker).
Proof.
  unfold Worker.init_playwright. apply keeps_bind.
  - apply keeps_db_call. intros s sc d Hd. unfold acquire_proxy.
    apply retry_keeps; [|assumption].
    intros a d' H. unfold acquire_proxy_stmt in H.
    destruct (select_available (Worker.proxy_locks s) d);
      injection H as _ <-; assumption.
  - intros [lease|]; [|apply keeps_raise].
    repeat (apply keeps_bind; intros);
      auto using keeps_lift, keeps_launch_browser, keeps_log_event, keeps_ret.
Qed.

Lemma give_back_keeps_results (task : TaskLease) :
  keeps same_results
    (Worker.bind
       (Worker.db_call (fun _ => increment_task_attempts cfg (task_id task)))
       (fun _ => Worker.bind
          (Worker.db_call (fun _ => increment_worker_stats cfg worker false))
          (fun _ => Worker.ret tt))).
Proof.
  apply keeps_bind; [|intros _; apply keeps_bind; [|intros _; apply keeps_ret]].
  - apply (bool_call_keeps_results _
             (fun _ => increment_task_attempts_stmt (task_id task)));
      reflexivity.
  - apply (bool_call_keeps_results _
             (fun _ => increment_worker_stats_stmt worker false));
      reflexivity.
Qed.

Lemma turn_keeps_results (task : TaskLease) (outcome : res ResultDict) :
  (forall r, outcome = Return r -> rd_status r = Error) ->
  keeps same_results (Worker.process_task cfg worker task outcome).
Proof.
  intros Herr s Hs.
  assert (forall e : exn, keeps same_results
            (Worker.bind (Worker.log_event "worker_error")
               (fun _ => Worker.bind
                  (Worker.db_call
                     (fun _ => increment_task_attempts cfg (task_id task)))
                  (fun _ => Worker.bind
                     (Worker.db_call
                        (fun _ => increment_worker_stats cfg worker false))
                     (fun _ => Worker.ret tt))))) as Hh.
  { intros _. apply keeps_bind; [apply keeps_log_event|].
    intros _. apply give_back_keeps_results. }
  unfold Worker.process_task, Worker.try_body.
  destruct (Worker.page s) eqn:Hpage.
  - destruct outcome as [r|e].
    + erewrite try_bind_step
        by (cbv beta; rewrite Hpage; reflexivity).
      rewrite (Herr r eq_refl).
      revert s Hs Hpage. 
      match goal with
      | |- forall s, _ -> _ -> same_results (Worker.db (snd (?m s))) =>
          assert (keeps same_results m) as Hk; [|intros s Hs _; now apply Hk]
      end.
      apply keeps_try_except; [|intro e; exact (Hh e)].
      apply keeps_bind; [|intros _; apply give_back_keeps_results].
      destruct (rd_rotate_proxy r); [|apply keeps_ret].
      apply keeps_bind.
      { apply (with_proxy_keeps_results
                 (fun _ => mark_proxy_blocked cfg)
                 (fun _ p => mark_proxy_blocked_stmt p)); reflexivity. }
      intros _. apply keeps_bind; [apply keeps_ret|].
      intros _. apply keeps_bind.
      { apply (with_proxy_keeps_results
                 (fun s => release_proxy cfg (Worker.now s))
                 (fun s p => release_proxy_stmt (Worker.now s) p));
          reflexivity. }
      intros _. apply keeps_bind; [apply keeps_assign|].
      intros _. apply keeps_bind; [apply init_playwright_keeps_results|].
      intro. apply keeps_assign.
    + erewrite try_bind_raise
        by (cbv beta; rewrite Hpage; reflexivity).
      now apply (Hh e).
  - erewrite try_bind_raise
      by (cbv beta; rewrite Hpage; reflexivity).
    now apply (Hh (AttributeError "goto")).
Qed.

End ResultsUntouched.

(** A turn writes a row of [results] only for a result to save: when
    [process_item] raises or returns an error dictionary, with or without
    rotation, the table [results] is after the turn what it was before,
    whatever the faults. *)
Theorem error_turn_writes_no_result (cfg : Config) (worker : string)
    (task : TaskLease) (outcome : res ResultDict) (s : Worker.Slot) :
  (forall r, outcome = Return r -> rd_status r = Error) ->
  results (Worker.db (snd (Worker.process_task cfg worker task outcome s)))
  = results (Worker.db s).
Proof.
  intro Herr.
  now apply (turn_keeps_results cfg worker (results (Worker.db s)) task
               outcome Herr s).
Qed.

Lemma error_turn_writes_no_result_witness :
  results
    (Worker.db
       (snd (Worker.process_task default_config Samples.slot0 Samples.lease1
               (Return Samples.blocked_403)
               (Samples.running Samples.db0 []))))
  = results (Worker.db (Samples.running Samples.db0 [])).
Proof.
  apply error_turn_writes_no_result.
  intros r H. now injection H as <-.
Defined.

Section Startup.
Variable cfg : Config.
Variable worker : string.
Hypothesis one_attempt : 1 <= DB_RETRY_ATTEMPTS cfg.

(** With at least one attempt allowed, [register_worker] makes one call to
    [update_heartbeat] and logs the registration. *)
Lemma register_worker_step (s : Worker.Slot) :
  Worker.register_worker cfg worker s
  = (Return true,
     Worker.mkSlot
       (snd (update_heartbeat cfg worker (Worker.now s)
               (hd [] (Worker.scripts s)) (Worker.db s)))
       (Worker.now s) (tl (Worker.scripts s)) (Worker.launches s)
       (Worker.task_locks s) (Worker.proxy_locks s)
       (Worker.log s ++ ["worker_registered"]) (Worker.page s)
       (Worker.current_proxy s)).
Proof.
  unfold Worker.register_worker.
  destruct (Z.to_nat (DB_RETRY_ATTEMPTS cfg)) as [|fuel] eqn:Hfuel; [lia|].
  cbn [Worker.register_from].
  unfold Worker.bind at 1. unfold Worker.try_except.
  unfold Worker.bind at 1. unfold Worker.db_call.
  destruct (retry_bool_returns cfg
              (exec (update_heartbeat_stmt worker (Worker.now s)))
              (hd [] (Worker.scripts s)) (Worker.db s)) as [b Hb].
  unfold update_heartbeat in *.
  destruct (retry_bool cfg
              (exec (update_heartbeat_stmt worker (Worker.now s)))
              (hd [] (Worker.scripts s)) (Worker.db s)) as [r d'].
  cbn [fst] in Hb. subst r. reflexivity.
Qed.

(** A proxy leased at startup is lost to the slot when the browser does
    not come up: if the proxy string of the lease is not of the form
    [parse_proxy] accepts, or the launch raises, [worker_loop] ends with
    the database as [acquire_proxy] left it, that is with the proxy still
    locked in the name of the slot, and with nothing in [current_proxy]
    for the [finally] clause to release. *)
Theorem startup_failure_keeps_proxy_locked (d d2 : DB) (now : Z)
    (sc1 sc2 : script) (more : list script) (launches : list (option exn))
    (tlocks plocks : list Z) (turns : list Worker.Turn) (l : ProxyLease) :
  acquire_proxy cfg plocks worker now sc2
    (snd (update_heartbeat cfg worker now sc1 d))
  = (Return (Some l), d2) ->
  raises (Proxies.parse_proxy (proxy l)) = true
  \/ (exists e rest, launches = Some e :: rest) ->
  let s' := snd (Worker.worker_loop cfg worker turns
                   (fresh_slot d now (sc1 :: sc2 :: more) launches tlocks
                               plocks)) in
  Worker.db s' = d2
  /\ Worker.current_proxy s' = None
  /\ Worker.log s'
     = ["worker_start"; "worker_registered"; "worker_fatal_error";
        "worker_shutdown"]
  /\ exists p, In p (proxies d2)
               /\ p_proxy p = proxy l
               /\ p_status p = Locked
               /\ p_locked_by p = Some worker.
Proof.
  intros Hacq Hfail s'.
  assert (exists p, In p (proxies d2)
                    /\ p_proxy p = proxy l
                    /\ p_status p = Locked
                    /\ p_locked_by p = Some worker) as Hlocked.
  { unfold acquire_proxy in Hacq. apply retry_raise_some in Hacq.
    apply acquire_proxy_stmt_some in Hacq.
    destruct Hacq as (p & Hmin & Hp & ->).
    apply first_min_least in Hmin. destruct Hmin as [Hin _].
    apply filter_In in Hin. destruct Hin as [Hin _].
    exists (lease_proxy worker now p). cbn [proxies set_proxies].
    repeat split; try (now symmetry).
    unfold sql_update. apply in_map_iff. exists p.
    now rewrite String.eqb_refl. }
  pose (s2 := Worker.mkSlot (snd (update_heartbeat cfg worker now sc1 d)) now
                 (sc2 :: more) launches tlocks plocks
                 ["worker_start"; "worker_registered"] false None).
  assert (exists e s3,
            Worker.init_playwright cfg worker s2 = (Raise e, s3)
            /\ Worker.db s3 = d2
            /\ Worker.current_proxy s3 = None
            /\ Worker.page s3 = false
            /\ Worker.log s3 = ["worker_start"; "worker_registered"])
    as (e & s3 & Hinit & Hdb & Hcp & Hpage & Hlog).
  { unfold Worker.init_playwright.
    erewrite bind_step by (apply db_call_step; exact Hacq).
    cbn [Worker.set_db Worker.now Worker.scripts Worker.db Worker.launches
         Worker.task_locks Worker.proxy_locks Worker.log Worker.page
         Worker.current_proxy hd tl s2].
    unfold Worker.bind at 1. unfold Worker.lift.
    destruct (Proxies.parse_proxy (proxy l)) as [pc|e'] eqn:Hparse.
    - destruct Hfail as [Hp|(e & rest & ->)]; [discriminate|].
      unfold Worker.bind at 1. cbn [Worker.launch_browser Worker.launches].
      eexists. eexists. split; [reflexivity|]. repeat split.
    - eexists. eexists. split; [reflexivity|]. repeat split. }
  subst s'. unfold Worker.worker_loop, Worker.try_finally, fresh_slot.
  erewrite try_bind_step by reflexivity.
  erewrite try_bind_step by (apply register_worker_step).
  cbn [negb Worker.now Worker.scripts Worker.db Worker.launches
       Worker.task_locks Worker.proxy_locks Worker.log Worker.page
       Worker.current_proxy hd tl app].
  fold s2. erewrite try_bind_raise by exact Hinit.
  cbn [Worker.log_event].
  unfold Worker.bind at 1. cbn [Worker.page]. rewrite Hpage.
  cbn [Worker.ret]. unfold Worker.bind at 1.
  cbn [Worker.current_proxy]. rewrite Hcp. cbn [Worker.ret Worker.log_event].
  cbn [snd Worker.db Worker.current_proxy Worker.log].
  rewrite Hlog. repeat split; auto.
Qed.

End Startup.

Lemma startup_failure_keeps_proxy_locked_witness :
  Worker.current_proxy
    (snd (Worker.worker_loop default_config Samples.slot1 []
            (fresh_slot Samples.db0 100 ([] :: [] :: [])
                        [Some Samples.down] [] [])))
  = None.
Proof.
  refine (proj1 (proj2
    (startup_failure_keeps_proxy_locked default_config Samples.slot1 _
       Samples.db0 _ 100 [] [] [] [Some Samples.down] [] [] []
       (mkProxyLease 2 "p2:1000:u:x") _ _))).
  - cbn. lia.
  - vm_compute. reflexivity.
  - right. eexists. eexists. reflexivity.
Defined.

Lemma acquire_proxy_twice_differs_witness :
  "p2:1000:u:x" <> "p3:1000:u:x".
Proof.
  refine (acquire_proxy_twice_differs default_config default_config [] []
            Samples.slot0 Samples.slot1 100 101 [] [] Samples.db_two_free
            _ _ (mkProxyLease 2 "p2:1000:u:x") (mkProxyLease 3 "p3:1000:u:x")
            _ _);
    reflexivity.
Defined.

(* ------------------------------------------------------------------ *)
(** * The janitor's sweeps *)

Import Settled.

Lemma retry_no_fault {A : Type} (N : Z) (on_exhausted : exn -> res A)
    (fallthrough : A) (body : stmt A) (d d' : DB) (a : A) :
  1 <= N ->
  body d = inr (a, d') ->
  retry N on_exhausted fallthrough body [] d = (Return a, d').
Proof.
  intros HN Hb. unfold retry.
  destruct (Z.to_nat N) as [|fuel] eqn:Hfuel; [lia|].
  cbn [retry_from]. now rewrite Hb.
Qed.

Lemma sql_update_none {R : Type} (cond : R -> bool) (set : R -> R)
    (rows : list R) :
  Forall (fun r => cond r = false) rows -> sql_update cond set rows = rows.
Proof.
  intro H. unfold sql_update. rewrite <- (map_id rows) at 2.
  apply map_ext_in. intros r Hr.
  now rewrite (proj1 (Forall_forall _ _) H r Hr).
Qed.

Lemma sql_update_settles {R : Type} (cond : R -> bool) (set : R -> R)
    (rows : list R) :
  (forall r, cond (set r) = false) ->
  Forall (fun r => cond r = false) (sql_update cond set rows).
Proof.
  intro H. unfold sql_update. apply Forall_map. apply Forall_forall.
  intros r _. destruct (cond r) eqn:Hc; [apply H | exact Hc].
Qed.

Section Sweeps.
Variable cfg : Cleanup.Config.
Hypothesis one_attempt : 1 <= Cleanup.DB_RETRY_ATTEMPTS cfg.

(** The database after a cycle that meets no fault: the four UPDATEs in
    turn. *)
Lemma cleanup_cycle_db (d : DB) (now : Z) (n : nat) :
  Cleanup.db (Cleanup.cleanup_cycle cfg (Cleanup.mkRun d now [] n))
  = mkDB
      (sql_update Cleanup.impossible_task Cleanup.fail_task
         (sql_update (Cleanup.stuck_task cfg now) Cleanup.unstick_task
                     (tasks d)))
      (sql_update (Cleanup.stuck_proxy cfg now) (free_proxy now) (proxies d))
      (sql_update (Cleanup.dead_worker cfg now) Cleanup.stop_worker
                  (workers d))
      (results d).
Proof.
  unfold Cleanup.cleanup_cycle, Cleanup.call.
  cbn [Cleanup.now Cleanup.scripts Cleanup.db hd tl].
  unfold Cleanup.release_stuck_tasks, Cleanup.sweep.
  erewrite retry_no_fault by (try exact one_attempt; reflexivity).
  cbn [Cleanup.now Cleanup.scripts Cleanup.db hd tl].
  unfold Cleanup.release_stuck_proxies, Cleanup.sweep.
  erewrite retry_no_fault by (try exact one_attempt; reflexivity).
  cbn [Cleanup.now Cleanup.scripts Cleanup.db hd tl].
  unfold Cleanup.mark_dead_workers, Cleanup.sweep.
  erewrite retry_no_fault by (try exact one_attempt; reflexivity).
  cbn [Cleanup.now Cleanup.scripts Cleanup.db hd tl].
  unfold Cleanup.fail_impossible_tasks, Cleanup.sweep.
  erewrite retry_no_fault by (try exact one_attempt; reflexivity).
  reflexivity.
Qed.

(** After a cycle that reaches the database nothing is left to reclaim at
    that time: no [processing] task is older than [TASK_TIMEOUT], no
    [pending] task has used up its attempts (a task the first sweep gave
    back with no attempt left is failed by the last one), no [locked]
    proxy is older than [PROXY_TIMEOUT] and no [active] worker is silent
    for longer than [WORKER_TIMEOUT]; and a second cycle at the same time
    changes nothing. *)
Theorem cleanup_cycle_sweeps (d : DB) (now : Z) (n : nat) :
  let r1 := Cleanup.cleanup_cycle cfg (Cleanup.mkRun d now [] n) in
  swept cfg now (Cleanup.db r1)
  /\ Cleanup.db (Cleanup.cleanup_cycle cfg r1) = Cleanup.db r1.
Proof.
  intro r1.
  assert (swept cfg now (Cleanup.db r1)) as Hswept.
  { subst r1. rewrite cleanup_cycle_db. unfold swept.
    cbn [tasks proxies workers]. repeat split.
    - unfold sql_update. rewrite map_map. apply Forall_map.
      apply Forall_forall. intros t _. cbv beta.
      assert (forall x, Cleanup.stuck_task cfg now x = false ->
                Cleanup.stuck_task cfg now
                  (if Cleanup.impossible_task x then Cleanup.fail_task x
                   else x) = false
                /\ Cleanup.impossible_task
                     (if Cleanup.impossible_task x then Cleanup.fail_task x
                      else x) = false) as Hlast.
      { intros x Hx. destruct (Cleanup.impossible_task x) eqn:Hi;
          [split; reflexivity | now split]. }
      destruct (Cleanup.stuck_task cfg now t) eqn:Hs;
        apply Hlast; [reflexivity | exact Hs].
    - apply sql_update_settles. intro p. reflexivity.
    - apply sql_update_settles. intro w. reflexivity. }
  split; [exact Hswept|].
  destruct Hswept as (Ht & Hp & Hw).
  assert (r1 = Cleanup.mkRun (Cleanup.db r1) now [] (S n)) as Hafter.
  { subst r1. unfold Cleanup.cleanup_cycle, Cleanup.call.
    cbn [Cleanup.now Cleanup.scripts Cleanup.db hd tl Cleanup.cycles].
    repeat match goal with
           | |- context [let (_, _) := ?x in _] => destruct x
           end.
    reflexivity. }
  rewrite Hafter at 1. rewrite cleanup_cycle_db.
  rewrite (sql_update_none (Cleanup.stuck_task cfg now))
    by (eapply Forall_impl; [|exact Ht]; now intros t [H _]).
  rewrite (sql_update_none Cleanup.impossible_task)
    by (eapply Forall_impl; [|exact Ht]; now intros t [_ H]).
  rewrite (sql_update_none (Cleanup.stuck_proxy cfg now)) by exact Hp.
  rewrite (sql_update_none (Cleanup.dead_worker cfg now)) by exact Hw.
  now destruct (Cleanup.db r1).
Qed.

End Sweeps.

Lemma cleanup_cycle_sweeps_witness :
  swept Samples.unordered 5000
    (Cleanup.db (Cleanup.cleanup_cycle Samples.unordered
                   (Cleanup.mkRun Samples.db0 5000 [] 0))).
Proof.
  refine (proj1 (cleanup_cycle_sweeps Samples.unordered _ Samples.db0 5000
                   0%nat)).
  cbn. lia.
Defined.

Lemma task_settled_refl (t : Task) : task_settled t t.
Proof. unfold task_settled. repeat split. Qed.

Lemma proxy_settled_refl (p : Proxy) : proxy_settled p p.
Proof. unfold proxy_settled. repeat split. Qed.

Lemma task_settled_trans (a b c : Task) :
  task_settled a b -> task_settled b c -> task_settled a c.
Proof.
  unfold task_settled.
  intros (H1 & H2 & H3 & H4 & H5 & H6 & H7) (K1 & K2 & K3 & K4 & K5 & K6 & K7).
  repeat split; try congruence.
  intro Hs. specialize (H7 Hs). subst b. now apply K7.
Qed.

Lemma proxy_settled_trans (a b c : Proxy) :
  proxy_settled a b -> proxy_settled b c -> proxy_settled a c.
Proof.
  unfold proxy_settled.
  intros (H1 & H2 & H3 & H4 & H5) (K1 & K2 & K3 & K4 & K5).
  repeat split; try congruence.
  intro Hs. specialize (H5 Hs). subst b. now apply K5.
Qed.

(** The tables of two databases, row by row. *)
Lemma settled_refl (d : DB) :
  Forall2 task_settled (tasks d) (tasks d)
  /\ Forall2 proxy_settled (proxies d) (proxies d)
  /\ results d = results d.
Proof.
  repeat split; apply Forall2_refl;
    [apply task_settled_refl | apply proxy_settled_refl].
Qed.

Section JanitorLeaves.
Variable cfg : Cleanup.Config.

Lemma call_settled
    (f : Z -> script -> DB -> res (option Z) * DB) (r : Cleanup.Run) :
  (forall now sc d,
     Forall2 task_settled (tasks d) (tasks (snd (f now sc d)))
     /\ Forall2 proxy_settled (proxies d) (proxies (snd (f now sc d)))
     /\ results (snd (f now sc d)) = results d) ->
  Forall2 task_settled (tasks (Cleanup.db r))
          (tasks (Cleanup.db (Cleanup.call f r)))
  /\ Forall2 proxy_settled (proxies (Cleanup.db r))
             (proxies (Cleanup.db (Cleanup.call f r)))
  /\ results (Cleanup.db (Cleanup.call f r)) = results (Cleanup.db r)
  /\ Cleanup.now (Cleanup.call f r) = Cleanup.now r.
Proof.
  intro Hf. unfold Cleanup.call.
  specialize (Hf (Cleanup.now r) (hd [] (Cleanup.scripts r)) (Cleanup.db r)).
  destruct (f (Cleanup.now r) (hd [] (Cleanup.scripts r)) (Cleanup.db r)).
  cbn [snd Cleanup.db Cleanup.now] in *. tauto.
Qed.

Ltac sweep_statement :=
  intros now sc d;
  unfold Cleanup.release_stuck_tasks, Cleanup.release_stuck_proxies,
    Cleanup.mark_dead_workers, Cleanup.fail_impossible_tasks, Cleanup.sweep;
  apply (retry_keeps _ _ _ _
           (fun d' => Forall2 task_settled (tasks d) (tasks d')
                      /\ Forall2 proxy_settled (proxies d) (proxies d')
                      /\ results d' = results d));
  [intros a d' H; injection H as _ <-;
   cbn [tasks proxies results set_tasks set_proxies set_workers];
   repeat split;
   try (apply Forall2_refl;
        auto using task_settled_refl, proxy_settled_refl);
   apply sql_update_Forall2;
   auto using task_settled_refl, proxy_settled_refl
  | apply settled_refl].

Lemma cleanup_cycle_settled (r : Cleanup.Run) :
  Forall2 task_settled (tasks (Cleanup.db r))
          (tasks (Cleanup.db (Cleanup.cleanup_cycle cfg r)))
  /\ Forall2 proxy_settled (proxies (Cleanup.db r))
             (proxies (Cleanup.db (Cleanup.cleanup_cycle cfg r)))
  /\ results (Cleanup.db (Cleanup.cleanup_cycle cfg r))
     = results (Cleanup.db r).
Proof.
  unfold Cleanup.cleanup_cycle. cbn [Cleanup.db].
  destruct (call_settled (Cleanup.release_stuck_tasks cfg) r)
    as (T1 & P1 & R1 & _).
  { sweep_statement.
    intros t Hs. unfold Cleanup.stuck_task in Hs.
    apply andb_true_iff in Hs. destruct Hs as [Hs _].
    unfold task_settled, Cleanup.unstick_task; cbn. repeat split.
    intros [Hc|Hc]; rewrite Hc in Hs; discriminate. }
  set (r1 := Cleanup.call (Cleanup.release_stuck_tasks cfg) r) in *.
  destruct (call_settled (Cleanup.release_stuck_proxies cfg) r1)
    as (T2 & P2 & R2 & _).
  { sweep_statement.
    intros p Hs. unfold Cleanup.stuck_proxy in Hs.
    apply andb_true_iff in Hs. destruct Hs as [Hs _].
    unfold proxy_settled, free_proxy; cbn. repeat split.
    intro Hc. destruct (p_status p); try discriminate; now elim Hc. }
  set (r2 := Cleanup.call (Cleanup.release_stuck_proxies cfg) r1) in *.
  destruct (call_settled (Cleanup.mark_dead_workers cfg) r2)
    as (T3 & P3 & R3 & _).
  { sweep_statement. }
  set (r3 := Cleanup.call (Cleanup.mark_dead_workers cfg) r2) in *.
  destruct (call_settled (fun _ => Cleanup.fail_impossible_tasks cfg) r3)
    as (T4 & P4 & R4 & _).
  { sweep_statement.
    intros t Hs. unfold Cleanup.impossible_task in Hs.
    apply andb_true_iff in Hs. destruct Hs as [Hs _].
    unfold task_settled, Cleanup.fail_task; cbn. repeat split.
    intros [Hc|Hc]; rewrite Hc in Hs; discriminate. }
  repeat split.
  - eapply Forall2_trans; [apply task_settled_trans | | exact T4].
    eapply Forall2_trans; [apply task_settled_trans | | exact T3].
    eapply Forall2_trans; [apply task_settled_trans | exact T1 | exact T2].
  - eapply Forall2_trans; [apply proxy_settled_trans | | exact P4].
    eapply Forall2_trans; [apply proxy_settled_trans | | exact P3].
    eapply Forall2_trans; [apply proxy_settled_trans | exact P1 | exact P2].
  - congruence.
Qed.

(** However long the janitor runs and whatever faults it meets, it never
    writes [attempts], a row's identity, a counter of a proxy or the table
    [results]; it changes no completed or failed task and no proxy that
    is not locked: in particular it never makes a blocked proxy available
    again. *)
Theorem janitor_leaves_settled (waits : list bool) (r : Cleanup.Run) :
  Forall2 task_settled (tasks (Cleanup.db r))
          (tasks (Cleanup.db (Cleanup.sweep_loop cfg waits r)))
  /\ Forall2 proxy_settled (proxies (Cleanup.db r))
             (proxies (Cleanup.db (Cleanup.sweep_loop cfg waits r)))
  /\ results (Cleanup.db (Cleanup.sweep_loop cfg waits r))
     = results (Cleanup.db r).
Proof.
  revert r. induction waits as [|w waits IH]; intro r;
    cbn [Cleanup.sweep_loop]; [apply cleanup_cycle_settled|].
  destruct w; [apply cleanup_cycle_settled|].
  destruct (cleanup_cycle_settled r) as (T1 & P1 & R1).
  match goal with
  | |- context [Cleanup.sweep_loop cfg waits ?x] =>
      destruct (IH x) as (T2 & P2 & R2)
  end.
  cbn [Cleanup.db] in *. repeat split.
  - eapply Forall2_trans; [apply task_settled_trans | exact T1 | exact T2].
  - eapply Forall2_trans; [apply proxy_settled_trans | exact P1 | exact P2].
  - congruence.
Qed.

End JanitorLeaves.

(* ------------------------------------------------------------------ *)
(** * A lease and its release; an empty queue *)



Lemma acquire_task_stmt_empty (locked : list Z) (worker : string)
    (now : Z) (d : DB) :
  (forall u, In u (tasks d) -> t_status u = Pending -> In (t_id u) locked) ->
  acquire_task_stmt locked worker now d = inr (None, d).
Proof.
  intro Hnone. unfold acquire_task_stmt, select_pending.
  destruct (filter (task_candidate locked) (tasks d)) as [|u us] eqn:Hf;
    [reflexivity|].
  assert (In u (u :: us)) as Hin by now left.
  rewrite <- Hf in Hin. apply filter_In in Hin. destruct Hin as [Hu Hc].
  apply task_candidate_iff in Hc. destruct Hc as [Hs Hl].
  elim Hl. now apply Hnone.
Qed.

(** The slot drains the queue and stops: when no task is pending (or every
    pending task is row-locked by another transaction) and the call reaches
    the database, the loop logs [worker_no_tasks] and ends at once, without
    touching the database and without looking at the turns that would
    follow. *)
Theorem while_loop_drains (cfg : Config) (worker : string)
    (t : Worker.Turn) (turns : list Worker.Turn) (pre : list exn)
    (rest : script) (more : list script) (d : DB) (now : Z)
    (launches : list (option exn)) (tlocks plocks : list Z)
    (log : list string) (page : bool) (cp : option string) :
  Worker.shutdown_set t = false ->
  Worker.heartbeat_due t = false ->
  Z.of_nat (List.length pre) < DB_RETRY_ATTEMPTS cfg ->
  (forall u, In u (tasks d) -> t_status u = Pending -> In (t_id u) tlocks) ->
  Worker.while_loop cfg worker (t :: turns)
    (Worker.mkSlot d now ((map Some pre ++ None :: rest) :: more) launches
                   tlocks plocks log page cp)
  = (Return tt,
     Worker.mkSlot d now more launches tlocks plocks
                   (log ++ ["worker_no_tasks"]) page cp).
Proof.
  intros Hsh Hhb Hpre Hnone.
  cbn [Worker.while_loop]. rewrite Hsh, Hhb.
  unfold Worker.bind at 1. cbn [Worker.ret].
  erewrite bind_step.
  2:{ apply db_call_step.
      cbn [Worker.task_locks Worker.now Worker.scripts Worker.db hd].
      unfold acquire_task. apply retry_succeeds; [assumption|].
      now apply acquire_task_stmt_empty. }
  reflexivity.
Qed.

Lemma while_loop_drains_witness :
  Worker.while_loop default_config Samples.slot0
    [Worker.mkTurn false false (Return Samples.parsed_card)]
    (Worker.mkSlot Samples.db_blocked 100
       ((map Some [Samples.down] ++ None :: []) :: []) [] [] [] [] true
       (Some "p1:1000:u:x"))
  = (Return tt,
     Worker.mkSlot Samples.db_blocked 100 [] [] [] []
                   ([] ++ ["worker_no_tasks"]) true (Some "p1:1000:u:x")).
Proof.
  apply while_loop_drains;
    [reflexivity | reflexivity | simpl; lia | intros u []].
Defined.

(* ------------------------------------------------------------------ *)
(** * The page state machine *)

Import Processor.

Section MachineFacts.
Variable Card : Type.
Variable id_text : detector -> string.
Variable is_detection_error : exn -> bool.
Variable is_card_parsing_error : exn -> bool.
Variable card_item_id : Card -> option Z.
Variable card_columns : Card -> res Content.
Variable worker_id : string.

Local Abbreviation process_item :=
  (process_item Card id_text is_detection_error is_card_parsing_error
                card_item_id card_columns worker_id).
Local Abbreviation handle_card_found :=
  (handle_card_found Card is_card_parsing_error card_item_id card_columns
                     worker_id).
Local Abbreviation handle_captcha :=
  (handle_captcha Card id_text is_card_parsing_error card_item_id
                  card_columns worker_id).

(** What the loop may rely on in a dictionary. *)
Let sound (task : TaskLease) (r : ResultDict) : Prop :=
  rd_item_id r = item_id task
  /\ (rd_status r = Error ->
      rd_worker_id r = None /\ rd_attempts r = None
      /\ rd_failure_reason r <> None)
  /\ (rd_status r <> Error ->
      rd_rotate_proxy r = false
      /\ rd_worker_id r = Some worker_id
      /\ rd_attempts r = Some (attempts task)
      /\ rd_failure_reason r = None).

Lemma error_dict_sound (task : TaskLease) (reason : string) (rotate : bool) :
  sound task (error_dict task reason rotate).
Proof.
  unfold sound, error_dict; cbn.
  split; [reflexivity|]. split.
  - intros _. repeat split. discriminate.
  - intro H. now elim H.
Qed.

Lemma handle_removed_sound (task : TaskLease) (l : list string)
    (r : ResultDict) :
  handle_removed worker_id task = (l, Return r) -> sound task r.
Proof.
  unfold handle_removed, pbind, plog, pret. intro H. injection H as _ <-.
  unfold sound; cbn.
  split; [reflexivity|]. split; [discriminate|]. intros _. repeat split.
Qed.

Lemma handle_card_found_sound (page : Page Card) (task : TaskLease)
    (l : list string) (r : ResultDict) :
  handle_card_found page task = (l, Return r) -> sound task r.
Proof.
  unfold Processor.handle_card_found, build_result, pbind, pfail, plog, pret,
    praise, plift.
  destruct (content page); [discriminate|].
  destruct (parsed page) as [card|e].
  - destruct (item_mismatch Card card_item_id task card);
      destruct (card_columns card); intro H; try discriminate H;
      injection H as _ <-; unfold sound; cbn;
      (split; [reflexivity|]; split; [discriminate|]; intros _;
       repeat split).
  - destruct (is_card_parsing_error e); intro H; [|discriminate].
    injection H as _ <-. apply error_dict_sound.
Qed.

Lemma handle_captcha_sound (page : Page Card) (task : TaskLease)
    (l : list string) (r : ResultDict) :
  handle_captcha page task = (l, Return r) -> sound task r.
Proof.
  unfold Processor.handle_captcha, plift, plog, pret.
  unfold pbind at 1.
  destruct (captcha page) as [solved|e]; [|discriminate].
  destruct solved; cbn [negb].
  - unfold pbind at 1.
    destruct (second_detect page) as [state|e]; [|discriminate].
    unfold pbind at 1.
    destruct state;
      try (intro H; injection H as _ <-; apply error_dict_sound).
    + destruct (Processor.handle_removed worker_id task) as [l' r'] eqn:Hr.
      intro H. injection H as _ ->. eapply handle_removed_sound; eassumption.
    + destruct (handle_card_found page task) as [l' r'] eqn:Hc.
      intro H. injection H as _ ->.
      eapply handle_card_found_sound; eassumption.
  - unfold pbind. intro H. injection H as _ <-. apply error_dict_sound.
Qed.

Lemma process_item_sound (page : Page Card) (task : TaskLease)
    (l : list string) (r : ResultDict) :
  process_item page task = (l, Return r) -> sound task r.
Proof.
  unfold Processor.process_item, pfail, plog, pret, praise.
  unfold pbind at 1. unfold pbind at 1.
  destruct (goto page); [discriminate|].
  destruct (first_detect page) as [state|e].
  - unfold pbind at 1.
    destruct state;
      try (unfold handle_proxy_block, handle_unexpected, pbind, plog, pret;
           intro H; injection H as _ <-; apply error_dict_sound).
    + destruct (handle_captcha page task) as [l' r'] eqn:Hc.
      intro H. injection H as _ ->. eapply handle_captcha_sound; eassumption.
    + destruct (handle_captcha page task) as [l' r'] eqn:Hc.
      intro H. injection H as _ ->. eapply handle_captcha_sound; eassumption.
    + destruct (Processor.handle_removed worker_id task) as [l' r'] eqn:Hr.
      intro H. injection H as _ ->. eapply handle_removed_sound; eassumption.
    + destruct (handle_card_found page task) as [l' r'] eqn:Hc.
      intro H. injection H as _ ->.
      eapply handle_card_found_sound; eassumption.
    + destruct (handle_captcha page task) as [l' r'] eqn:Hc.
      intro H. injection H as _ ->. eapply handle_captcha_sound; eassumption.
  - destruct (is_detection_error e); [|discriminate].
    unfold pbind. intro H. injection H as _ <-. apply error_dict_sound.
Qed.

(** Whatever the page does, a dictionary [process_item] returns names the
    item of the task; when its status is one to save it asks for no
    rotation and carries ['worker_id'], ['attempts'] and no failure reason,
    so the INSERT of [save_result_to_db] finds its keys; when its status
    is [error] it carries a failure reason and neither ['worker_id'] nor
    ['attempts'], so it could not be saved. *)
Theorem process_item_dictionary (page : Page Card) (task : TaskLease)
    (l : list string) (r : ResultDict) :
  process_item page task = (l, Return r) ->
  rd_item_id r = item_id task
  /\ (rd_rotate_proxy r = true -> rd_status r = Error)
  /\ (rd_status r <> Error ->
      rd_worker_id r = Some worker_id
      /\ rd_attempts r = Some (attempts task)
      /\ rd_failure_reason r = None
      /\ forall now d, exists d',
           save_result_stmt r now d = inr (Some true, d'))
  /\ (rd_status r = Error ->
      rd_failure_reason r <> None
      /\ forall now d, exists key,
           save_result_stmt r now d = inl (KeyError key)).
Proof.
  intro H. apply process_item_sound in H.
  destruct H as (Hitem & Herr & Hok).
  split; [assumption|]. split; [|split].
  - intro Hrot. destruct (rd_status r) eqn:Hs; try reflexivity;
      (destruct Hok as [Hf _]; [discriminate | congruence]).
  - intro Hs. destruct (Hok Hs) as (_ & Hw & Ha & Hf).
    repeat split; try assumption.
    intros now d. unfold save_result_stmt. rewrite Hw, Ha.
    destruct (find_result (rd_item_id r) d); eexists; reflexivity.
  - intro Hs. destruct (Herr Hs) as (Hw & _ & Hf).
    split; [assumption|].
    intros now d. unfold save_result_stmt. rewrite Hw.
    eexists; reflexivity.
Qed.


Lemma snd_pbind {A B} (m : P A) (k : A -> P B) :
  snd (pbind m k)
  = match snd m with
    | Return a => snd (k a)
    | Raise e => Raise e
    end.
Proof.
  unfold pbind. destruct m as [l [a|e]]; [|reflexivity].
  cbn [snd]. now destruct (k a).
Qed.

Lemma handle_card_found_success (page : Page Card) (task : TaskLease) :
  (exists r, snd (handle_card_found page task) = Return r
             /\ rd_status r = Success)
  <-> content page = None
      /\ exists card columns,
           parsed page = Return card /\ card_columns card = Return columns.
Proof.
  unfold Processor.handle_card_found, build_result.
  rewrite snd_pbind. unfold pfail.
  split.
  - intros (r & H & Hs).
    destruct (content page); [discriminate|]. split; [reflexivity|].
    cbn [snd] in H.
    destruct (parsed page) as [card|e].
    + exists card. rewrite !snd_pbind in H.
      destruct (card_columns card) as [columns|e];
        [now exists columns|].
      destruct (item_mismatch Card card_item_id task card);
        cbn in H; discriminate.
    + destruct (is_card_parsing_error e); [|discriminate].
      cbn in H. injection H as <-. discriminate.
  - intros (-> & card & columns & -> & Hc). cbn [snd].
    rewrite !snd_pbind. unfold plift. cbn [snd]. rewrite Hc.
    destruct (item_mismatch Card card_item_id task card);
      eexists; split; reflexivity.
Qed.

Lemma handle_captcha_success (page : Page Card) (task : TaskLease) :
  (exists r, snd (handle_captcha page task) = Return r
             /\ rd_status r = Success)
  <-> captcha page = Return true
      /\ second_detect page = Return CARD_FOUND
      /\ content page = None
      /\ exists card columns,
           parsed page = Return card /\ card_columns card = Return columns.
Proof.
  unfold Processor.handle_captcha. rewrite snd_pbind. unfold plift.
  cbn [snd].
  destruct (captcha page) as [[|]|e]; cbn [negb].
  - rewrite snd_pbind. cbn [snd].
    destruct (second_detect page) as [state|e].
    + rewrite snd_pbind. cbn [snd plog].
      destruct state;
        try (split; [intros (r & H & Hs); cbn in H; injection H as <-;
                     discriminate
                    |intros (_ & H & _); discriminate H]).
      rewrite handle_card_found_success. tauto.
    + split; [intros (r & H & _); discriminate H
             |intros (_ & H & _); discriminate H].
  - split; [intros (r & H & Hs); cbn in H; injection H as <-; discriminate
           |intros (H & _); discriminate H].
  - split; [intros (r & H & _); discriminate H
           |intros (H & _); discriminate H].
Qed.

(** [process_item] returns a [success] dictionary exactly when the page
    opens, is detected as a card, at once or after a solved CAPTCHA,
    gives its HTML, and the card parses and converts. *)
Theorem process_item_success (page : Page Card) (task : TaskLease) :
  (exists r, snd (process_item page task) = Return r
             /\ rd_status r = Success)
  <-> reaches_card Card card_columns page.
Proof.
  unfold reaches_card, Processor.process_item.
  rewrite !snd_pbind. cbn [snd plog]. unfold pfail.
  destruct (goto page) as [e|]; cbn [snd].
  { split; [intros (r & H & _); discriminate H
           |intros (H & _); discriminate H]. }
  destruct (first_detect page) as [state|e].
  - rewrite snd_pbind. cbn [snd plog].
    destruct state;
      try (split;
           [intros (r & H & Hs); cbn in H; injection H as <-; discriminate
           |intros (_ & [H|([H|[H|H]] & _)] & _); discriminate H]).
    + rewrite handle_captcha_success. split.
      * intros (Hc & Hs & Hrest). split; [reflexivity|].
        split; [right; repeat split; auto | exact Hrest].
      * intros (_ & [H|(_ & Hc & Hs)] & Hrest); [discriminate H|].
        now repeat split.
    + rewrite handle_captcha_success. split.
      * intros (Hc & Hs & Hrest). split; [reflexivity|].
        split; [right; repeat split; auto | exact Hrest].
      * intros (_ & [H|(_ & Hc & Hs)] & Hrest); [discriminate H|].
        now repeat split.
    + rewrite handle_card_found_success. split.
      * intros Hrest. split; [reflexivity|]. split; [now left | exact Hrest].
      * intros (_ & _ & Hrest). exact Hrest.
    + rewrite handle_captcha_success. split.
      * intros (Hc & Hs & Hrest). split; [reflexivity|].
        split; [right; repeat split; auto | exact Hrest].
      * intros (_ & [H|(_ & Hc & Hs)] & Hrest); [discriminate H|].
        now repeat split.
  - destruct (is_detection_error e).
    + split;
        [intros (r & H & Hs); cbn in H; injection H as <-; discriminate
        |intros (_ & [H|([H|[H|H]] & _)] & _); discriminate H].
    + split;
        [intros (r & H & _); discriminate H
        |intros (_ & [H|([H|[H|H]] & _)] & _); discriminate H].
Qed.

(** A detection error is caught once only.  At the first detection it
    becomes an error dictionary that asks for rotation; at the detection
    that follows a solved CAPTCHA nothing catches it, whatever its class:
    [process_item] raises it, and the turn of the loop that receives it
    gives the task back without touching any proxy row. *)
Theorem detection_error_caught_once (page : Page Card) (task : TaskLease)
    (e : exn) (cfg : Config) (s : Worker.Slot) :
  goto page = None ->
  (first_detect page = Raise e -> is_detection_error e = true ->
   snd (process_item page task)
   = Return (error_dict task "detection_error" true))
  /\ ((first_detect page = Return CAPTCHA
       \/ first_detect page = Return CONTINUE_BUTTON
       \/ first_detect page = Return PROXY_BLOCK_429) ->
      captcha page = Return true ->
      second_detect page = Raise e ->
      snd (process_item page task) = Raise e
      /\ proxies
           (Worker.db
              (snd (Worker.process_task cfg worker_id task
                      (snd (process_item page task)) s)))
         = proxies (Worker.db s)).
Proof.
  intro Hgoto. split.
  - intros Hd He. unfold Processor.process_item, pfail, plog, pret, praise.
    rewrite Hgoto, Hd, He. reflexivity.
  - intros Hfirst Hcap Hsecond.
    assert (snd (process_item page task) = Raise e) as Hraise.
    { unfold Processor.process_item, Processor.handle_captcha, pfail, plog,
        pret, praise, plift.
      rewrite Hgoto.
      destruct Hfirst as [Hf | [Hf | Hf]]; rewrite Hf, Hcap, Hsecond;
        reflexivity. }
    split; [exact Hraise|]. rewrite Hraise.
    unfold Worker.process_task, Worker.try_body.
    assert (forall x y : exn,
              proxies
                (Worker.db
                   (snd (Worker.bind (Worker.log_event "worker_error")
                           (fun _ => Worker.bind
                              (Worker.db_call
                                 (fun _ => increment_task_attempts cfg
                                             (task_id task)))
                              (fun _ => Worker.bind
                                 (Worker.db_call
                                    (fun _ => increment_worker_stats cfg
                                                worker_id false))
                                 (fun _ => Worker.ret tt))) s)))
              = proxies (Worker.db s)) as Hh.
    { intros _ _.
      apply (keeps_bind (fun d => proxies d = proxies (Worker.db s)));
        [apply keeps_log_event | | reflexivity].
      intros _. apply keeps_bind; [|intros _; apply keeps_bind;
                                     [|intros _; apply keeps_ret]].
      - apply keeps_db_call. intros _ sc d Hd.
        unfold increment_task_attempts.
        now apply retry_bool_exec_keeps.
      - apply keeps_db_call. intros _ sc d Hd.
        unfold increment_worker_stats.
        now apply retry_bool_exec_keeps. }
    destruct (Worker.page s) eqn:Hpage;
      erewrite try_bind_raise
        by (cbv beta; rewrite Hpage; reflexivity);
      now apply Hh.
Qed.

End MachineFacts.

Lemma process_item_dictionary_witness :
  rd_item_id
    (mkResultDict 300 Unavailable Processor.no_columns None
                  (Some Samples.slot0) (Some 1) false)
  = item_id Samples.lease1.
Proof.
  refine (proj1 (process_item_dictionary unit (fun _ => "state")
                   (fun _ => true) (fun _ => true) (fun _ => None)
                   (fun _ => Return Processor.no_columns) Samples.slot0
                   (mkPage None (Return REMOVED) (Return true)
                           (Return REMOVED) None (Return tt))
                   Samples.lease1 _ _ _)).
  reflexivity.
Defined.

Lemma detection_error_caught_once_witness :
  snd (process_item unit (fun _ => "state") (fun _ => true) (fun _ => true)
         (fun _ => None) (fun _ => Return Processor.no_columns)
         Samples.slot0
         (mkPage None (Raise Samples.down) (Return true) (Return REMOVED)
                 None (Return tt))
         Samples.lease1)
  = Return (error_dict Samples.lease1 "detection_error" true).
Proof.
  refine (proj1 (detection_error_caught_once unit (fun _ => "state")
                   (fun _ => true) (fun _ => true) (fun _ => None)
                   (fun _ => Return Processor.no_columns) Samples.slot0
                   (mkPage None (Raise Samples.down) (Return true)
                           (Return REMOVED) None (Return tt))
                   Samples.lease1 Samples.down default_config
                   (Samples.running Samples.db0 []) _) _ _);
    reflexivity.
Defined.

(* ------------------------------------------------------------------ *)
(** * The proxies loader *)

Import Loader.

Lemma validated_parses (p : string) :
  Proxies.validate_proxy_format p = true ->
  raises (Proxies.parse_proxy p) = false.
Proof.
  unfold Proxies.validate_proxy_format, Proxies.parse_proxy.
  destruct (Proxies.split ":" p) as [|a [|b [|c [|e [|f more]]]]];
    try discriminate. reflexivity.
Qed.

Lemma read_lines_kept (lines : list string) :
  forall (acc : Reading) (p : string),
    In p (kept (read_lines lines acc)) ->
    In p (kept acc)
    \/ (Proxies.validate_proxy_format p = true
        /\ is_comment p = false
        /\ Proxies.truthy p = true
        /\ exists raw, In raw lines /\ p = Proxies.strip raw).
Proof.
  induction lines as [|raw lines IH]; intros acc p Hp; [now left|].
  cbn [read_lines] in Hp.
  assert (forall acc',
            In p (kept (read_lines lines acc')) ->
            kept acc' = kept acc ->
            In p (kept acc)
            \/ (Proxies.validate_proxy_format p = true
                /\ is_comment p = false
                /\ Proxies.truthy p = true
                /\ exists raw0, In raw0 (raw :: lines)
                                /\ p = Proxies.strip raw0)) as Hsame.
  { intros acc' H Hk. destruct (IH acc' p H) as [Hin|(Hv & Hc & Ht & r & Hr & ->)].
    - left. now rewrite <- Hk.
    - right. repeat split; try assumption. exists r. split; [now right|reflexivity]. }
  destruct (Proxies.truthy (Proxies.strip raw)) eqn:Ht; cbn [negb] in Hp;
    [|now apply (Hsame acc)].
  destruct (is_comment (Proxies.strip raw)) eqn:Hc;
    [now apply (Hsame _ Hp)|].
  destruct (Proxies.validate_proxy_format (Proxies.strip raw)) eqn:Hv;
    [|now apply (Hsame _ Hp)].
  destruct (IH _ p Hp) as [Hin|(Hv' & Hc' & Ht' & r & Hr & ->)].
  - cbn [kept] in Hin. apply in_app_or in Hin.
    destruct Hin as [Hin|[<-|[]]]; [now left|].
    right. repeat split; try assumption. exists raw. split; [now left|reflexivity].
  - right. repeat split; try assumption. exists r.
    split; [now right|reflexivity].
Qed.

Lemma read_lines_counts (lines : list string) :
  forall acc : Reading,
    (List.length (kept (read_lines lines acc))
     + invalid_count (read_lines lines acc)
     + comment_count (read_lines lines acc)
     + List.length (filter (fun raw => negb (Proxies.truthy
                                                (Proxies.strip raw))) lines)
     = List.length (kept acc) + invalid_count acc + comment_count acc
       + List.length lines)%nat.
Proof.
  induction lines as [|raw lines IH]; intro acc; cbn [read_lines filter];
    [cbn; lia|].
  destruct (Proxies.truthy (Proxies.strip raw)); cbn [negb List.length].
  - destruct (is_comment (Proxies.strip raw));
      [|destruct (Proxies.validate_proxy_format (Proxies.strip raw))];
      match goal with
      | |- context [read_lines lines ?a] => pose proof (IH a) as H
      end;
      cbn [kept invalid_count comment_count] in H;
      rewrite ?length_app in H; cbn [List.length] in H; lia.
  - pose proof (IH acc) as H. lia.
Qed.

(** Every proxy [read_proxies] keeps is a line of the file stripped of its
    surrounding white space, is neither blank nor a comment, passes
    [validate_proxy_format], and is a string that [parse_proxy] of the
    worker accepts; and each line of the file is counted once: kept,
    invalid, comment or blank. *)
Theorem read_proxies_keeps_valid (lines : list string) :
  (forall p, In p (kept (read_proxies lines)) ->
     Proxies.validate_proxy_format p = true
     /\ raises (Proxies.parse_proxy p) = false
     /\ is_comment p = false
     /\ p <> EmptyString
     /\ exists raw, In raw lines /\ p = Proxies.strip raw)
  /\ (List.length (kept (read_proxies lines))
      + invalid_count (read_proxies lines)
      + comment_count (read_proxies lines)
      + List.length (filter (fun raw => negb (Proxies.truthy
                                                 (Proxies.strip raw))) lines)
      = List.length lines)%nat.
Proof.
  split.
  - intros p Hp. unfold read_proxies in Hp.
    destruct (read_lines_kept lines _ p Hp) as [[]|(Hv & Hc & Ht & Hraw)].
    repeat split; try assumption.
    + now apply validated_parses.
    + intros ->. discriminate.
  - unfold read_proxies. rewrite read_lines_counts. reflexivity.
Qed.

Section UploadFacts.
Variable new_row : string -> list Proxy -> Proxy.
Hypothesis new_row_proxy : forall s rows, p_proxy (new_row s rows) = s.

Lemma has_proxy_app (s : string) (rows more : list Proxy) :
  has_proxy s (rows ++ more) = has_proxy s rows || has_proxy s more.
Proof. unfold has_proxy. apply existsb_app. Qed.

Lemma has_proxy_iff (s : string) (rows : list Proxy) :
  has_proxy s rows = true <-> In s (map p_proxy rows).
Proof.
  unfold has_proxy. rewrite existsb_exists, in_map_iff.
  split; intros (p & H1 & H2).
  - exists p. apply String.eqb_eq in H2. tauto.
  - exists p. split; [assumption|]. apply String.eqb_eq. tauto.
Qed.

Lemma appended_rows (input : list string) :
  forall rows : list Proxy,
    exists extra,
      fold_left (fun t s => insert_or_skip new_row s t) input rows
      = rows ++ extra
      /\ NoDup (map p_proxy extra)
      /\ forall s, In s (map p_proxy extra)
                   <-> In s input /\ has_proxy s rows = false.
Proof.
  induction input as [|s input IH]; intro rows; cbn [fold_left].
  - exists []. rewrite app_nil_r. split; [reflexivity|].
    split; [constructor|]. cbn. tauto.
  - unfold insert_or_skip at 2.
    destruct (has_proxy s rows) eqn:Hs.
    + destruct (IH rows) as (extra & Heq & Hnd & Hkeys).
      exists extra. split; [assumption|]. split; [assumption|].
      intro x. rewrite Hkeys. cbn [In]. split; [tauto|].
      intros [[<-|Hx] Hnot]; [congruence | tauto].
    + destruct (IH (rows ++ [new_row s rows])) as (extra & Heq & Hnd & Hkeys).
      exists (new_row s rows :: extra).
      rewrite Heq, <- app_assoc. split; [reflexivity|].
      cbn [map]. rewrite new_row_proxy.
      assert (forall x, has_proxy x (rows ++ [new_row s rows])
                        = has_proxy x rows || String.eqb s x) as Happ.
      { intro x. rewrite has_proxy_app. f_equal.
        unfold has_proxy. cbn [existsb]. rewrite new_row_proxy.
        apply orb_false_r. }
      split.
      * constructor; [|assumption]. intro Hin. apply Hkeys in Hin.
        destruct Hin as [_ Hin]. rewrite Happ, String.eqb_refl in Hin.
        now rewrite orb_true_r in Hin.
      * intro x. cbn [In]. rewrite Hkeys, Happ, orb_false_iff.
        rewrite String.eqb_neq. split.
        -- intros [<-|(Hx & Hnot & Hne)]; [tauto | tauto].
        -- intros [[<-|Hx] Hnot]; [now left|].
           destruct (String.eqb_spec s x) as [->|Hne]; [now left|].
           right. tauto.
Qed.

Lemma nothing_to_append (input : list string) :
  forall rows : list Proxy,
    (forall s, In s input -> has_proxy s rows = true) ->
    fold_left (fun t s => insert_or_skip new_row s t) input rows = rows.
Proof.
  induction input as [|s input IH]; intros rows Hall; cbn [fold_left];
    [reflexivity|].
  unfold insert_or_skip at 2. rewrite (Hall s (or_introl eq_refl)).
  apply IH. intros x Hx. apply Hall. now right.
Qed.

(** [upload_append] leaves the rows of the table as they are and in place,
    and appends one row for each distinct string of the input that the
    table did not hold, so that every string of the input is in the table
    afterwards and strings that were unique stay unique; [added] is the
    number of rows appended, [skipped] counts the strings already there
    and the repetitions within the input, and loading the same input
    again adds nothing. *)
Theorem upload_append_adds_new (input : list string) (rows : list Proxy) :
  let out := upload_append new_row input rows in
  exists extra,
    fst out = rows ++ extra
    /\ NoDup (map p_proxy extra)
    /\ (forall s, In s (map p_proxy extra)
                  <-> In s input /\ has_proxy s rows = false)
    /\ (forall s, In s input -> has_proxy s (fst out) = true)
    /\ (NoDup (map p_proxy rows) -> NoDup (map p_proxy (fst out)))
    /\ snd out = (Z.of_nat (List.length extra),
                  Z.of_nat (List.length input)
                  - Z.of_nat (List.length extra))
    /\ upload_append new_row input (fst out)
       = (fst out, (0, Z.of_nat (List.length input))).
Proof.
  intro out. subst out. unfold upload_append. cbn [fst snd].
  destruct (appended_rows input rows) as (extra & Heq & Hnd & Hkeys).
  exists extra. rewrite Heq.
  assert (forall s, In s input -> has_proxy s (rows ++ extra) = true)
    as Hall.
  { intros s Hs. rewrite has_proxy_app.
    destruct (has_proxy s rows) eqn:Hr; [reflexivity|].
    cbn [orb]. apply has_proxy_iff. apply Hkeys. tauto. }
  split; [reflexivity|]. split; [assumption|]. split; [assumption|].
  split; [assumption|]. split; [|split].
  - intro Hrows. rewrite map_app. apply NoDup_app; try assumption.
    intros x Hx Hx'. apply Hkeys in Hx'. destruct Hx' as [_ Hx'].
    apply has_proxy_iff in Hx. congruence.
  - rewrite length_app. f_equal; [lia|]. f_equal. lia.
  - rewrite (nothing_to_append input (rows ++ extra) Hall).
    f_equal. f_equal; lia.
Qed.

Lemma insert_all_unique (input : list string) :
  forall acc : list Proxy,
    (NoDup input /\ (forall s, In s input -> has_proxy s acc = false) ->
     exists rows, insert_all new_row input acc = Return rows
                  /\ map p_proxy rows = map p_proxy acc ++ input)
    /\ (~ (NoDup input /\ (forall s, In s input -> has_proxy s acc = false))
        -> insert_all new_row input acc = Raise (DbError "unique_violation")).
Proof.
  induction input as [|s input IH]; intro acc; cbn [insert_all].
  - split.
    + intros _. exists acc. now rewrite app_nil_r.
    + intro H. elim H. split; [constructor | intros s []].
  - assert (forall x, has_proxy x (acc ++ [new_row s acc])
                      = has_proxy x acc || String.eqb s x) as Happ.
    { intro x. rewrite has_proxy_app. f_equal.
      unfold has_proxy. cbn [existsb]. rewrite new_row_proxy.
      apply orb_false_r. }
    destruct (has_proxy s acc) eqn:Hs.
    + split.
      * intros [_ Hfree]. rewrite (Hfree s (or_introl eq_refl)) in Hs.
        discriminate.
      * reflexivity.
    + destruct (IH (acc ++ [new_row s acc])) as [Hok Hbad]. split.
      * intros [Hnd Hfree]. inversion Hnd as [|? ? Hnotin Hnd']; subst.
        destruct Hok as (rows & Hrows & Hkeys).
        { split; [assumption|]. intros x Hx. rewrite Happ.
          rewrite (Hfree x (or_intror Hx)). cbn [orb].
          apply String.eqb_neq. intros ->. contradiction. }
        exists rows. split; [assumption|].
        rewrite Hkeys, map_app. cbn [map]. rewrite new_row_proxy.
        now rewrite <- app_assoc.
      * intro Hnot. apply Hbad. intros [Hnd Hfree]. apply Hnot. split.
        -- constructor; [|assumption]. intro Hin.
           specialize (Hfree s Hin). rewrite Happ, String.eqb_refl in Hfree.
           now rewrite orb_true_r in Hfree.
        -- intros x [<-|Hx]; [assumption|].
           specialize (Hfree x Hx). rewrite Happ in Hfree.
           now apply orb_false_iff in Hfree.
Qed.

(** [upload_overwrite] replaces the table by one row for each string of
    the input, in order, when no string is repeated in the input;
    when one is repeated, the INSERT of its second occurrence is refused,
    nothing is committed and the table is as it was before the DELETE. *)
Theorem upload_overwrite_all_or_nothing (input : list string)
    (rows : list Proxy) :
  (NoDup input ->
   snd (upload_overwrite new_row input rows)
   = Return (Z.of_nat (List.length input))
   /\ map p_proxy (fst (upload_overwrite new_row input rows)) = input)
  /\ (~ NoDup input ->
      upload_overwrite new_row input rows
      = (rows, Raise (DbError "unique_violation"))).
Proof.
  unfold upload_overwrite.
  destruct (insert_all_unique input []) as [Hok Hbad]. split.
  - intro Hnd. destruct Hok as (rows' & -> & Hkeys).
    { split; [assumption | reflexivity]. }
    cbn [fst snd]. split; [reflexivity | exact Hkeys].
  - intro Hnd. rewrite Hbad; [reflexivity|]. intros [H _]. contradiction.
Qed.

End UploadFacts.

Lemma upload_append_adds_new_witness :
  upload_append (fun s rows => mkProxy 0 s Available None None None 0 0)
    ["p2:1000:u:x"; "p9:1000:u:x"; "p9:1000:u:x"]
    (fst (upload_append
            (fun s rows => mkProxy 0 s Available None None None 0 0)
            ["p2:1000:u:x"; "p9:1000:u:x"; "p9:1000:u:x"] [Samples.p2]))
  = (fst (upload_append
            (fun s rows => mkProxy 0 s Available None None None 0 0)
            ["p2:1000:u:x"; "p9:1000:u:x"; "p9:1000:u:x"] [Samples.p2]),
     (0, Z.of_nat (List.length ["p2:1000:u:x"; "p9:1000:u:x";
                                "p9:1000:u:x"]))).
Proof.
  destruct (upload_append_adds_new
              (fun s rows => mkProxy 0 s Available None None None 0 0)
              (fun s rows => eq_refl)
              ["p2:1000:u:x"; "p9:1000:u:x"; "p9:1000:u:x"] [Samples.p2])
    as (extra & _ & _ & _ & _ & _ & _ & H).
  exact H.
Defined.

Lemma upload_overwrite_all_or_nothing_witness :
  snd (upload_overwrite
         (fun s rows => mkProxy 0 s Available None None None 0 0)
         ["p2:1000:u:x"; "p9:1000:u:x"] [Samples.p1])
  = Return (Z.of_nat (List.length ["p2:1000:u:x"; "p9:1000:u:x"])).
Proof.
  refine (proj1 (proj1 (upload_overwrite_all_or_nothing
                          (fun s rows => mkProxy 0 s Available None None
                                                 None 0 0)
                          (fun s rows => eq_refl)
                          ["p2:1000:u:x"; "p9:1000:u:x"] [Samples.p1]) _)).
  repeat constructor; cbn; intuition discriminate.
Defined.

Lemma read_proxies_keeps_valid_witness :
  Proxies.validate_proxy_format "178.250.190.177:3000:q5Wuid:1j8A4VJOZr"
  = true.
Proof.
  refine (proj1 (proj1 (read_proxies_keeps_valid
                          ["# pool"; " 178.250.190.177:3000:q5Wuid:1j8A4VJOZr ";
                           ""; "nonsense"])
                   "178.250.190.177:3000:q5Wuid:1j8A4VJOZr" _)).
  vm_compute. now left.
Defined.

(* ------------------------------------------------------------------ *)
(** * Log lines *)

Import Logging.

Lemma split_spaceless (s : string) :
  spaceless s = true -> Proxies.split " " s = [s].
Proof.
  induction s as [|c s IH]; [reflexivity|].
  cbn [spaceless Proxies.split]. intro H. apply andb_true_iff in H.
  destruct H as [Hc Hs]. apply negb_true_iff in Hc. rewrite Hc.
  now rewrite (IH Hs).
Qed.

Lemma split_first_part (s rest : string) :
  spaceless s = true ->
  Proxies.split " " (s ++ String " " rest)%string
  = s :: Proxies.split " " rest.
Proof.
  induction s as [|c s IH]; intro H.
  - reflexivity.
  - cbn [spaceless] in H. apply andb_true_iff in H.
    destruct H as [Hc Hs]. apply negb_true_iff in Hc.
    cbn [String.append Proxies.split]. rewrite Hc.
    now rewrite (IH Hs).
Qed.

Lemma split_join (parts : list string) :
  parts <> [] ->
  Forall (fun p => spaceless p = true) parts ->
  Proxies.split " " (join " " parts) = parts.
Proof.
  induction parts as [|p parts IH]; intros Hne Hall; [congruence|].
  inversion Hall as [|? ? Hp Hrest]; subst.
  destruct parts as [|q parts].
  - cbn [join]. now apply split_spaceless.
  - replace (join " " (p :: q :: parts))
      with (p ++ String " " (join " " (q :: parts)))%string by reflexivity.
    rewrite split_first_part by assumption.
    f_equal. apply IH; [discriminate | assumption].
Qed.

Lemma spaceless_append (a b : string) :
  spaceless (a ++ b) = spaceless a && spaceless b.
Proof.
  induction a as [|c a IH]; [reflexivity|].
  cbn [String.append spaceless]. rewrite IH. apply andb_assoc.
Qed.

(** A log line can be read back when no field holds a space: splitting the
    line of [make_log_line] at its spaces gives back ["event=<name>"]
    first, then the item, the proxy when it is not empty, and the extra
    pairs in the order they were passed. *)
Theorem log_line_reads_back (event : string) (item_id proxy : option string)
    (extra : list (string * value)) :
  spaceless event = true ->
  (forall i, item_id = Some i -> spaceless i = true) ->
  (forall p, proxy = Some p -> spaceless p = true) ->
  Forall (fun kv => spaceless (fst kv) = true
                    /\ spaceless (stringify (snd kv)) = true) extra ->
  Proxies.split " " (make_log_line event item_id proxy extra)
  = log_parts event item_id proxy extra
  /\ hd EmptyString (Proxies.split " "
                       (make_log_line event item_id proxy extra))
     = ("event=" ++ event)%string.
Proof.
  intros He Hi Hp Hx.
  assert (Proxies.split " " (make_log_line event item_id proxy extra)
          = log_parts event item_id proxy extra) as Hsplit.
  { unfold make_log_line. apply split_join.
    - unfold log_parts. discriminate.
    - unfold log_parts. apply Forall_app. split.
      + constructor; [|constructor]. rewrite spaceless_append.
        now rewrite He.
      + apply Forall_app. split.
        * destruct item_id as [i|]; [|constructor].
          constructor; [|constructor]. rewrite spaceless_append.
          now rewrite (Hi i eq_refl).
        * apply Forall_app. split.
          -- destruct proxy as [p|]; [|constructor].
             destruct (Proxies.truthy p); [|constructor].
             constructor; [|constructor]. rewrite spaceless_append.
             now rewrite (Hp p eq_refl).
          -- apply Forall_map. eapply Forall_impl; [|exact Hx].
             intros [k v] [Hk Hv]. cbn [fst snd] in *.
             rewrite !spaceless_append. now rewrite Hk, Hv. }
  split; [exact Hsplit|]. rewrite Hsplit. reflexivity.
Qed.

Lemma log_line_reads_back_witness :
  Proxies.split " "
    (make_log_line "task_start" (Some "300") (Some "p1:1000:u:x")
                   [("worker_id", VStr Samples.slot0); ("attempt", VStr "1")])
  = log_parts "task_start" (Some "300") (Some "p1:1000:u:x")
              [("worker_id", VStr Samples.slot0); ("attempt", VStr "1")].
Proof.
  refine (proj1 (log_line_reads_back "task_start" (Some "300")
                   (Some "p1:1000:u:x")
                   [("worker_id", VStr Samples.slot0);
                    ("attempt", VStr "1")] _ _ _ _)).
  - reflexivity.
  - intros i H. injection H as <-. reflexivity.
  - intros p H. injection H as <-. reflexivity.
  - repeat constructor.
Defined.

(* ------------------------------------------------------------------ *)
(** * Colons in a proxy string; item ids *)

Import Fields.

Lemma split_length (sep : ascii) (s : string) :
  List.length (Proxies.split sep s) = S (count_char sep s).
Proof.
  induction s as [|c s IH]; [reflexivity|].
  cbn [Proxies.split count_char].
  destruct (Ascii.eqb c sep); cbn [List.length]; [now rewrite IH|].
  destruct (Proxies.split sep s) as [|part parts]; [discriminate IH|].
  exact IH.
Qed.

(** [parse_proxy] accepts exactly the strings that hold three colons: a
    host written as an IPv6 address or a password with a colon in it is
    refused with [ValueError], and so is a line with a field missing. *)
Theorem parse_proxy_three_colons (s : string) :
  (raises (Proxies.parse_proxy s) = false <-> count_char ":" s = 3%nat)
  /\ (Proxies.validate_proxy_format s = true -> count_char ":" s = 3%nat).
Proof.
  pose proof (split_length ":" s) as Hlen.
  unfold Proxies.parse_proxy, Proxies.validate_proxy_format.
  destruct (Proxies.split ":" s) as [|a [|b [|c [|e [|f more]]]]];
    cbn [List.length raises] in *;
    (split; [split; intro H; try discriminate H; lia
            |intro H; try discriminate H; lia]).
Qed.

Lemma read_item_lines_kept (lines : list string) :
  forall (acc : Items) (n : Z),
    In n (items (read_item_lines lines acc)) ->
    In n (items acc)
    \/ exists raw, In raw lines
                   /\ Proxies.py_int (Proxies.strip raw) = Some n.
Proof.
  induction lines as [|raw lines IH]; intros acc n Hn; [now left|].
  cbn [read_item_lines] in Hn.
  assert (forall acc',
            In n (items (read_item_lines lines acc')) ->
            items acc' = items acc ->
            In n (items acc)
            \/ exists raw0, In raw0 (raw :: lines)
                            /\ Proxies.py_int (Proxies.strip raw0) = Some n)
    as Hsame.
  { intros acc' H Hk. destruct (IH acc' n H) as [Hin|(r & Hr & Hi)].
    - left. now rewrite <- Hk.
    - right. exists r. split; [now right | assumption]. }
  destruct (Proxies.truthy (Proxies.strip raw)); cbn [negb] in Hn;
    [|now apply (Hsame acc)].
  destruct (Proxies.py_int (Proxies.strip raw)) as [m|] eqn:Hm;
    [|now apply (Hsame _ Hn)].
  destruct (IH _ n Hn) as [Hin|(r & Hr & Hi)].
  - cbn [items] in Hin. apply in_app_or in Hin.
    destruct Hin as [Hin|[<-|[]]]; [now left|].
    right. exists raw. split; [now left | assumption].
  - right. exists r. split; [now right | assumption].
Qed.

Lemma read_item_lines_counts (lines : list string) :
  forall acc : Items,
    (List.length (items (read_item_lines lines acc))
     + invalid_items (read_item_lines lines acc)
     + List.length (filter (fun raw => negb (Proxies.truthy
                                                (Proxies.strip raw))) lines)
     = List.length (items acc) + invalid_items acc + List.length lines)%nat.
Proof.
  induction lines as [|raw lines IH]; intro acc;
    cbn [read_item_lines filter]; [cbn; lia|].
  destruct (Proxies.truthy (Proxies.strip raw)); cbn [negb List.length].
  - destruct (Proxies.py_int (Proxies.strip raw));
      match goal with
      | |- context [read_item_lines lines ?a] => pose proof (IH a) as H
      end;
      cbn [items invalid_items] in H;
      rewrite ?length_app in H; cbn [List.length] in H; lia.
  - pose proof (IH acc) as H. lia.
Qed.

(** Every item id [read_items] keeps is what [int] reads from a line of
    the file stripped of its surrounding white space, and each line is
    counted once: kept, refused or blank. *)
Theorem read_items_keeps_integers (lines : list string) :
  (forall n, In n (items (read_items lines)) ->
     exists raw, In raw lines
                 /\ Proxies.py_int (Proxies.strip raw) = Some n)
  /\ (List.length (items (read_items lines))
      + invalid_items (read_items lines)
      + List.length (filter (fun raw => negb (Proxies.truthy
                                                 (Proxies.strip raw))) lines)
      = List.length lines)%nat.
Proof.
  split.
  - intros n Hn. unfold read_items in Hn.
    now destruct (read_item_lines_kept lines _ n Hn) as [[]|H].
  - unfold read_items. rewrite read_item_lines_counts. reflexivity.
Qed.

Lemma read_items_keeps_integers_witness :
  exists raw, In raw [" 300 "; ""; "x"; "1_000"]
              /\ Proxies.py_int (Proxies.strip raw) = Some 1000.
Proof.
  refine (proj1 (read_items_keeps_integers [" 300 "; ""; "x"; "1_000"])
                1000 _).
  vm_compute. tauto.
Defined.

(* ------------------------------------------------------------------ *)
(** * A turn that saves *)

(** When the database answers and [process_item] returns a dictionary to
    save (status [success] or [unavailable], with its keys, no rotation),
    the turn saves the row, then completes the task, then counts it for
    the worker and logs [task_success]: the row of the item holds the
    dictionary, every row of the task is [completed] at that time, and no
    proxy row is touched. *)
Theorem saving_turn (cfg : Config) (worker : string) (task : TaskLease)
    (r : ResultDict) (holder : string) (att : Z) (d : DB) (now : Z)
    (launches : list (option exn)) (tlocks plocks : list Z)
    (log : list string) (cp : option string) :
  1 <= DB_RETRY_ATTEMPTS cfg ->
  rd_status r <> Error ->
  rd_rotate_proxy r = false ->
  rd_worker_id r = Some holder ->
  rd_attempts r = Some att ->
  let out := Worker.process_task cfg worker task (Return r)
               (Worker.mkSlot d now [] launches tlocks plocks log true cp) in
  let d' := Worker.db (snd out) in
  Worker.log (snd out) = log ++ ["task_success"]
  /\ find_result (rd_item_id r) d'
     = Some (mkResultRow (rd_item_id r) (rd_content r) (rd_status r)
                         (rd_failure_reason r) holder att now)
  /\ (forall t, In t (tasks d') -> t_id t = task_id task ->
                t_status t = Completed /\ t_completed_at t = Some now)
  /\ proxies d' = proxies d
  /\ d' = increment_worker_stats_stmt worker true
            (mark_task_completed_stmt now (task_id task)
               (snd (save_result_to_db cfg r now [] d))).
Proof.
  intros HN Hs Hrot Hw Ha out d'. subst d' out.
  assert (exists d1, save_result_stmt r now d = inr (Some true, d1)
                     /\ proxies d1 = proxies d
                     /\ find_result (rd_item_id r) d1
                        = Some (mkResultRow (rd_item_id r) (rd_content r)
                                  (rd_status r) (rd_failure_reason r)
                                  holder att now))
    as (d1 & Hstmt & Hp1 & Hfind).
  { unfold save_result_stmt. rewrite Hw, Ha. unfold result_row.
    set (row := mkResultRow _ _ _ _ _ _ _).
    unfold find_result.
    destruct (find (fun x => r_item_id x =? rd_item_id r) (results d))
      as [old|] eqn:Hf; eexists; (split; [reflexivity|]);
      cbn [proxies results set_results]; (split; [reflexivity|]).
    - rewrite (find_overwritten (rd_item_id r) row eq_refl), Hf.
      reflexivity.
    - rewrite find_appended, Hf. cbn [find]. unfold row at 1.
      cbn [r_item_id]. now rewrite Z.eqb_refl. }
  assert (Worker.process_task cfg worker task (Return r)
            (Worker.mkSlot d now [] launches tlocks plocks log true cp)
          = (Return tt,
             Worker.mkSlot
               (increment_worker_stats_stmt worker true
                  (mark_task_completed_stmt now (task_id task) d1))
               now [] launches tlocks plocks (log ++ ["task_success"])
               true cp)) as Hrun.
  { unfold Worker.process_task, Worker.try_body.
    erewrite try_bind_step by reflexivity.
    rewrite Hrot.
    erewrite try_bind_step by reflexivity.
    assert (forall (A : Type) (m : Worker.M A) h s a s',
              m s = (Return a, s') ->
              Worker.try_except m h s = (Return a, s')) as Hret
      by (intros A m h s a s' H; unfold Worker.try_except; now rewrite H).
    apply Hret.
    destruct (rd_status r); try (now elim Hs).
    all: erewrite bind_step
      by (apply db_call_step; unfold save_result_to_db, retry_bool;
          apply retry_no_fault; [exact HN | exact Hstmt]).
    all: erewrite bind_step
      by (apply db_call_step; unfold mark_task_completed, retry_bool;
          apply retry_no_fault; [exact HN | reflexivity]).
    all: erewrite bind_step
      by (apply db_call_step; unfold increment_worker_stats, retry_bool;
          apply retry_no_fault; [exact HN | reflexivity]).
    all: reflexivity. }
  rewrite Hrun. cbn [snd Worker.db Worker.log].
  unfold save_result_to_db, retry_bool.
  rewrite (retry_no_fault _ _ _ _ _ _ _ HN Hstmt). cbn [snd].
  split; [reflexivity|]. split; [exact Hfind|]. split; [|split].
  - intros t Hin Hid.
    unfold increment_worker_stats_stmt, mark_task_completed_stmt in Hin.
    cbn [tasks set_workers set_tasks] in Hin.
    unfold sql_update in Hin. apply in_map_iff in Hin.
    destruct Hin as (x & Hx & _).
    destruct (Z.eqb_spec (t_id x) (task_id task)) as [Hxt|Hxt];
      subst t; [split; reflexivity | contradiction].
  - exact Hp1.
  - reflexivity.
Qed.

Lemma saving_turn_witness :
  Worker.log
    (snd (Worker.process_task default_config Samples.slot0 Samples.lease1
            (Return Samples.parsed_card)
            (Worker.mkSlot Samples.db0 100 [] [] [] [] [] true
                           (Some "p1:1000:u:x"))))
  = [] ++ ["task_success"].
Proof.
  refine (proj1 (saving_turn default_config Samples.slot0 Samples.lease1
                   Samples.parsed_card Samples.slot0 1 Samples.db0 100 []
                   [] [] [] (Some "p1:1000:u:x") _ _ _ _ _)).
  - cbn. lia.
  - discriminate.
  - reflexivity.
  - reflexivity.
  - reflexivity.
Defined.

Lemma parse_proxy_three_colons_witness :
  count_char ":" "178.250.190.177:3000:q5Wuid:1j8A4VJOZr" = 3%nat.
Proof.
  refine (proj2 (parse_proxy_three_colons
                   "178.250.190.177:3000:q5Wuid:1j8A4VJOZr") _).
  reflexivity.
Defined.

Lemma process_item_success_witness :
  reaches_card unit (fun _ => Return Processor.no_columns)
    (mkPage None (Return CAPTCHA) (Return true) (Return CARD_FOUND) None
            (Return tt)).
Proof.
  refine (proj1 (process_item_success unit (fun _ => "state")
                   (fun _ => true) (fun _ => true) (fun _ => None)
                   (fun _ => Return Processor.no_columns) Samples.slot0
                   (mkPage None (Return CAPTCHA) (Return true)
                           (Return CARD_FOUND) None (Return tt))
                   Samples.lease1) _).
  eexists. split; reflexivity.
Defined.
